(** * Choco Crunch Analytics: the batch pipeline of [run_all.py]

    A shallow embedding of the cleaning, feature-engineering and reporting
    steps of [run_all.py], and the properties of the specification checked
    against it.

    Conventions of the embedding.
    - A Python float is an IEEE-754 binary64 number: [spec_float] of the
      Standard Library with precision 53 and maximal exponent 1024.  NaN is
      the null of numeric columns.
    - A Python [str] is a [string]; character classes (whitespace, letters,
      digits) are those of the ASCII range.
    - A Python exception is a value of [exn]; a computation that may raise
      has type [result A].  [try: ... except: ...] is [try_except].
    - A DataFrame is a header (list of column names) with a list of rows.
      A cell is a Python scalar.  Library operations ([drop_duplicates],
      [merge], [groupby], [value_counts], [nlargest], the CSV writer and
      reader) are modelled after the documented behaviour of pandas 2. *)

From Stdlib Require Import ZArith List String Ascii Bool Lia.
From Stdlib Require Import Floats.SpecFloat.
Import ListNotations.
Open Scope string_scope.
Open Scope Z_scope.

(* ================================================================= *)
(** * Part I: definitions *)
(* ================================================================= *)

(** ** Exceptions *)

Inductive exn : Type :=
| ValueError
| IndexError
| KeyError (key : string)
| TypeError
| AttributeError
| EmptyDataError.

Inductive result (A : Type) : Type :=
| Ok (a : A)
| Raise (e : exn).

Arguments Ok {A} a.
Arguments Raise {A} e.

Definition bind {A B : Type} (r : result A) (k : A -> result B) : result B :=
  match r with
  | Ok a => k a
  | Raise e => Raise e
  end.

Notation "x <- r ;; k" := (bind r (fun x => k))
  (at level 61, r at next level, right associativity).

(** [try: body  except: handler] with a bare [except], which catches
    every exception. *)
Definition try_except {A : Type} (body : result A) (handler : result A)
  : result A :=
  match body with
  | Ok a => Ok a
  | Raise _ => handler
  end.

Definition is_ok {A : Type} (r : result A) : bool :=
  match r with Ok _ => true | Raise _ => false end.

Fixpoint mapM {A B : Type} (f : A -> result B) (l : list A)
  : result (list B) :=
  match l with
  | [] => Ok []
  | a :: l' => b <- f a ;; bs <- mapM f l' ;; Ok (b :: bs)
  end.

(** ** Binary64 numbers *)

Definition float : Type := spec_float.

Definition nan : float := S754_nan.
Definition inf (neg : bool) : float := S754_infinity neg.

Definition isnan (f : float) : bool :=
  match f with S754_nan => true | _ => false end.

Definition flt (a b : float) : bool := SFltb a b.
Definition fle (a b : float) : bool := SFleb a b.
Definition feq (a b : float) : bool := SFeqb a b.
Definition fadd (a b : float) : float := SFadd 53 1024 a b.
Definition fdiv (a b : float) : float := SFdiv 53 1024 a b.

(** The float nearest to an integer. *)
Definition float_of_Z (z : Z) : float := binary_normalize 53 1024 z 0 false.

(** *** Correctly rounded conversion of a fraction *)

(** [(n / d) / 2^e] as a fraction. *)
Definition scale2 (n d e : Z) : Z * Z :=
  if 0 <=? e then (n, d * 2 ^ e) else (n * 2 ^ (- e), d).

(** [floor (log2 (n / d))] for positive [n] and [d]. *)
Definition log2_fraction (n d : Z) : Z :=
  let t := Z.log2 n - Z.log2 d in
  let '(a, b) := scale2 n d t in
  if b <=? a then t else t - 1.

(** The float nearest to [n / d] for positive [n] and [d], ties to even,
    with sign [neg]: the exponent is that of the binade of [n / d], not
    below the subnormal exponent -1074; the mantissa is the quotient at
    that exponent, rounded on the remainder; a mantissa that reaches 2^53
    moves to the next binade, and an exponent above 971 overflows to
    infinity. *)
Definition round_fraction (neg : bool) (n d : Z) : float :=
  let e := Z.max (log2_fraction n d - 52) (-1074) in
  let '(a, b) := scale2 n d e in
  let q := a / b in
  let r := a mod b in
  let m := if 2 * r <? b then q
           else if b <? 2 * r then q + 1
           else if Z.even q then q else q + 1 in
  if m =? 2 ^ 53 then
    if e + 1 <=? 971 then S754_finite neg 4503599627370496 (e + 1)
    else S754_infinity neg
  else
    match m with
    | Zpos p => if e <=? 971 then S754_finite neg p e else S754_infinity neg
    | _ => S754_zero neg
    end.

(** The same rounding by the division of the Standard Library, against
    which [round_fraction] is tested below. *)
Definition float_of_ratio (neg : bool) (n d : positive) : float :=
  let '(q, e, l) := SFdiv_core_binary 53 1024 (Zpos n) 0 (Zpos d) 0 in
  binary_round_aux 53 1024 neg q e l.

(** Moves the trailing zeros of a decimal mantissa to its exponent. *)
Fixpoint strip_zeros (fuel : nat) (d x : Z) : Z * Z :=
  match fuel with
  | O => (d, x)
  | S fuel' =>
      if (d mod 10 =? 0) && (0 <? d) then strip_zeros fuel' (d / 10) (x + 1)
      else (d, x)
  end.

Definition canonical_decimal (d x : Z) : Z * Z :=
  strip_zeros (S (Z.to_nat (Z.log2 d))) d x.

(** The float nearest to [m * 10^e] with sign [neg]: correctly rounded
    decimal-to-binary conversion, as done by [float()]. *)
Definition float_of_decimal (neg : bool) (m : Z) (e : Z) : float :=
  match m with
  | Zpos _ =>
      let '(m', e') := canonical_decimal m e in
      if 0 <=? e' then round_fraction neg (m' * 10 ^ e') 1
      else round_fraction neg m' (10 ^ (- e'))
  | _ => S754_zero neg
  end.

(** Structural equality of floats (same datum). *)
Definition float_same (a b : float) : bool :=
  match a, b with
  | S754_nan, S754_nan => true
  | S754_zero s, S754_zero t => Bool.eqb s t
  | S754_infinity s, S754_infinity t => Bool.eqb s t
  | S754_finite s m e, S754_finite t n f =>
      Bool.eqb s t && Pos.eqb m n && Z.eqb e f
  | _, _ => false
  end.

(** ** Strings *)

Definition code_of (c : ascii) : Z := Z.of_nat (nat_of_ascii c).
Definition char_of (z : Z) : ascii := ascii_of_nat (Z.to_nat z).

(** [str.isspace] on the ASCII range: tab, LF, VT, FF, CR, FS, GS, RS, US
    and the space. *)
Definition is_space (c : ascii) : bool :=
  let n := code_of c in
  ((9 <=? n) && (n <=? 13)) || ((28 <=? n) && (n <=? 32)).

Definition is_digit (c : ascii) : bool :=
  let n := code_of c in (48 <=? n) && (n <=? 57).

Definition is_upper (c : ascii) : bool :=
  let n := code_of c in (65 <=? n) && (n <=? 90).

Definition is_lower (c : ascii) : bool :=
  let n := code_of c in (97 <=? n) && (n <=? 122).

Definition is_cased (c : ascii) : bool := is_upper c || is_lower c.

Definition to_upper (c : ascii) : ascii :=
  if is_lower c then char_of (code_of c - 32) else c.

Definition to_lower (c : ascii) : ascii :=
  if is_upper c then char_of (code_of c + 32) else c.

Fixpoint lower (s : string) : string :=
  match s with
  | EmptyString => EmptyString
  | String c s' => String (to_lower c) (lower s')
  end.

Fixpoint lstrip (s : string) : string :=
  match s with
  | EmptyString => EmptyString
  | String c s' => if is_space c then lstrip s' else s
  end.

(** Drops trailing whitespace: a character is kept when something other
    than whitespace follows it or it is not whitespace itself. *)
Fixpoint rstrip (s : string) : string :=
  match s with
  | EmptyString => EmptyString
  | String c s' =>
      match rstrip s' with
      | EmptyString => if is_space c then EmptyString else String c EmptyString
      | r => String c r
      end
  end.

(** [s.strip()] *)
Definition strip (s : string) : string := rstrip (lstrip s).

(** [s.split(sep)] for a one-character separator: never empty. *)
Fixpoint split_on (sep : ascii) (s : string) : list string :=
  match s with
  | EmptyString => [EmptyString]
  | String c s' =>
      if Ascii.eqb c sep then EmptyString :: split_on sep s'
      else
        match split_on sep s' with
        | [] => [String c EmptyString]
        | w :: ws => String c w :: ws
        end
  end.

(** [s.split()]: the maximal runs of non-whitespace characters.  [cur] is
    the run being read, reversed. *)
Fixpoint rev_string (acc s : string) : string :=
  match s with
  | EmptyString => acc
  | String c s' => rev_string (String c acc) s'
  end.

Definition flush (cur : string) (k : list string) : list string :=
  match cur with
  | EmptyString => k
  | _ => rev_string EmptyString cur :: k
  end.

Fixpoint split_ws_aux (cur : string) (s : string) : list string :=
  match s with
  | EmptyString => flush cur []
  | String c s' =>
      if is_space c then flush cur (split_ws_aux EmptyString s')
      else split_ws_aux (String c cur) s'
  end.

Definition split_ws (s : string) : list string := split_ws_aux EmptyString s.

(** [s.title()]: a cased character is upper-cased when the character
    before it is not cased, and lower-cased otherwise. *)
Fixpoint title_aux (prev_cased : bool) (s : string) : string :=
  match s with
  | EmptyString => EmptyString
  | String c s' =>
      String (if prev_cased then to_lower c else to_upper c)
             (title_aux (is_cased c) s')
  end.

Definition title (s : string) : string := title_aux false s.

(** [s.startswith(p)] *)
Definition startswith (p s : string) : bool := String.prefix p s.

(** [l[0]] *)
Definition index0 {A : Type} (l : list A) : result A :=
  match l with
  | [] => Raise IndexError
  | a :: _ => Ok a
  end.

(** ** Python scalars *)

(** The leaf values of a parsed JSON document, which are also the cells
    of a DataFrame. *)
Inductive scalar : Type :=
| PNone
| PBool (b : bool)
| PInt (z : Z)
| PFloat (f : float)
| PStr (s : string).

(** Truth value of an object, as tested by [if x], [not x] and [x or y]. *)
Definition truthy (x : scalar) : bool :=
  match x with
  | PNone => false
  | PBool b => b
  | PInt z => negb (z =? 0)
  | PFloat (S754_zero _) => false
  | PFloat _ => true
  | PStr EmptyString => false
  | PStr _ => true
  end.

(** [x or y] *)
Definition py_or (x y : scalar) : scalar := if truthy x then x else y.

(** [pd.isna(x)] on a scalar *)
Definition isna (x : scalar) : bool :=
  match x with
  | PNone => true
  | PFloat f => isnan f
  | _ => false
  end.

(** *** Decimal rendering of integers *)

Definition digit_char (d : Z) : ascii := char_of (48 + d).

Fixpoint digits_fuel (fuel : nat) (n : Z) (acc : string) : string :=
  match fuel with
  | O => acc
  | S fuel' =>
      let acc' := String (digit_char (n mod 10)) acc in
      if n <? 10 then acc' else digits_fuel fuel' (n / 10) acc'
  end.

Definition str_of_nonneg (n : Z) : string :=
  digits_fuel (S (Z.to_nat (Z.log2 n))) n EmptyString.

(** [str(z)] for an int *)
Definition str_of_Z (z : Z) : string :=
  if z <? 0 then String "-" (str_of_nonneg (- z)) else str_of_nonneg z.

Definition strlen (s : string) : Z := Z.of_nat (String.length s).

Fixpoint zeros (n : nat) : string :=
  match n with
  | O => EmptyString
  | S n' => String "0" (zeros n')
  end.

(** *** [repr] of a float: the shortest decimal string that reads back as
    the same float; among the strings of that length, the nearest. *)

(** The exact value of a positive finite float [m * 2^e] as a fraction. *)
Definition fraction_of (m : positive) (e : Z) : Z * Z :=
  if e <? 0 then (Zpos m, 2 ^ (- e)) else (Zpos m * 2 ^ e, 1).

Fixpoint scale_up (fuel : nat) (num den j : Z) : Z :=
  match fuel with
  | O => j
  | S fuel' =>
      if den <=? num then j else scale_up fuel' (num * 10) den (j + 1)
  end.

(** The decimal point position [k] of [num / den]:
    [10^(k-1) <= num/den < 10^k]. *)
Definition decimal_point (num den : Z) : Z :=
  if den <=? num then strlen (str_of_nonneg (num / den))
  else 1 - scale_up (S (Z.to_nat (Z.log2 den))) num den 0.

(** The search for the digits: with [p] digits, the two decimals next to
    the value are tried; the first [p] at which one of them reads back as
    [v] gives the digits, the nearer of the two when both do.  After
    [fuel] lengths the decimal is the nearest one. *)
Fixpoint shortest_digits (fuel : nat) (p : Z) (v : float) (num den k : Z)
  : Z * Z :=
  let x := k - p in
  let n' := if 0 <=? x then num else num * 10 ^ (- x) in
  let d' := if 0 <=? x then den * 10 ^ x else den in
  let lo := n' / d' in
  let r := n' mod d' in
  let hi := lo + 1 in
  let nearest :=
    if 2 * r <? d' then lo
    else if d' <? 2 * r then hi
    else if Z.even lo then lo else hi in
  match fuel with
  | O => (nearest, x)
  | S fuel' =>
      let oklo := float_same (float_of_decimal false lo x) v in
      let okhi := float_same (float_of_decimal false hi x) v in
      if oklo && okhi then (nearest, x)
      else if oklo then (lo, x)
      else if okhi then (hi, x)
      else shortest_digits fuel' (p + 1) v num den k
  end.

(** The number of digits of the exact decimal expansion of [m * 2^e],
    at which the search ends at the latest: the expansion reads back as
    the float.  (Seventeen digits are always enough.) *)
Definition exact_digits (e k : Z) : Z :=
  Z.max 1 (k + (if e <? 0 then - e else 0)).

Definition substring_Z (start len : Z) (s : string) : string :=
  String.substring (Z.to_nat start) (Z.to_nat len) s.

(** Fixed notation when the decimal point position is in (-4, 16],
    scientific notation with a two-digit exponent otherwise. *)
Definition format_repr (d x : Z) : string :=
  let ds := str_of_nonneg d in
  let n := strlen ds in
  let decpt := n + x in
  if (-4 <? decpt) && (decpt <=? 16) then
    if decpt <=? 0 then "0." ++ zeros (Z.to_nat (- decpt)) ++ ds
    else if n <=? decpt then ds ++ zeros (Z.to_nat (decpt - n)) ++ ".0"
    else substring_Z 0 decpt ds ++ "." ++ substring_Z decpt (n - decpt) ds
  else
    let e10 := decpt - 1 in
    let es := str_of_nonneg (Z.abs e10) in
    substring_Z 0 1 ds
      ++ (if 1 <? n then "." ++ substring_Z 1 (n - 1) ds else "")
      ++ "e" ++ (if e10 <? 0 then "-" else "+")
      ++ (if strlen es <? 2 then "0" ++ es else es).

Definition float_repr (f : float) : string :=
  match f with
  | S754_nan => "nan"
  | S754_infinity s => if s then "-inf" else "inf"
  | S754_zero s => if s then "-0.0" else "0.0"
  | S754_finite s m e =>
      let '(num, den) := fraction_of m e in
      let k := decimal_point num den in
      let '(d, x) :=
        shortest_digits (Z.to_nat (exact_digits e k - 1)) 1
                        (S754_finite false m e) num den k in
      let '(d', x') := canonical_decimal d x in
      (if s then "-" else "") ++ format_repr d' x'
  end.

(** [str(x)] *)
Definition py_str (x : scalar) : string :=
  match x with
  | PNone => "None"
  | PBool b => if b then "True" else "False"
  | PInt z => str_of_Z z
  | PFloat f => float_repr f
  | PStr s => s
  end.

(** *** [float(s)] of a string *)

Definition digit_val (c : ascii) : Z := code_of c - 48.

(** The rest of a digit part, [(["_"] digit)*], after its first digit:
    the value read so far, the number of digits, and what follows. *)
Fixpoint digits_rest (s : string) (acc n : Z) : Z * Z * string :=
  match s with
  | String c s' =>
      if is_digit c then digits_rest s' (acc * 10 + digit_val c) (n + 1)
      else if Ascii.eqb c "_" then
        match s' with
        | String c2 s'' =>
            if is_digit c2
            then digits_rest s'' (acc * 10 + digit_val c2) (n + 1)
            else (acc, n, s)
        | EmptyString => (acc, n, s)
        end
      else (acc, n, s)
  | EmptyString => (acc, n, s)
  end.

(** [digitpart ::= digit (["_"] digit)*] *)
Definition digitpart (s : string) : option (Z * Z * string) :=
  match s with
  | String c s' =>
      if is_digit c then Some (digits_rest s' (digit_val c) 1) else None
  | EmptyString => None
  end.

(** A leading sign: whether it is a minus, and what follows it. *)
Definition split_sign (s : string) : bool * string :=
  match s with
  | String c r =>
      if Ascii.eqb c "-" then (true, r)
      else if Ascii.eqb c "+" then (false, r)
      else (false, s)
  | EmptyString => (false, s)
  end.

(** What follows a leading decimal point, if there is one. *)
Definition after_point (s : string) : option string :=
  match s with
  | String c r => if Ascii.eqb c "." then Some r else None
  | EmptyString => None
  end.

(** [exponent ::= ("e" | "E") ["+" | "-"] digitpart]; absent when the
    text does not start with [e]. *)
Definition exponent_part (s : string) : option (Z * string) :=
  match s with
  | String c s' =>
      if Ascii.eqb (to_lower c) "e" then
        let '(neg, s'') := split_sign s' in
        match digitpart s'' with
        | Some (v, _, r) => Some (if neg then - v else v, r)
        | None => None
        end
      else Some (0, s)
  | EmptyString => Some (0, s)
  end.

(** A decimal number: mantissa and power of ten. *)
Definition parse_number (s : string) : option (Z * Z) :=
  let after_fraction :=
    match digitpart s with
    | Some (iv, _, r0) =>
        match after_point r0 with
        | Some r =>
            match digitpart r with
            | Some (fv, fn, r') => Some (iv * 10 ^ fn + fv, fn, r')
            | None => Some (iv, 0, r)
            end
        | None => Some (iv, 0, r0)
        end
    | None =>
        match after_point s with
        | Some r =>
            match digitpart r with
            | Some (fv, fn, r') => Some (fv, fn, r')
            | None => None
            end
        | None => None
        end
    end in
  match after_fraction with
  | Some (m, fn, r) =>
      match exponent_part r with
      | Some (ev, EmptyString) => Some (m, ev - fn)
      | _ => None
      end
  | None => None
  end.

(** [float(s)]: surrounding whitespace is ignored; a sign, then [inf],
    [infinity] or [nan] in any case, or a decimal number. *)
Definition py_float (s : string) : result float :=
  let '(neg, body) := split_sign (strip s) in
  let lb := lower body in
  if String.eqb lb "inf" || String.eqb lb "infinity" then Ok (inf neg)
  else if String.eqb lb "nan" then Ok nan
  else
    match parse_number body with
    | Some (m, e) => Ok (float_of_decimal neg m e)
    | None => Raise ValueError
    end.

(** ** Helpers of the pipeline *)

(** <<
    def to_float(x):
        try: return float(str(x).split()[0])
        except: return np.nan
    >> *)
Definition to_float (x : scalar) : result float :=
  try_except
    (tok <- index0 (split_ws (py_str x)) ;; py_float tok)
    (Ok nan).

(** <<
    def normalize_brand(b):
        if not b: return "Unknown"
        first = str(b).split(",")[0].strip()
        return first.title() if first else "Unknown"
    >> *)
Definition normalize_brand (b : scalar) : result string :=
  if negb (truthy b) then Ok "Unknown"
  else
    seg <- index0 (split_on "," (py_str b)) ;;
    let first := strip seg in
    if truthy (PStr first) then Ok (title first) else Ok "Unknown".

(** ** DataFrames *)

(** A table: the column names, and the rows in index order.  Every row
    has one cell per column. *)
Record DataFrame : Type := mkDataFrame {
  columns : list string;
  rows : list (list scalar)
}.

Fixpoint index_of (name : string) (cols : list string) : option nat :=
  match cols with
  | [] => None
  | c :: cols' =>
      if String.eqb c name then Some O
      else option_map S (index_of name cols')
  end.

(** Position of a column; [KeyError] when the table has no such column. *)
Definition col_pos (df : DataFrame) (name : string) : result nat :=
  match index_of name (columns df) with
  | Some i => Ok i
  | None => Raise (KeyError name)
  end.

Definition cell_at (i : nat) (r : list scalar) : scalar := nth i r PNone.

(** [df[name]] *)
Definition getcol (df : DataFrame) (name : string) : result (list scalar) :=
  i <- col_pos df name ;; Ok (map (cell_at i) (rows df)).

Fixpoint replace_nth (i : nat) (v : scalar) (r : list scalar) {struct r}
  : list scalar :=
  match r, i with
  | [], _ => []
  | _ :: r', O => v :: r'
  | c :: r', S i' => c :: replace_nth i' v r'
  end.

Fixpoint remove_nth {A : Type} (i : nat) (r : list A) {struct r} : list A :=
  match r, i with
  | [], _ => []
  | _ :: r', O => r'
  | c :: r', S i' => c :: remove_nth i' r'
  end.

Fixpoint zip_with {A B C : Type} (f : A -> B -> C) (l : list A) (m : list B)
  : list C :=
  match l, m with
  | a :: l', b :: m' => f a b :: zip_with f l' m'
  | _, _ => []
  end.

(** [df[name] = vals]: an existing column is overwritten in place, a new
    one is added as the last column. *)
Definition setcol (df : DataFrame) (name : string) (vals : list scalar)
  : DataFrame :=
  match index_of name (columns df) with
  | Some i =>
      mkDataFrame (columns df)
                  (zip_with (fun r v => replace_nth i v r) (rows df) vals)
  | None =>
      mkDataFrame (columns df ++ [name])%list
                  (zip_with (fun r v => r ++ [v])%list (rows df) vals)
  end.

(** [pd.DataFrame(records)] for a list of dicts that all have the same
    keys in the same order; no record, no column. *)
Definition pd_DataFrame (records : list (list (string * scalar)))
  : DataFrame :=
  match records with
  | [] => mkDataFrame [] []
  | r :: _ => mkDataFrame (map fst r) (map (map snd) records)
  end.

(** [df.empty]: some axis has length 0. *)
Definition df_empty (df : DataFrame) : bool :=
  match columns df, rows df with
  | [], _ => true
  | _, [] => true
  | _, _ => false
  end.

(** [df[mask]] for a boolean mask aligned with the rows *)
Fixpoint filter_mask {A : Type} (l : list A) (mask : list bool) : list A :=
  match l, mask with
  | a :: l', b :: mask' =>
      if b then a :: filter_mask l' mask' else filter_mask l' mask'
  | _, _ => []
  end.

Definition filter_rows (df : DataFrame) (mask : list bool) : DataFrame :=
  mkDataFrame (columns df) (filter_mask (rows df) mask).

(** [df[[c1, ..., cn]]] *)
Definition select (df : DataFrame) (names : list string) : result DataFrame :=
  ps <- mapM (col_pos df) names ;;
  Ok (mkDataFrame names (map (fun r => map (fun i => cell_at i r) ps) (rows df))).

(** *** Values as keys and as numbers *)

(** The number held by a cell of a numeric column; a null is NaN, text in
    a numeric position is a [TypeError]. *)
Definition as_float (c : scalar) : result float :=
  match c with
  | PFloat f => Ok f
  | PInt z => Ok (float_of_Z z)
  | PBool b => Ok (float_of_Z (if b then 1 else 0))
  | PNone => Ok nan
  | PStr _ => Raise TypeError
  end.

(** Equality of two cells as keys (hashing in [drop_duplicates],
    [groupby], [value_counts], [nunique]; matching in [merge]): numbers
    by value, strings by content, and a null equals a null. *)
Definition cell_eqb (a b : scalar) : bool :=
  match a, b with
  | PStr s, PStr t => String.eqb s t
  | PStr _, _ | _, PStr _ => false
  | _, _ =>
      if isna a then isna b
      else if isna b then false
      else
        match as_float a, as_float b with
        | Ok x, Ok y => feq x y
        | _, _ => false
        end
  end.

(** Order of two cells as sorted group keys: numbers by value, strings
    by code point, numbers before strings. *)
Definition cell_leb (a b : scalar) : bool :=
  match a, b with
  | PStr s, PStr t => String.leb s t
  | PStr _, _ => false
  | _, PStr _ => true
  | _, _ =>
      match as_float a, as_float b with
      | Ok x, Ok y => fle x y
      | _, _ => true
      end
  end.

Definition mem_cell (k : scalar) (seen : list scalar) : bool :=
  existsb (cell_eqb k) seen.

(** *** [drop_duplicates] *)

(** Keeps the first row of each key; [seen] holds the keys met so far. *)
Fixpoint dedup_rows (i : nat) (seen : list scalar) (rs : list (list scalar))
  : list (list scalar) :=
  match rs with
  | [] => []
  | r :: rs' =>
      let k := cell_at i r in
      if mem_cell k seen then dedup_rows i seen rs'
      else r :: dedup_rows i (k :: seen) rs'
  end.

(** [df.drop_duplicates(key)]: an empty frame is returned as it is,
    before the column is looked up. *)
Definition drop_duplicates (key : string) (df : DataFrame) : result DataFrame :=
  if df_empty df then Ok df
  else
    i <- col_pos df key ;;
    Ok (mkDataFrame (columns df) (dedup_rows i [] (rows df))).

(** *** [merge] *)

(** [left.merge(right, on=key, how="left")] for frames that share no
    column name but the key: every left row, in order, joined with each
    right row of the same key, in order, or with nulls when there is
    none. *)
Definition merge_left (key : string) (left right : DataFrame)
  : result DataFrame :=
  i <- col_pos left key ;;
  j <- col_pos right key ;;
  let rcols := remove_nth j (columns right) in
  let join (lr : list scalar) : list (list scalar) :=
    match filter (fun rr => cell_eqb (cell_at i lr) (cell_at j rr))
                 (rows right) with
    | [] => [lr ++ map (fun _ => PFloat nan) rcols]
    | ms => map (fun rr => lr ++ remove_nth j rr) ms
    end%list in
  Ok (mkDataFrame (columns left ++ rcols)%list (flat_map join (rows left))).

(** *** Writing a table to a CSV file and reading it back *)

(** The text of a cell in the file: nulls are written as nothing. *)
Definition csv_text (c : scalar) : string :=
  if isna c then "" else py_str c.

(** The texts that [read_csv] takes for a missing value by default. *)
Definition na_values : list string :=
  [""; "#N/A"; "#N/A N/A"; "#NA"; "-1.#IND"; "-1.#QNAN"; "-NaN"; "-nan";
   "1.#IND"; "1.#QNAN"; "<NA>"; "N/A"; "NA"; "NULL"; "NaN"; "None"; "n/a";
   "nan"; "null"].

Definition is_na_text (t : string) : bool := existsb (String.eqb t) na_values.

Fixpoint all_digits (s : string) : bool :=
  match s with
  | EmptyString => true
  | String c s' => is_digit c && all_digits s'
  end.

Fixpoint digits_value (acc : Z) (s : string) : Z :=
  match s with
  | EmptyString => acc
  | String c s' => digits_value (acc * 10 + digit_val c) s'
  end.

(** An integer literal of the file that fits 64 bits. *)
Definition csv_int (t : string) : option Z :=
  let '(neg, body) := split_sign t in
  match body with
  | EmptyString => None
  | _ =>
      if all_digits body then
        let v := if neg then - digits_value 0 body else digits_value 0 body in
        if (- 2 ^ 63 <=? v) && (v <? 2 ^ 63) then Some v else None
      else None
  end.

Fixpoint no_underscore (s : string) : bool :=
  match s with
  | EmptyString => true
  | String c s' => negb (Ascii.eqb c "_") && no_underscore s'
  end.

(** A numeric literal of the file: the grammar of [float()] without digit
    separators; a missing value is only ever spelled by one of
    [na_values]. *)
Definition csv_float (t : string) : option float :=
  if no_underscore t then
    match py_float t with
    | Ok f => if isnan f then None else Some f
    | Raise _ => None
    end
  else None.

Inductive dtype : Type := DInt | DFloat | DObject.

Definition is_some {A : Type} (o : option A) : bool :=
  match o with Some _ => true | None => false end.

(** The type [read_csv] gives a column, from its texts: integers when
    every text is an integer literal, floats when every text that is not
    a missing-value marker is a numeric literal, text otherwise. *)
Definition infer_dtype (texts : list string) : dtype :=
  if forallb (fun t => is_some (csv_int t)) texts then DInt
  else if forallb (fun t => is_na_text t || is_some (csv_float t)) texts
  then DFloat
  else DObject.

Definition read_cell (dt : dtype) (t : string) : scalar :=
  if is_na_text t then PFloat nan
  else
    match dt with
    | DInt => match csv_int t with Some z => PInt z | None => PStr t end
    | DFloat => match csv_float t with Some f => PFloat f | None => PStr t end
    | DObject => PStr t
    end.

Definition column_texts (df : DataFrame) (i : nat) : list string :=
  map (fun r => csv_text (cell_at i r)) (rows df).

(** [pd.read_csv(path)] of the file written by [df.to_csv(path,
    index=False)]: a file with no column cannot be read; otherwise every
    cell comes back as the reader types its text. *)
Definition read_csv (written : DataFrame) : result DataFrame :=
  match columns written with
  | [] => Raise EmptyDataError
  | _ =>
      let dts := map (fun i => infer_dtype (column_texts written i))
                     (seq 0 (List.length (columns written))) in
      Ok (mkDataFrame (columns written)
            (map (fun r => zip_with (fun dt c => read_cell dt (csv_text c)) dts r)
                 (rows written)))
  end.

(** ** Step 1: fetching the records *)

(** What one request to the search API comes to: an exception of any
    kind (connection, timeout, HTTP status, a body that is not a JSON
    object), or a JSON object with its "products" entry, [None] when the
    key is absent or null. *)
Inductive reply (A : Type) : Type :=
| Failed : reply A
| Body : option (list A) -> reply A.
Arguments Failed {A}.
Arguments Body {A} _.

(** [x or []] *)
Definition or_empty {A : Type} (o : option (list A)) : list A :=
  match o with
  | Some l => l
  | None => []
  end.

(** The attempts of [_get_products] from the one numbered [attempt] on,
    [k] of them left; [net] gives the outcome of each attempt.  The result
    is the list returned and the seconds slept, one entry per failure:
    <<
    for attempt in range(4):
        try:
            r = requests.get(...); r.raise_for_status()
            return r.json().get("products", []) or []
        except Exception as e:
            print(...); time.sleep(1 + attempt)
    return []
    >> *)
Fixpoint get_attempts {A : Type} (net : nat -> reply A) (k attempt : nat)
  : list A * list Z :=
  match k with
  | O => ([], [])
  | S k' =>
      match net attempt with
      | Body ps => (or_empty ps, [])
      | Failed =>
          let '(r, slept) := get_attempts net k' (S attempt) in
          (r, (1 + Z.of_nat attempt) :: slept)
      end
  end.

Definition _get_products {A : Type} (net : nat -> reply A) : list A * list Z :=
  get_attempts net 4 0.

(** The two queries of [step_fetch_combined], in order:
    [{"categories":"chocolates"}] and [{"search_terms":"chocolate"}]. *)
Inductive source : Type := Categories | SearchTerms.

(** The variables of [step_fetch_combined], and the calls of
    [_get_products] made so far. *)
Record FetchState (A : Type) : Type := mkFetch {
  all_prods : list A;
  total : Z;
  requested : list (source * Z)
}.
Arguments mkFetch {A} _ _ _.
Arguments all_prods {A} _.
Arguments total {A} _.
Arguments requested {A} _.

(** The loop over the pages of one source; [net src page attempt] is the
    outcome of an attempt to get a page.
    <<
    while total < max_records:
        prods = _get_products(source, page)
        if not prods: break
        all_prods.extend(prods)
        total = len(all_prods)
        page += 1
        if total >= max_records: break
    >> *)
Fixpoint fetch_source {A : Type} (fuel : nat)
    (net : source -> Z -> nat -> reply A) (max_records : Z) (src : source)
    (page : Z) (st : FetchState A) : option (FetchState A) :=
  if total st <? max_records then
    match fuel with
    | O => None
    | S fuel' =>
        let prods := fst (_get_products (net src page)) in
        let asked := (requested st ++ [(src, page)])%list in
        match prods with
        | [] => Some (mkFetch (all_prods st) (total st) asked)
        | _ =>
            let all' := (all_prods st ++ prods)%list in
            let st' := mkFetch all' (Z.of_nat (List.length all')) asked in
            if max_records <=? total st' then Some st'
            else fetch_source fuel' net max_records src (page + 1) st'
        end
    end
  else Some st.

(** [l[:n]] *)
Definition slice_to {A : Type} (n : Z) (l : list A) : list A :=
  if 0 <=? n then firstn (Z.to_nat n) l
  else firstn (List.length l - Z.to_nat (- n)) l.

(** What a run of [step_fetch_combined] leaves: the records written to
    the raw file, one per line, the number returned, and the pages that
    were asked for. *)
Record Fetched (A : Type) : Type := mkFetched {
  RAW_JSONL : list A;
  returned : Z;
  asked_pages : list (source * Z)
}.
Arguments mkFetched {A} _ _ _.
Arguments RAW_JSONL {A} _.
Arguments returned {A} _.
Arguments asked_pages {A} _.

(** [step_fetch_combined(max_records)]; every pass of a loop adds a
    record, so [max_records] passes are enough for each source. *)
Definition step_fetch_combined {A : Type}
    (net : source -> Z -> nat -> reply A) (max_records : Z)
  : option (Fetched A) :=
  let fuel := Z.to_nat max_records in
  match fetch_source fuel net max_records Categories 1 (mkFetch [] 0 []) with
  | None => None
  | Some st1 =>
      match fetch_source fuel net max_records SearchTerms 1 st1 with
      | None => None
      | Some st2 =>
          let written := slice_to max_records (all_prods st2) in
          Some (mkFetched written (Z.of_nat (List.length written))
                          (requested st2))
      end
  end.

(** The pages [page], ..., [page + k - 1] of a source, one after the
    other. *)
Definition page_list {A : Type} (get : Z -> list A) (page : Z) (k : nat)
  : list A :=
  flat_map (fun i => get (page + Z.of_nat i)) (seq 0 k).

(** The calls for the pages [page], ..., [page + k - 1] of a source. *)
Definition page_calls (src : source) (page : Z) (k : nat)
  : list (source * Z) :=
  map (fun i => (src, page + Z.of_nat i)) (seq 0 k).

(** ** Step 2: cleaning and transformation *)

(** A JSON object as parsed: keys with their values. *)
Definition dict : Type := list (string * scalar).

(** [d.get(k)]: [None] when the key is absent. *)
Fixpoint dict_get (d : dict) (k : string) : scalar :=
  match d with
  | [] => PNone
  | (k', v) :: d' => if String.eqb k' k then v else dict_get d' k
  end.

(** One record of the raw file, restricted to the keys the pipeline
    reads.  The identity fields are strings, [None] when the key is absent
    or null; [nutriments] is an object of scalars, [None] when absent. *)
Record RawRecord : Type := mkRaw {
  code : option string;
  product_name : option string;
  brands : option string;
  nutriments : option dict
}.

Definition opt_str (o : option string) : scalar :=
  match o with
  | Some s => PStr s
  | None => PNone
  end.

(** The columns of the nutrient table after [product_code], each with the
    expression whose value is parsed. *)
Definition nutrient_fields (nutr : dict) : list (string * scalar) :=
  [ ("energy-kcal_value", dict_get nutr "energy-kcal_100g");
    ("energy-kj_value", dict_get nutr "energy-kj_100g");
    ("carbohydrates_value", dict_get nutr "carbohydrates_100g");
    ("sugars_value", dict_get nutr "sugars_100g");
    ("fat_value", dict_get nutr "fat_100g");
    ("saturated-fat_value", dict_get nutr "saturated-fat_100g");
    ("proteins_value", dict_get nutr "proteins_100g");
    ("fiber_value", dict_get nutr "fiber_100g");
    ("salt_value", dict_get nutr "salt_100g");
    ("sodium_value", dict_get nutr "sodium_100g");
    ("fruits-vegetables-nuts-estimate-from-ingredients_100g",
      dict_get nutr "fruits-vegetables-nuts-estimate-from-ingredients_100g");
    ("nutrition-score-fr",
      py_or (dict_get nutr "nutrition-score-fr_100g")
            (dict_get nutr "nutrition-score-fr"));
    ("nova-group",
      py_or (dict_get nutr "nova-group_100g") (dict_get nutr "nova-group")) ].

(** The identity row of a record (the dict appended to [prows]). *)
Definition identity_row (p : RawRecord) : result (list (string * scalar)) :=
  let name := py_or (opt_str (product_name p)) (PStr "Unknown") in
  brand <- normalize_brand (opt_str (brands p)) ;;
  Ok [ ("product_code", opt_str (code p));
       ("product_name", name);
       ("brand", PStr brand) ].

(** The nutrient row of a record (the dict appended to [nrows]). *)
Definition nutrient_row (p : RawRecord) : result (list (string * scalar)) :=
  let nutr := match nutriments p with
              | Some d => d
              | None => []
              end in
  vals <- mapM (fun cv => f <- to_float (snd cv) ;; Ok (fst cv, PFloat f))
               (nutrient_fields nutr) ;;
  Ok (("product_code", opt_str (code p)) :: vals).

(** The row appended to [drows]. *)
Definition derived_row (p : RawRecord) : list (string * scalar) :=
  [ ("product_code", opt_str (code p)) ].

(** The three files written by the step. *)
Record CleanFiles : Type := mkCleanFiles {
  PRODUCT_CSV : DataFrame;
  NUTRIENT_CSV : DataFrame;
  DERIVED_CSV : DataFrame
}.

(** [step_clean_transform()], from the records of the raw file. *)
Definition step_clean_transform (raw : list RawRecord) : result CleanFiles :=
  prows <- mapM identity_row raw ;;
  nrows <- mapM nutrient_row raw ;;
  let drows := map derived_row raw in
  dfp <- drop_duplicates "product_code" (pd_DataFrame prows) ;;
  dfn <- drop_duplicates "product_code" (pd_DataFrame nrows) ;;
  dfd <- drop_duplicates "product_code" (pd_DataFrame drows) ;;
  Ok (mkCleanFiles dfp dfn dfd).

(** ** Step 3: feature engineering *)

(** The number a cell becomes under [pd.to_numeric(s, errors="coerce")];
    a numeric column is held as floats. *)
Definition num_of (c : scalar) : float :=
  match c with
  | PFloat f => f
  | PInt z => float_of_Z z
  | PBool b => float_of_Z (if b then 1 else 0)
  | PNone => nan
  | PStr s => match csv_float (strip s) with Some f => f | None => nan end
  end.

(** [safe_num(s)] *)
Definition safe_num (s : list scalar) : list scalar :=
  map (fun c => PFloat (num_of c)) s.

(** [np.clip(x, lo, hi)] on one number: NaN stays, a value below [lo]
    becomes [lo], a value above [hi] becomes [hi]. *)
Definition np_clip (x lo hi : float) : float :=
  if isnan x then x
  else if negb (fle lo x) then lo
  else if negb (fle x hi) then hi
  else x.

(** One element of
    <<
    np.where((df["carbohydrates_value"]>0)&df["sugars_value"].notna(),
             np.clip(df["sugars_value"]/df["carbohydrates_value"],0,1),np.nan)
    >> *)
Definition sugar_to_carb_ratio (sugars carbohydrates : float) : float :=
  if flt (float_of_Z 0) carbohydrates && negb (isnan sugars)
  then np_clip (fdiv sugars carbohydrates) (float_of_Z 0) (float_of_Z 1)
  else nan.

(** <<
    def cat_cal(k):
        if pd.isna(k):return"Unknown"
        if k<=150:return"Low"
        if k<=300:return"Moderate"
        return"High"
    >> *)
Definition cat_cal (k : float) : string :=
  if isnan k then "Unknown"
  else if fle k (float_of_Z 150) then "Low"
  else if fle k (float_of_Z 300) then "Moderate"
  else "High".

(** <<
    def cat_sug(s):
        if pd.isna(s):return"Unknown"
        if s<5:return"Low"
        if s<=15:return"Moderate"
        return"High"
    >> *)
Definition cat_sug (s : float) : string :=
  if isnan s then "Unknown"
  else if flt s (float_of_Z 5) then "Low"
  else if fle s (float_of_Z 15) then "Moderate"
  else "High".

(** [lambda n:"Yes" if n==4 else("No" if pd.notna(n) else"Unknown")] *)
Definition is_ultra_processed (n : float) : string :=
  if feq n (float_of_Z 4) then "Yes"
  else if negb (isnan n) then "No"
  else "Unknown".

(** [df[name] = f(df[name])] *)
Definition update_col (df : DataFrame) (name : string)
    (f : list scalar -> list scalar) : result DataFrame :=
  c <- getcol df name ;; Ok (setcol df name (f c)).

(** [df[name] = df[src].apply(f)] for a function of one number *)
Definition apply_col (df : DataFrame) (name src : string)
    (f : float -> string) : result DataFrame :=
  c <- getcol df src ;;
  Ok (setcol df name (map (fun x => PStr (f (num_of x))) c)).

(** The assignments of [step_feature_engineer] that follow the merge:
    the four columns made numeric, then the four derived columns. *)
Definition derive_features (df : DataFrame) : result DataFrame :=
  df <- update_col df "sugars_value" safe_num ;;
  df <- update_col df "carbohydrates_value" safe_num ;;
  df <- update_col df "energy-kcal_value" safe_num ;;
  df <- update_col df "nova-group" safe_num ;;
  carbs <- getcol df "carbohydrates_value" ;;
  sugars <- getcol df "sugars_value" ;;
  let df := setcol df "sugar_to_carb_ratio"
              (zip_with (fun s c => PFloat (sugar_to_carb_ratio (num_of s) (num_of c)))
                        sugars carbs) in
  df <- apply_col df "calorie_category" "energy-kcal_value" cat_cal ;;
  df <- apply_col df "sugar_category" "sugars_value" cat_sug ;;
  df <- apply_col df "is_ultra_processed" "nova-group" is_ultra_processed ;;
  Ok df.

(** [step_feature_engineer()], from the files of the cleaning step. *)
Definition step_feature_engineer (files : CleanFiles) : result DataFrame :=
  dfp <- read_csv (PRODUCT_CSV files) ;;
  dfn <- read_csv (NUTRIENT_CSV files) ;;
  df <- merge_left "product_code" dfp dfn ;;
  derive_features df.

(** ** Step 5: the 27 report queries *)

(** *** Aggregation helpers *)

Definition notna (c : scalar) : bool := negb (isna c).

(** The distinct values of a list, in order of first appearance. *)
Fixpoint distinct (seen : list scalar) (l : list scalar) : list scalar :=
  match l with
  | [] => []
  | c :: l' =>
      if mem_cell c seen then distinct seen l'
      else c :: distinct (c :: seen) l'
  end.

(** [s.unique()] without the nulls *)
Definition uniques (l : list scalar) : list scalar :=
  distinct [] (filter notna l).

(** [s.nunique()] *)
Definition nunique (l : list scalar) : Z := Z.of_nat (List.length (uniques l)).

Fixpoint insert_by {A : Type} (before : A -> A -> bool) (x : A) (l : list A)
  : list A :=
  match l with
  | [] => [x]
  | y :: l' => if before x y then x :: l else y :: insert_by before x l'
  end.

(** Stable sort: [before x y] says that [x] must come before an equal or
    earlier-placed [y]. *)
Definition sort_by {A : Type} (before : A -> A -> bool) (l : list A) : list A :=
  fold_right (insert_by before) [] l.

(** The keys of [df.groupby(by)]: the non-null values, sorted. *)
Definition group_keys (keycol : list scalar) : list scalar :=
  sort_by (fun x y => cell_leb x y && negb (cell_eqb x y)) (uniques keycol).

(** The entries of [vals] on the rows whose key is [k]. *)
Definition in_group {A : Type} (k : scalar) (keycol : list scalar)
    (vals : list A) : list A :=
  filter_mask vals (map (cell_eqb k) keycol).

(** [s.mean()]: the sum of the non-null values over their number; NaN
    when there is none. *)
Definition mean (vals : list float) : float :=
  match filter (fun x => negb (isnan x)) vals with
  | [] => nan
  | xs => fdiv (fold_left fadd xs (float_of_Z 0))
               (float_of_Z (Z.of_nat (List.length xs)))
  end.

Definition col_floats (df : DataFrame) (name : string) : result (list float) :=
  c <- getcol df name ;; mapM as_float c.

Definition two_cols (c1 c2 : string) (l : list (scalar * scalar)) : DataFrame :=
  mkDataFrame [c1; c2] (map (fun p => [fst p; snd p]) l).

(** [df.groupby(by)[col].mean().reset_index(name=out)] *)
Definition groupby_mean (df : DataFrame) (by_ col out : string)
  : result DataFrame :=
  keys <- getcol df by_ ;;
  vals <- col_floats df col ;;
  Ok (two_cols by_ out
        (map (fun k => (k, PFloat (mean (in_group k keys vals))))
             (group_keys keys))).

(** [s.value_counts()]: the non-null values with their counts, the most
    frequent first, equal counts in order of first appearance. *)
Definition value_counts (s : list scalar) : list (scalar * scalar) :=
  let counted :=
    map (fun k => (k, Z.of_nat (List.length (in_group k s s)))) (uniques s) in
  map (fun p => (fst p, PInt (snd p)))
      (sort_by (fun x y => snd y <? snd x) counted).

(** [df.nlargest(n, col)]: the rows by decreasing value, equal values in
    row order, nulls last; the first [n] of them. *)
Definition nlargest (n : nat) (col : string) (df : DataFrame)
  : result DataFrame :=
  vals <- col_floats df col ;;
  let keyed := combine vals (rows df) in
  let known := filter (fun p => negb (isnan (fst p))) keyed in
  let nulls := filter (fun p => isnan (fst p)) keyed in
  let sorted := sort_by (fun x y => flt (fst y) (fst x)) known in
  Ok (mkDataFrame (columns df) (firstn n (map snd (sorted ++ nulls)%list))).

(** [df[df[col] > thr]] *)
Definition where_gt (df : DataFrame) (col : string) (thr : float)
  : result DataFrame :=
  vals <- col_floats df col ;;
  Ok (filter_rows df (map (fun x => flt thr x) vals)).

(** The mask [df[col] == s] *)
Definition eq_mask (df : DataFrame) (col s : string) : result (list bool) :=
  c <- getcol df col ;; Ok (map (fun x => cell_eqb x (PStr s)) c).

Definition where_eq (df : DataFrame) (col s : string) : result DataFrame :=
  m <- eq_mask df col s ;; Ok (filter_rows df m).

Definition fvn : string :=
  "fruits-vegetables-nuts-estimate-from-ingredients_100g".

(** *** The queries, in the order of [step_analytics] *)

Definition q01 (df : DataFrame) : result DataFrame :=
  b <- getcol df "brand" ;;
  Ok (two_cols "brand" "total"
        (map (fun k => (k, PInt (Z.of_nat (List.length (in_group k b b)))))
             (group_keys b))).

Definition q02 (df : DataFrame) : result DataFrame :=
  b <- getcol df "brand" ;;
  c <- getcol df "product_code" ;;
  Ok (two_cols "brand" "unique_products"
        (map (fun k => (k, PInt (nunique (in_group k b c)))) (group_keys b))).

Definition q03 (df : DataFrame) : result DataFrame :=
  b <- getcol df "brand" ;;
  Ok (two_cols "brand" "count" (firstn 5 (value_counts b))).

Definition q04 (df : DataFrame) : result DataFrame :=
  n <- getcol df "product_name" ;;
  Ok (filter_rows df (map isna n)).

Definition q05 (df : DataFrame) : result DataFrame :=
  b <- getcol df "brand" ;;
  Ok (pd_DataFrame [[("unique_brands", PInt (nunique b))]]).

Definition q06 (df : DataFrame) : result DataFrame :=
  c <- getcol df "product_code" ;;
  Ok (filter_rows df (map (fun x => startswith "3" (py_str x)) c)).

Definition q07 (df : DataFrame) : result DataFrame :=
  top <- nlargest 10 "energy-kcal_value" df ;;
  select top ["product_code"; "brand"; "energy-kcal_value"].

Definition q08 (df : DataFrame) : result DataFrame :=
  groupby_mean df "nova-group" "sugars_value" "avg_sugar".

Definition q09 (df : DataFrame) : result DataFrame :=
  where_gt df "fat_value" (float_of_Z 20).

Definition q10 (df : DataFrame) : result DataFrame :=
  groupby_mean df "product_code" "carbohydrates_value" "carbohydrates_value".

Definition q11 (df : DataFrame) : result DataFrame :=
  where_gt df "sodium_value" (float_of_Z 1).

Definition q12 (df : DataFrame) : result DataFrame :=
  vals <- col_floats df fvn ;;
  let filled := map (fun x => if isnan x then float_of_Z 0 else x) vals in
  Ok (filter_rows df (map (fun x => flt (float_of_Z 0) x) filled)).

Definition q13 (df : DataFrame) : result DataFrame :=
  where_gt df "energy-kcal_value" (float_of_Z 500).

Definition q14 (df : DataFrame) : result DataFrame :=
  c <- getcol df "calorie_category" ;;
  Ok (two_cols "calorie_category" "count" (value_counts c)).

Definition q15 (df : DataFrame) : result DataFrame :=
  where_eq df "sugar_category" "High".

Definition q16 (df : DataFrame) : result DataFrame :=
  high <- where_eq df "calorie_category" "High" ;;
  r <- col_floats high "sugar_to_carb_ratio" ;;
  Ok (pd_DataFrame [[("avg_ratio", PFloat (mean r))]]).

Definition q17 (df : DataFrame) : result DataFrame :=
  m1 <- eq_mask df "calorie_category" "High" ;;
  m2 <- eq_mask df "sugar_category" "High" ;;
  Ok (filter_rows df (zip_with andb m1 m2)).

Definition q18 (df : DataFrame) : result DataFrame :=
  where_eq df "is_ultra_processed" "Yes".

Definition q19 (df : DataFrame) : result DataFrame :=
  where_gt df "sugar_to_carb_ratio" (float_of_decimal false 7 (-1)).

Definition q20 (df : DataFrame) : result DataFrame :=
  groupby_mean df "calorie_category" "sugar_to_carb_ratio" "sugar_to_carb_ratio".

Definition q21 (df : DataFrame) : result DataFrame :=
  high <- where_eq df "calorie_category" "High" ;;
  b <- getcol high "brand" ;;
  Ok (two_cols "brand" "count" (firstn 5 (value_counts b))).

Definition q22 (df : DataFrame) : result DataFrame :=
  groupby_mean df "calorie_category" "energy-kcal_value" "energy-kcal_value".

Definition q23 (df : DataFrame) : result DataFrame :=
  ultra <- where_eq df "is_ultra_processed" "Yes" ;;
  b <- getcol ultra "brand" ;;
  Ok (two_cols "brand" "count" (value_counts b)).

Definition q24 (df : DataFrame) : result DataFrame :=
  m1 <- eq_mask df "sugar_category" "High" ;;
  m2 <- eq_mask df "calorie_category" "High" ;;
  select (filter_rows df (zip_with andb m1 m2))
         ["brand"; "sugars_value"; "energy-kcal_value"].

Definition q25 (df : DataFrame) : result DataFrame :=
  ultra <- where_eq df "is_ultra_processed" "Yes" ;;
  groupby_mean ultra "brand" "sugars_value" "sugars_value".

Definition q26 (df : DataFrame) : result DataFrame :=
  groupby_mean df "calorie_category" fvn fvn.

Definition q27 (df : DataFrame) : result DataFrame :=
  top <- nlargest 5 "sugar_to_carb_ratio" df ;;
  select top ["product_code"; "brand"; "product_name"; "sugar_to_carb_ratio";
              "calorie_category"; "sugar_category"].

(** The report, as the sequence of its [w(name, frame)] statements. *)
Definition queries : list (string * (DataFrame -> result DataFrame)) :=
  [ ("q01_products_per_brand", q01);
    ("q02_unique_products_per_brand", q02);
    ("q03_top5_brands_by_count", q03);
    ("q04_missing_product_name", q04);
    ("q05_unique_brands_count", q05);
    ("q06_codes_starting_3", q06);
    ("q07_top10_energy_kcal", q07);
    ("q08_avg_sugar_by_nova", q08);
    ("q09_fat_gt20", q09);
    ("q10_avg_carbs_per_product", q10);
    ("q11_sodium_gt1g", q11);
    ("q12_fvn_nonzero", q12);
    ("q13_energy_gt500", q13);
    ("q14_count_per_calorie_category", q14);
    ("q15_high_sugar", q15);
    ("q16_avg_ratio_high_calorie", q16);
    ("q17_high_cal_high_sugar", q17);
    ("q18_ultra_processed", q18);
    ("q19_ratio_gt0_7", q19);
    ("q20_avg_ratio_by_calorie_category", q20);
    ("q21_top5_brands_high_cal", q21);
    ("q22_avg_kcal_by_calorie_category", q22);
    ("q23_ultra_count_per_brand", q23);
    ("q24_high_sugar_high_cal_brand", q24);
    ("q25_avg_sugar_ultra_by_brand", q25);
    ("q26_avg_fvn_by_calorie_category", q26);
    ("q27_top5_by_ratio", q27) ].

(** The files written under [out/], in the order they were written. *)
Definition outdir : Type := list (string * DataFrame).

(** [def w(name,frame): frame.to_csv(f"out/{name}.csv",index=False)] *)
Definition w (name : string) (frame : DataFrame) (out : outdir) : outdir :=
  (out ++ [(name, frame)])%list.

(** What a run of [step_analytics] leaves behind: the table [df] it was
    given, which it updates in place, the files written, and whether it
    returned or raised. *)
Record AnalyticsRun : Type := mkRun {
  df_after : DataFrame;
  out_files : outdir;
  outcome : result unit
}.

(** The statements [w(name, query)] one after the other: the argument is
    evaluated, then written; an exception leaves the function. *)
Fixpoint run_queries (qs : list (string * (DataFrame -> result DataFrame)))
    (df : DataFrame) (out : outdir) : outdir * result unit :=
  match qs with
  | [] => (out, Ok tt)
  | (name, q) :: qs' =>
      match q df with
      | Ok frame => run_queries qs' df (w name frame out)
      | Raise e => (out, Raise e)
      end
  end.

(** [df[name].fillna(v)] *)
Definition fillna (v : scalar) (s : list scalar) : list scalar :=
  map (fun c => if isna c then v else c) s.

(** The two assignments that open [step_analytics]:
    <<
    df["brand"]=df["brand"].fillna("Unknown")
    df["sugartocarbratio"]=df["sugar_to_carb_ratio"]
    >> *)
Definition prepare (df : DataFrame) : DataFrame * result unit :=
  match getcol df "brand" with
  | Raise e => (df, Raise e)
  | Ok b =>
      let df1 := setcol df "brand" (fillna (PStr "Unknown") b) in
      match getcol df1 "sugar_to_carb_ratio" with
      | Raise e => (df1, Raise e)
      | Ok r => (setcol df1 "sugartocarbratio" r, Ok tt)
      end
  end.

(** [step_analytics(df)] *)
Definition step_analytics (df : DataFrame) : AnalyticsRun :=
  match prepare df with
  | (df', Raise e) => mkRun df' [] (Raise e)
  | (df', Ok _) =>
      let '(out, r) := run_queries queries df' [] in
      mkRun df' out r
  end.

(** ** The pipeline after the fetch *)



(** ** Definitions used to state the properties *)

(** The text of [s] before its first comma; all of [s] when it has none. *)
Fixpoint first_segment (s : string) : string :=
  match s with
  | EmptyString => EmptyString
  | String c s' =>
      if Ascii.eqb c "," then EmptyString else String c (first_segment s')
  end.

(** The file written under a name, if any. *)
Fixpoint lookup_file (name : string) (out : outdir) : option DataFrame :=
  match out with
  | [] => None
  | (n, f) :: out' => if String.eqb n name then Some f else lookup_file name out'
  end.

(** Every row has one cell per column. *)
Definition wf_frame (df : DataFrame) : Prop :=
  Forall (fun r => List.length r = List.length (columns df)) (rows df).

(** The columns of the identity table, of the nutrient table, and of the
    engineered table, in order. *)
Definition identity_columns : list string :=
  ["product_code"; "product_name"; "brand"].

Definition nutrient_columns : list string :=
  ["energy-kcal_value"; "energy-kj_value"; "carbohydrates_value";
   "sugars_value"; "fat_value"; "saturated-fat_value"; "proteins_value";
   "fiber_value"; "salt_value"; "sodium_value";
   "fruits-vegetables-nuts-estimate-from-ingredients_100g";
   "nutrition-score-fr"; "nova-group"].

Definition merged_columns : list string :=
  (identity_columns ++ nutrient_columns)%list.

Definition engineered_columns : list string :=
  (merged_columns ++
   ["sugar_to_carb_ratio"; "calorie_category"; "sugar_category";
    "is_ultra_processed"])%list.



(** *** Sample inputs *)

(** Three records: a bar with its nutrient values, a second record of the
    same code, and a product whose name and brand are spelled "N/A" and
    "n/a". *)
Definition sample_raw : list RawRecord :=
  [ mkRaw (Some "3017620422003") (Some "Dark 70") (Some "Lindt, Inc")
      (Some [ ("energy-kcal_100g", PInt 310);
              ("sugars_100g", PStr "20 g");
              ("carbohydrates_100g", PInt 25);
              ("fat_100g", PStr "30.5");
              ("nova-group", PInt 4) ]);
    mkRaw (Some "3017620422003") (Some "Dark 70 (new)") (Some "Other") None;
    mkRaw (Some "40084107") (Some "N/A") (Some "n/a")
      (Some [ ("energy-kcal_100g", PInt 100) ]) ].

(** The engineered table of the sample. *)
Definition sample_engineered : DataFrame :=
  Eval vm_compute in
    match files <- step_clean_transform sample_raw ;;
          step_feature_engineer files with
    | Ok df => df
    | Raise _ => mkDataFrame [] []
    end.

(** Two records whose codes differ by leading zeros only. *)
Definition leading_zero_raw : list RawRecord :=
  [ mkRaw (Some "000123") (Some "Dark") (Some "Lindt, Inc")
      (Some [ ("energy-kcal_100g", PInt 310) ]);
    mkRaw (Some "123") (Some "Milk") (Some "Other")
      (Some [ ("energy-kcal_100g", PInt 550) ]) ].

(** [df.drop(columns=[name])] *)
Definition drop_column (name : string) (df : DataFrame) : DataFrame :=
  match index_of name (columns df) with
  | Some i => mkDataFrame (remove_nth i (columns df))
                          (map (remove_nth i) (rows df))
  | None => df
  end.

(** The sample after an upstream change of schema: no [fat_value]. *)
Definition sample_without_fat : DataFrame :=
  Eval vm_compute in drop_column "fat_value" sample_engineered.

(** The files that the report step writes for [sample_without_fat]. *)
Definition sample_files_without_fat : outdir :=
  Eval vm_compute in
    fst (run_queries (firstn 8 queries) (fst (prepare sample_without_fat)) []).

(** [files] are the tables of the queries [qs] on [df], each under the
    name of its query. *)
Definition outputs_of (qs : list (string * (DataFrame -> result DataFrame)))
    (df : DataFrame) (files : outdir) : Prop :=
  Forall2 (fun nq f => fst f = fst nq /\ snd nq df = Ok (snd f)) qs files.


(** The table has the column. *)
Definition has (df : DataFrame) (name : string) : Prop :=
  exists c, getcol df name = Ok c.

(** [df'] is [df] after assignments to columns of [touched] only. *)
Definition assigned (touched : list string) (df df' : DataFrame) : Prop :=
  wf_frame df' /\
  List.length (rows df') = List.length (rows df) /\
  (forall n, ~ In n touched -> getcol df' n = getcol df n) /\
  (forall n, has df n -> has df' n).

(** The columns that feature engineering assigns. *)
Definition derived_names : list string :=
  ["sugars_value"; "carbohydrates_value"; "energy-kcal_value"; "nova-group";
   "sugar_to_carb_ratio"; "calorie_category"; "sugar_category";
   "is_ultra_processed"].

(** A text made of whitespace only; a text without whitespace. *)
Fixpoint all_space (s : string) : bool :=
  match s with
  | EmptyString => true
  | String c s' => is_space c && all_space s'
  end.

Fixpoint no_space (s : string) : bool :=
  match s with
  | EmptyString => true
  | String c s' => negb (is_space c) && no_space s'
  end.

(** The decimal [d * 10^x] and the binary [m * 2^e] denote the same
    number (the equation is cross-multiplied by the denominators). *)
Definition same_number (d x : Z) (m : positive) (e : Z) : Prop :=
  d * 10 ^ Z.max x 0 * 2 ^ Z.max (- e) 0
  = Zpos m * 2 ^ Z.max e 0 * 10 ^ Z.max (- x) 0.

(** A float with its sign replaced. *)
Definition with_sign (neg : bool) (f : float) : float :=
  match f with
  | S754_zero _ => S754_zero neg
  | S754_infinity _ => S754_infinity neg
  | S754_finite _ m e => S754_finite neg m e
  | S754_nan => S754_nan
  end.

(** A text at which a digit part ends: it starts neither with a digit nor
    with an underscore. *)
Definition stops (s : string) : bool :=
  match s with
  | EmptyString => true
  | String c _ => negb (is_digit c) && negb (Ascii.eqb c "_")
  end.

(** A text of ASCII characters only: the range on which the string
    operations above are those of Python. *)
Fixpoint is_ascii (s : string) : bool :=
  match s with
  | EmptyString => true
  | String c s' => (code_of c <? 128) && is_ascii s'
  end.

(** A text without a comma. *)
Fixpoint no_comma (s : string) : bool :=
  match s with
  | EmptyString => true
  | String c s' => negb (Ascii.eqb c ",") && no_comma s'
  end.






(** The first of [names] that is not a column of the table. *)
Definition first_missing (df : DataFrame) (names : list string)
  : option string :=
  find (fun n => match index_of n (columns df) with
                 | Some _ => false
                 | None => true
                 end) names.

(** ** The raw file, line by line *)

(** What [json.loads] makes of a line that it accepts: an object, of which
    the fields that the pipeline reads are kept, or a value of another
    kind (a list, a string, a number, a boolean, null). *)
Inductive json : Type :=
| JObject : RawRecord -> json
| JOther : json.

(** [read_jsonl(path)], from the lines of the file; [loads] is
    [json.loads], which raises on a text that is not JSON.
    <<
    for line in f:
        s=line.strip()
        if s:
            try: yield json.loads(s)
            except: continue
    >> *)
Definition read_jsonl {A : Type} (loads : string -> result A)
    (lines : list string) : list A :=
  flat_map (fun line =>
              let s := strip line in
              if truthy (PStr s) then
                match loads s with
                | Ok v => [v]
                | Raise _ => []
                end
              else []) lines.

(** [p.get(...)] on a value read from the file: only an object has the
    method. *)
Definition as_object (v : json) : result RawRecord :=
  match v with
  | JObject p => Ok p
  | JOther => Raise AttributeError
  end.

(** [step_clean_transform()] from the lines of the raw file: the loop
    over [read_jsonl(RAW_JSONL)] builds the rows in memory, and the tables
    are written after it. *)
Definition step_clean_transform_file (loads : string -> result json)
    (lines : list string) : result CleanFiles :=
  raw <- mapM as_object (read_jsonl loads lines) ;;
  step_clean_transform raw.





(* ================================================================= *)
(** * Part II: properties *)
(* ================================================================= *)

(** ** The constants of the thresholds *)

Lemma float_of_Z_0 : float_of_Z 0 = S754_zero false.
Proof. reflexivity. Qed.

Lemma float_of_Z_1 : float_of_Z 1 = S754_finite false 4503599627370496 (-52).
Proof. vm_compute. reflexivity. Qed.

Lemma float_of_Z_150 :
  float_of_Z 150 = S754_finite false 5277655813324800 (-45).
Proof. vm_compute. reflexivity. Qed.

Lemma float_of_Z_300 :
  float_of_Z 300 = S754_finite false 5277655813324800 (-44).
Proof. vm_compute. reflexivity. Qed.

(** ** Order of floats *)

(** Swapping the operands of a comparison reverses its outcome. *)
Lemma SFcompare_swap (a b : float) :
  SFcompare b a = option_map CompOpp (SFcompare a b).
Proof.
  destruct a as [s | s | | s m e], b as [t | t | | t n f]; simpl;
    try reflexivity;
    try (destruct s; reflexivity);
    try (destruct t; reflexivity);
    try (destruct s, t; reflexivity).
  destruct s, t; simpl; try reflexivity;
    rewrite (Z.compare_antisym e f);
    destruct (e ?= f) eqn:E; simpl; try reflexivity;
    rewrite (Pos.compare_cont_antisym m n Eq); simpl;
    destruct (Pos.compare_cont Eq m n); reflexivity.
Qed.

Lemma flt_not_fle (a b : float) : flt a b = true -> fle b a = false.
Proof.
  unfold flt, fle, SFltb, SFleb. rewrite (SFcompare_swap a b).
  destruct (SFcompare a b) as [[ | | ] | ]; simpl; congruence.
Qed.

Lemma fle_not_flt (a b : float) : fle a b = true -> flt b a = false.
Proof.
  unfold flt, fle, SFltb, SFleb. rewrite (SFcompare_swap a b).
  destruct (SFcompare a b) as [[ | | ] | ]; simpl; congruence.
Qed.

(** Two numbers, neither of them NaN, are ordered one way or the other. *)
Lemma not_fle_flt (a b : float) :
  isnan a = false -> isnan b = false -> fle a b = false -> flt b a = true.
Proof.
  unfold flt, fle, SFltb, SFleb. rewrite (SFcompare_swap a b).
  destruct a, b; simpl; try discriminate; intros _ _;
    match goal with
    | |- context [match ?c with _ => _ end] => destruct c; simpl; congruence
    | _ => congruence
    end.
Qed.

Lemma fle_150_300 (k : float) :
  fle k (float_of_Z 150) = true -> fle k (float_of_Z 300) = true.
Proof.
  rewrite float_of_Z_150, float_of_Z_300. unfold fle, SFleb.
  destruct k as [s | s | | s m e]; cbv beta iota delta [SFcompare];
    try (destruct s; congruence); try congruence.
  destruct s; try congruence.
  destruct (Z.compare_spec e (-45)), (Z.compare_spec e (-44));
    try lia; try congruence.
Qed.

(** ** Calorie category *)

(** C6.  [cat_cal] sends every energy value to exactly one of the four
    buckets: "Unknown" exactly when the value is null (NaN), "Low" exactly
    when it is at most 150, "Moderate" exactly when it is above 150 and at
    most 300, "High" exactly when it is above 300. *)
Theorem cat_cal_buckets (k : float) :
  (cat_cal k = "Unknown" <-> isnan k = true) /\
  (cat_cal k = "Low" <-> fle k (float_of_Z 150) = true) /\
  (cat_cal k = "Moderate" <->
     flt (float_of_Z 150) k = true /\ fle k (float_of_Z 300) = true) /\
  (cat_cal k = "High" <-> flt (float_of_Z 300) k = true) /\
  (cat_cal k = "Unknown" \/ cat_cal k = "Low" \/
   cat_cal k = "Moderate" \/ cat_cal k = "High").
Proof.
  unfold cat_cal.
  destruct (isnan k) eqn:N.
  - destruct k; try discriminate.
    repeat split; intros; try discriminate; try reflexivity; try tauto.
    destruct H; discriminate.
  - assert (N150 : isnan (float_of_Z 150) = false)
      by (rewrite float_of_Z_150; reflexivity).
    assert (N300 : isnan (float_of_Z 300) = false)
      by (rewrite float_of_Z_300; reflexivity).
    destruct (fle k (float_of_Z 150)) eqn:L.
    + pose proof (fle_150_300 k L) as M.
      pose proof (fle_not_flt _ _ L) as L'.
      pose proof (fle_not_flt _ _ M) as M'.
      repeat split; intros; try discriminate; try reflexivity; try tauto;
        try congruence.
      destruct H; congruence.
    + pose proof (not_fle_flt _ _ N N150 L) as L'.
      destruct (fle k (float_of_Z 300)) eqn:M.
      * pose proof (fle_not_flt _ _ M) as M'.
        repeat split; intros; try discriminate; try reflexivity; try tauto;
          try congruence.
      * pose proof (not_fle_flt _ _ N N300 M) as M'.
        repeat split; intros; try discriminate; try reflexivity; try tauto;
          try congruence.
        destruct H; congruence.
Qed.

(** The boundaries themselves: 150 is "Low", 300 is "Moderate", and the
    row of the specification's third scenario (energy 310) is "High". *)
Example cat_cal_at_boundaries :
  cat_cal (float_of_Z 150) = "Low" /\
  cat_cal (float_of_decimal false 15001 (-2)) = "Moderate" /\
  cat_cal (float_of_Z 300) = "Moderate" /\
  cat_cal (float_of_decimal false 30001 (-2)) = "High" /\
  cat_cal (float_of_Z 310) = "High" /\
  cat_cal (float_of_Z (-5)) = "Low" /\
  cat_cal (inf false) = "High" /\
  cat_cal nan = "Unknown".
Proof. vm_compute. repeat split. Qed.

(** ** Sugar-to-carbohydrate ratio *)

(** The order of floats is transitive. *)
Lemma flt_fle_trans (a b c : float) :
  flt a b = true -> fle b c = true -> flt a c = true.
Proof.
  unfold fle, flt, SFleb, SFltb.
  destruct a as [s | s | | s m e], b as [t | t | | t n f],
    c as [u | u | | u p g]; cbv beta iota delta [SFcompare];
    try discriminate;
    try (destruct s; discriminate);
    try (destruct t; discriminate);
    try (destruct u; discriminate);
    try (destruct s, t; try discriminate; reflexivity);
    try (destruct s, u; try discriminate; reflexivity);
    try (destruct t, u; try discriminate; reflexivity);
    try (destruct s, t, u; try discriminate; reflexivity).
  destruct s, t, u; try discriminate; try reflexivity;
    destruct (Z.compare_spec e f), (Z.compare_spec f g),
      (Z.compare_spec e g); try lia; try discriminate; try reflexivity;
    subst; rewrite ?Pos.compare_cont_spec; simpl;
    destruct (Pos.compare_spec m n), (Pos.compare_spec n p),
      (Pos.compare_spec m p); simpl; try lia; try discriminate;
      try reflexivity.
Qed.

Lemma flt_fle (a b : float) : flt a b = true -> fle a b = true.
Proof.
  unfold flt, fle, SFltb, SFleb.
  destruct (SFcompare a b) as [[ | | ] | ]; congruence.
Qed.

(** What clamping does to a number, by cases. *)
Lemma np_clip_cases (x lo hi : float) :
  fle lo hi = true ->
  (isnan x = true -> np_clip x lo hi = x) /\
  (flt x lo = true -> np_clip x lo hi = lo) /\
  (flt hi x = true -> np_clip x lo hi = hi) /\
  (fle lo x = true -> fle x hi = true -> np_clip x lo hi = x).
Proof.
  intros LH. unfold np_clip. repeat split.
  - intros N. rewrite N. reflexivity.
  - intros L. rewrite (flt_not_fle _ _ L).
    destruct (isnan x) eqn:N; [ | reflexivity].
    destruct x; try discriminate N. discriminate L.
  - intros H. rewrite (flt_not_fle _ _ H).
    destruct (isnan x) eqn:N.
    { destruct x; try discriminate N. destruct hi; discriminate H. }
    destruct (fle lo x) eqn:L; simpl; [reflexivity | ].
    exfalso.
    assert (Nlo : isnan lo = false) by (destruct lo; try reflexivity; discriminate LH).
    pose proof (not_fle_flt _ _ Nlo N L) as L'.
    pose proof (flt_fle_trans _ _ _ L' LH) as T.
    pose proof (flt_not_fle _ _ H) as H'.
    apply flt_fle in T. congruence.
  - intros L H. rewrite L, H.
    destruct (isnan x); reflexivity.
Qed.



(** The third scenario of the specification (sugars 20, carbohydrates 25
    give 0.8), and rows outside the plain case. *)
Example sugar_to_carb_ratio_examples :
  sugar_to_carb_ratio (float_of_Z 20) (float_of_Z 25)
    = float_of_decimal false 8 (-1) /\
  sugar_to_carb_ratio (float_of_Z 30) (float_of_Z 25) = float_of_Z 1 /\
  sugar_to_carb_ratio (float_of_Z (-3)) (float_of_Z 25) = float_of_Z 0 /\
  sugar_to_carb_ratio (float_of_Z 20) (float_of_Z 0) = nan /\
  sugar_to_carb_ratio (float_of_Z 20) (float_of_Z (-4)) = nan /\
  sugar_to_carb_ratio nan (float_of_Z 25) = nan /\
  sugar_to_carb_ratio (float_of_Z 20) nan = nan /\
  sugar_to_carb_ratio (inf false) (inf false) = nan.
Proof. vm_compute. repeat split. Qed.


(** ** Numeric parsing *)

Lemma string_append_assoc (a b c : string) :
  ((a ++ b) ++ c = a ++ (b ++ c))%string.
Proof. induction a as [ | x a IH]; simpl; congruence. Qed.

Lemma string_append_nil_r (a : string) : (a ++ "" = a)%string.
Proof. induction a as [ | x a IH]; simpl; congruence. Qed.

Lemma rev_string_append (acc s : string) :
  rev_string acc s = (rev_string EmptyString s ++ acc)%string.
Proof.
  revert acc. induction s as [ | c s IH]; intros acc; simpl.
  - reflexivity.
  - rewrite IH, (IH (String c EmptyString)).
    rewrite string_append_assoc. reflexivity.
Qed.

Lemma rev_string_app (a b : string) :
  rev_string EmptyString (a ++ b)%string
  = (rev_string EmptyString b ++ rev_string EmptyString a)%string.
Proof.
  induction a as [ | x a IH]; simpl.
  - rewrite string_append_nil_r. reflexivity.
  - rewrite (rev_string_append (String x EmptyString) (a ++ b)%string).
    rewrite IH, (rev_string_append (String x EmptyString) a).
    rewrite string_append_assoc. reflexivity.
Qed.

Lemma rev_string_involutive (s : string) :
  rev_string EmptyString (rev_string EmptyString s) = s.
Proof.
  induction s as [ | c s IH]; simpl.
  - reflexivity.
  - rewrite (rev_string_append (String c EmptyString) s).
    rewrite rev_string_app, IH. reflexivity.
Qed.

(** Reading a run of non-whitespace characters accumulates it. *)
Lemma split_ws_aux_token (tok cur rest : string) :
  no_space tok = true ->
  split_ws_aux cur (tok ++ rest)%string
  = split_ws_aux (rev_string cur tok) rest.
Proof.
  revert cur. induction tok as [ | c tok IH]; intros cur N; simpl in *.
  - reflexivity.
  - apply andb_prop in N. destruct N as [C N].
    apply negb_true_iff in C. rewrite C. apply IH. exact N.
Qed.

(** [split()] skips leading whitespace and returns, first, the run of
    characters up to the next whitespace or the end of the text. *)
Lemma split_ws_first_token (ws tok rest : string) :
  all_space ws = true ->
  no_space tok = true ->
  tok <> EmptyString ->
  (rest = EmptyString \/ exists c r, rest = String c r /\ is_space c = true) ->
  exists more, split_ws (ws ++ tok ++ rest)%string = tok :: more.
Proof.
  intros W N NE R. unfold split_ws.
  induction ws as [ | c ws IH]; simpl in *.
  - rewrite (split_ws_aux_token tok EmptyString rest N).
    assert (F : forall k, flush (rev_string EmptyString tok) k = tok :: k).
    { intros k. unfold flush.
      destruct (rev_string EmptyString tok) eqn:E.
      - exfalso. apply NE. rewrite <- (rev_string_involutive tok), E.
        reflexivity.
      - rewrite <- E, rev_string_involutive. reflexivity. }
    destruct R as [-> | (c & r & -> & C)]; simpl.
    + exists []. apply F.
    + rewrite C. eexists. apply F.
  - apply andb_prop in W. destruct W as [C W]. rewrite C. simpl.
    apply IH. exact W.
Qed.


Lemma to_float_ok (x : scalar) : exists v, to_float x = Ok v.
Proof.
  unfold to_float.
  destruct (split_ws (py_str x)) as [ | tok rest]; simpl.
  - exists nan. reflexivity.
  - destruct (py_float tok) as [v | e]; simpl; eexists; reflexivity.
Qed.


(** ** Brand normalisation *)

Lemma split_on_first_segment (s : string) :
  exists more, split_on "," s = first_segment s :: more.
Proof.
  induction s as [ | c s [more IH]]; simpl.
  - exists []. reflexivity.
  - destruct (Ascii.eqb c ","); [eexists; reflexivity | ].
    rewrite IH. exists more. reflexivity.
Qed.



(** The brands of the specification's fifth scenario, an absent and an
    empty brand. *)
Example normalize_brand_examples :
  normalize_brand (PStr "Lindt, Inc") = Ok "Lindt" /\
  normalize_brand (PStr "Other") = Ok "Other" /\
  normalize_brand (PStr "  ferrero rocher ,IT") = Ok "Ferrero Rocher" /\
  normalize_brand (opt_str None) = Ok "Unknown" /\
  normalize_brand (PStr "") = Ok "Unknown".
Proof. vm_compute. repeat split. Qed.


(** ** Columns of a table *)

Lemma index_of_lt (name : string) (cols : list string) (i : nat) :
  index_of name cols = Some i -> (i < List.length cols)%nat.
Proof.
  revert i. induction cols as [ | c cols IH]; intros i; simpl.
  - discriminate.
  - destruct (String.eqb c name).
    + intros [= <-]. lia.
    + destruct (index_of name cols) as [j | ]; simpl; [ | discriminate].
      intros [= <-]. specialize (IH j eq_refl). lia.
Qed.

Lemma index_of_inj (a b : string) (cols : list string) (i : nat) :
  index_of a cols = Some i -> index_of b cols = Some i -> a = b.
Proof.
  revert i. induction cols as [ | c cols IH]; intros i; simpl.
  - discriminate.
  - destruct (String.eqb_spec c a) as [Ea | NA];
      destruct (String.eqb_spec c b) as [Eb | NB].
    + congruence.
    + intros [= <-]. destruct (index_of b cols); discriminate.
    + destruct (index_of a cols); simpl; [ | discriminate].
      intros [= <-]. discriminate.
    + destruct (index_of a cols) as [j | ]; simpl; [ | discriminate].
      destruct (index_of b cols) as [k | ]; simpl; [ | discriminate].
      intros [= <-] [= ->]. apply (IH j); reflexivity.
Qed.


Lemma index_of_app_r (name : string) (cols : list string) :
  index_of name cols = None ->
  index_of name (cols ++ [name])%list = Some (List.length cols).
Proof.
  induction cols as [ | c cols IH]; simpl.
  - rewrite String.eqb_refl. reflexivity.
  - destruct (String.eqb c name); [discriminate | ].
    destruct (index_of name cols); simpl; [discriminate | ].
    intros _. rewrite IH; reflexivity.
Qed.

Lemma index_of_app_l (name : string) (cols more : list string) (i : nat) :
  index_of name cols = Some i -> index_of name (cols ++ more)%list = Some i.
Proof.
  revert i. induction cols as [ | c cols IH]; intros i; simpl.
  - discriminate.
  - destruct (String.eqb c name); [trivial | ].
    destruct (index_of name cols) as [j | ]; simpl; [ | discriminate].
    intros [= <-]. rewrite (IH j eq_refl). reflexivity.
Qed.

Lemma index_of_app_other (name other : string) (cols : list string) :
  name <> other ->
  index_of name (cols ++ [other])%list = index_of name cols.
Proof.
  intros NE. induction cols as [ | c cols IH]; simpl.
  - destruct (String.eqb_spec other name); [congruence | reflexivity].
  - destruct (String.eqb c name); [reflexivity | ]. rewrite IH. reflexivity.
Qed.

(** ** Cells of a row *)

Lemma cell_at_replace_other (i j : nat) (v : scalar) (r : list scalar) :
  i <> j -> cell_at j (replace_nth i v r) = cell_at j r.
Proof.
  unfold cell_at. revert i j.
  induction r as [ | c r IH]; intros i j NE; simpl.
  - reflexivity.
  - destruct i, j; simpl; try reflexivity; try congruence.
    apply IH. congruence.
Qed.

Lemma cell_at_replace_same (i : nat) (v : scalar) (r : list scalar) :
  (i < List.length r)%nat -> cell_at i (replace_nth i v r) = v.
Proof.
  unfold cell_at. revert i.
  induction r as [ | c r IH]; intros i L; simpl in *.
  - lia.
  - destruct i; simpl; [reflexivity | ]. apply IH. lia.
Qed.

Lemma length_replace_nth (i : nat) (v : scalar) (r : list scalar) :
  List.length (replace_nth i v r) = List.length r.
Proof.
  revert i. induction r as [ | c r IH]; intros i; simpl.
  - reflexivity.
  - destruct i; simpl; [reflexivity | ]. rewrite IH. reflexivity.
Qed.

Lemma cell_at_app_l (j : nat) (r more : list scalar) :
  (j < List.length r)%nat -> cell_at j (r ++ more)%list = cell_at j r.
Proof. intros L. unfold cell_at. apply app_nth1. exact L. Qed.

Lemma cell_at_app_last (r : list scalar) (v : scalar) :
  cell_at (List.length r) (r ++ [v])%list = v.
Proof.
  unfold cell_at. rewrite app_nth2 by lia.
  rewrite Nat.sub_diag. reflexivity.
Qed.

(** ** Assigning a column *)

Lemma length_zip_with {A B C : Type} (f : A -> B -> C) (l : list A)
    (m : list B) :
  List.length l = List.length m ->
  List.length (zip_with f l m) = List.length l.
Proof.
  revert m. induction l as [ | a l IH]; intros [ | b m]; simpl;
    try discriminate; try reflexivity.
  intros [= E]. rewrite (IH m E). reflexivity.
Qed.

Lemma map_zip_with {A B C D : Type} (g : C -> D) (f : A -> B -> C)
    (l : list A) (m : list B) :
  map g (zip_with f l m) = zip_with (fun a b => g (f a b)) l m.
Proof.
  revert m. induction l as [ | a l IH]; intros [ | b m]; simpl;
    try reflexivity.
  rewrite IH. reflexivity.
Qed.

Lemma zip_with_fst {A B C : Type} (g : A -> C) (l : list A) (m : list B) :
  List.length l = List.length m ->
  zip_with (fun a _ => g a) l m = map g l.
Proof.
  revert m. induction l as [ | a l IH]; intros [ | b m]; simpl;
    try discriminate; try reflexivity.
  intros [= E]. rewrite (IH m E). reflexivity.
Qed.

Lemma zip_with_snd {A B : Type} (l : list A) (m : list B) :
  List.length l = List.length m ->
  zip_with (fun _ b => b) l m = m.
Proof.
  revert m. induction l as [ | a l IH]; intros [ | b m]; simpl;
    try discriminate; try reflexivity.
  intros [= E]. rewrite (IH m E). reflexivity.
Qed.

Lemma zip_with_ext_in {A B C : Type} (f g : A -> B -> C) (l : list A)
    (m : list B) :
  (forall a, In a l -> forall b, f a b = g a b) ->
  zip_with f l m = zip_with g l m.
Proof.
  revert m. induction l as [ | a l IH]; intros [ | b m] E; simpl;
    try reflexivity.
  rewrite (E a (or_introl eq_refl) b), IH; [reflexivity | ].
  intros a' I. apply E. right. exact I.
Qed.

Lemma getcol_length (df : DataFrame) (name : string) (c : list scalar) :
  getcol df name = Ok c -> List.length c = List.length (rows df).
Proof.
  unfold getcol, col_pos.
  destruct (index_of name (columns df)); simpl; [ | discriminate].
  intros [= <-]. apply length_map.
Qed.

Lemma getcol_index (df : DataFrame) (name : string) (i : nat) :
  index_of name (columns df) = Some i ->
  getcol df name = Ok (map (cell_at i) (rows df)).
Proof. intros E. unfold getcol, col_pos. rewrite E. reflexivity. Qed.

Lemma getcol_absent (df : DataFrame) (name : string) :
  index_of name (columns df) = None -> getcol df name = Raise (KeyError name).
Proof. intros E. unfold getcol, col_pos. rewrite E. reflexivity. Qed.

Lemma wf_setcol (df : DataFrame) (name : string) (vals : list scalar) :
  wf_frame df -> wf_frame (setcol df name vals).
Proof.
  unfold wf_frame, setcol. intros W.
  destruct (index_of name (columns df)) as [i | ]; simpl.
  - revert vals. induction W as [ | r rs L W IH]; intros [ | v vals]; simpl;
      constructor; [rewrite length_replace_nth; exact L | apply IH].
  - revert vals. induction W as [ | r rs L W IH]; intros [ | v vals]; simpl;
      constructor; [ | apply IH].
    rewrite !length_app. simpl. rewrite L. reflexivity.
Qed.

Lemma length_rows_setcol (df : DataFrame) (name : string)
    (vals : list scalar) :
  List.length vals = List.length (rows df) ->
  List.length (rows (setcol df name vals)) = List.length (rows df).
Proof.
  intros L. unfold setcol.
  destruct (index_of name (columns df)); simpl;
    apply length_zip_with; symmetry; exact L.
Qed.

(** Reading the column that was just assigned gives the assigned values. *)
Lemma getcol_setcol_same (df : DataFrame) (name : string)
    (vals : list scalar) :
  wf_frame df -> List.length vals = List.length (rows df) ->
  getcol (setcol df name vals) name = Ok vals.
Proof.
  intros W L. unfold setcol.
  destruct (index_of name (columns df)) as [i | ] eqn:E.
  - rewrite (getcol_index _ name i) by exact E. simpl. f_equal.
    rewrite map_zip_with.
    rewrite (zip_with_ext_in _ (fun _ v => v)).
    + apply zip_with_snd. symmetry. exact L.
    + intros r I v. apply cell_at_replace_same.
      unfold wf_frame in W. rewrite Forall_forall in W.
      rewrite (W r I). apply (index_of_lt name). exact E.
  - rewrite (getcol_index _ name (List.length (columns df)))
      by (apply index_of_app_r; exact E).
    simpl. f_equal. rewrite map_zip_with.
    rewrite (zip_with_ext_in _ (fun _ v => v)).
    + apply zip_with_snd. symmetry. exact L.
    + intros r I v.
      unfold wf_frame in W. rewrite Forall_forall in W.
      rewrite <- (W r I). apply cell_at_app_last.
Qed.

(** Assigning a column leaves every other column as it was. *)
Lemma getcol_setcol_other (df : DataFrame) (name other : string)
    (vals : list scalar) :
  wf_frame df -> List.length vals = List.length (rows df) ->
  other <> name ->
  getcol (setcol df name vals) other = getcol df other.
Proof.
  intros W L NE. unfold setcol.
  destruct (index_of name (columns df)) as [i | ] eqn:E.
  - destruct (index_of other (columns df)) as [j | ] eqn:F.
    + rewrite (getcol_index _ other j) by exact F.
      rewrite (getcol_index df other j) by exact F.
      simpl. f_equal. rewrite map_zip_with.
      rewrite (zip_with_ext_in _ (fun r _ => cell_at j r)).
      * apply zip_with_fst. symmetry. exact L.
      * intros r I v. apply cell_at_replace_other.
        intros <-. apply NE. apply (index_of_inj _ _ _ _ F E).
    + rewrite !getcol_absent by exact F. reflexivity.
  - destruct (index_of other (columns df)) as [j | ] eqn:F.
    + rewrite (getcol_index _ other j)
        by (simpl; apply index_of_app_l; exact F).
      rewrite (getcol_index df other j) by exact F.
      simpl. f_equal. rewrite map_zip_with.
      rewrite (zip_with_ext_in _ (fun r _ => cell_at j r)).
      * apply zip_with_fst. symmetry. exact L.
      * intros r I v. apply cell_at_app_l.
        unfold wf_frame in W. rewrite Forall_forall in W.
        rewrite (W r I). apply (index_of_lt other). exact F.
    + rewrite !getcol_absent; [reflexivity | exact F | ].
      simpl. rewrite index_of_app_other by exact NE. exact F.
Qed.

(** ** The report step and the table it is given *)

Lemma length_fillna (v : scalar) (s : list scalar) :
  List.length (fillna v s) = List.length s.
Proof. apply length_map. Qed.

(** The table after [step_analytics] is the table after its two opening
    assignments: no query touches it. *)
Lemma df_after_prepare (df : DataFrame) :
  df_after (step_analytics df) = fst (prepare df).
Proof.
  unfold step_analytics.
  destruct (prepare df) as [df' [[] | e]]; [ | reflexivity].
  destruct (run_queries queries df' []) as [out r]. reflexivity.
Qed.

Lemma prepare_ok (df : DataFrame) (b r : list scalar) :
  wf_frame df ->
  getcol df "brand" = Ok b ->
  getcol df "sugar_to_carb_ratio" = Ok r ->
  prepare df =
  (setcol (setcol df "brand" (fillna (PStr "Unknown") b)) "sugartocarbratio" r,
   Ok tt).
Proof.
  intros W B R. unfold prepare. rewrite B.
  rewrite getcol_setcol_other, R; try reflexivity; try assumption.
  - rewrite length_fillna. apply (getcol_length df "brand"). exact B.
  - discriminate.
Qed.

(** C2, as the code has it.  [step_analytics] changes the table it is
    given in two places before it runs the queries: the column [brand] is
    overwritten with its nulls replaced by "Unknown", and a column
    [sugartocarbratio], a copy of [sugar_to_carb_ratio], is added.  The
    27 queries are pure reads: the table after the step is the table after
    these two assignments, with every other column and the number of rows
    as the Feature Deriver left them. *)
Theorem step_analytics_table_after (df : DataFrame) (b r : list scalar) :
  wf_frame df ->
  getcol df "brand" = Ok b ->
  getcol df "sugar_to_carb_ratio" = Ok r ->
  df_after (step_analytics df)
  = setcol (setcol df "brand" (fillna (PStr "Unknown") b))
           "sugartocarbratio" r /\
  getcol (df_after (step_analytics df)) "brand"
  = Ok (fillna (PStr "Unknown") b) /\
  getcol (df_after (step_analytics df)) "sugartocarbratio" = Ok r /\
  (forall name, name <> "brand" -> name <> "sugartocarbratio" ->
     getcol (df_after (step_analytics df)) name = getcol df name) /\
  List.length (rows (df_after (step_analytics df))) = List.length (rows df).
Proof.
  intros W B R.
  pose proof (getcol_length _ _ _ B) as LB.
  pose proof (getcol_length _ _ _ R) as LR.
  assert (LF : List.length (fillna (PStr "Unknown") b)
               = List.length (rows df))
    by (rewrite length_fillna; exact LB).
  pose proof (wf_setcol df "brand" (fillna (PStr "Unknown") b) W) as W1.
  pose proof (length_rows_setcol df "brand" _ LF) as L1.
  assert (LR1 : List.length r
    = List.length (rows (setcol df "brand" (fillna (PStr "Unknown") b))))
    by (rewrite L1; exact LR).
  rewrite df_after_prepare, (prepare_ok df b r W B R). simpl.
  split; [reflexivity | ]. split; [ | split; [ | split]].
  - rewrite getcol_setcol_other; try assumption; [ | discriminate].
    apply getcol_setcol_same; assumption.
  - apply getcol_setcol_same; assumption.
  - intros name N1 N2.
    rewrite getcol_setcol_other; try assumption.
    apply getcol_setcol_other; assumption.
  - rewrite length_rows_setcol; assumption.
Qed.

Lemma wf_sample_engineered : wf_frame sample_engineered.
Proof. repeat constructor. Qed.

(** The theorem at the sample table. *)
Lemma step_analytics_table_after_sample :
  df_after (step_analytics sample_engineered)
  = setcol (setcol sample_engineered "brand"
              (fillna (PStr "Unknown") [PStr "Lindt"; PFloat nan]))
           "sugartocarbratio"
           [PFloat (float_of_decimal false 8 (-1)); PFloat nan] /\
  getcol (df_after (step_analytics sample_engineered)) "brand"
  = Ok (fillna (PStr "Unknown") [PStr "Lindt"; PFloat nan]) /\
  getcol (df_after (step_analytics sample_engineered)) "sugartocarbratio"
  = Ok [PFloat (float_of_decimal false 8 (-1)); PFloat nan] /\
  (forall name, name <> "brand" -> name <> "sugartocarbratio" ->
     getcol (df_after (step_analytics sample_engineered)) name
     = getcol sample_engineered name) /\
  List.length (rows (df_after (step_analytics sample_engineered)))
  = List.length (rows sample_engineered).
Proof.
  apply (step_analytics_table_after sample_engineered).
  - exact wf_sample_engineered.
  - vm_compute. reflexivity.
  - vm_compute. reflexivity.
Defined.

(** C2, as stated, fails: after the report step the sample table has one
    column more than the Feature Deriver produced, and the null brand of
    its second row has been overwritten. *)
Lemma step_analytics_changes_table :
  outcome (step_analytics sample_engineered) = Ok tt /\
  columns sample_engineered = engineered_columns /\
  columns (df_after (step_analytics sample_engineered))
  = (engineered_columns ++ ["sugartocarbratio"])%list /\
  getcol sample_engineered "brand" = Ok [PStr "Lindt"; PFloat nan] /\
  getcol (df_after (step_analytics sample_engineered)) "brand"
  = Ok [PStr "Lindt"; PStr "Unknown"].
Proof. vm_compute. repeat split. Qed.

(** ** The batch of queries *)

(** Queries that succeed are written one after the other, and the batch
    goes on with the rest. *)
Lemma run_queries_app (done rest : list (string * (DataFrame -> result DataFrame)))
    (df : DataFrame) (out files : outdir) :
  outputs_of done df files ->
  run_queries (done ++ rest)%list df out
  = run_queries rest df (out ++ files)%list.
Proof.
  intros O. revert out.
  induction O as [ | [n q] [n' f] done files [N Q] O IH]; intros out; simpl.
  - rewrite app_nil_r. reflexivity.
  - simpl in N, Q. subst n'. rewrite Q. unfold w.
    rewrite IH, <- app_assoc. reflexivity.
Qed.


Lemma lookup_file_absent (name : string) (out : outdir) :
  ~ In name (map fst out) -> lookup_file name out = None.
Proof.
  induction out as [ | [n f] out IH]; simpl; intros A.
  - reflexivity.
  - destruct (String.eqb_spec n name) as [-> | NE].
    + exfalso. apply A. left. reflexivity.
    + apply IH. intros I. apply A. right. exact I.
Qed.

Lemma outputs_of_names (qs : list (string * (DataFrame -> result DataFrame)))
    (df : DataFrame) (files : outdir) :
  outputs_of qs df files -> map fst files = map fst qs.
Proof.
  induction 1 as [ | nq f qs files [N _] O IH]; simpl.
  - reflexivity.
  - rewrite N, IH. reflexivity.
Qed.

Lemma queries_names_distinct : NoDup (map fst queries).
Proof.
  simpl. repeat constructor; simpl;
    intros I; repeat (destruct I as [I | I]; [discriminate I | ]); exact I.
Qed.

(** C1, as the code has it.  The queries run one after the other on the
    table left by the two opening assignments, and nothing catches an
    exception: when a query fails, the queries before it have been written,
    each with the output it has on that table, the exception leaves
    [step_analytics], and neither the failing query nor any query after it
    is written. *)
Theorem step_analytics_stops_at_failure (df df' : DataFrame)
    (done rest : list (string * (DataFrame -> result DataFrame)))
    (name : string) (q : DataFrame -> result DataFrame)
    (files : outdir) (e : exn) :
  prepare df = (df', Ok tt) ->
  queries = (done ++ (name, q) :: rest)%list ->
  outputs_of done df' files ->
  q df' = Raise e ->
  outcome (step_analytics df) = Raise e /\
  out_files (step_analytics df) = files /\
  lookup_file name (out_files (step_analytics df)) = None /\
  (forall nq, In nq rest ->
     lookup_file (fst nq) (out_files (step_analytics df)) = None).
Proof.
  intros P Q O F.
  assert (R : run_queries queries df' [] = (files, Raise e)).
  { rewrite Q, (run_queries_app done _ df' [] files O). simpl.
    rewrite F. reflexivity. }
  unfold step_analytics. rewrite P, R. simpl.
  pose proof queries_names_distinct as D.
  rewrite Q, map_app in D. simpl in D.
  rewrite <- (outputs_of_names _ _ _ O) in D.
  split; [reflexivity | ]. split; [reflexivity | ]. split.
  - apply lookup_file_absent. intros I.
    apply NoDup_remove_2 in D. apply D. apply in_or_app. left. exact I.
  - intros nq I. apply lookup_file_absent. intros J.
    apply NoDup_remove_1 in D.
    revert D J. generalize (map fst files). intros l D J.
    induction l as [ | x l IH]; simpl in *; [exact J | ].
    inversion D as [ | ? ? X D']; subst.
    destruct J as [-> | J]; [ | exact (IH D' J)].
    apply X. apply in_or_app. right. apply in_map. exact I.
Qed.

(** The theorem at the sample table without [fat_value]: the ninth query
    fails, eight files have been written. *)
Lemma step_analytics_stops_at_failure_sample :
  outcome (step_analytics sample_without_fat) = Raise (KeyError "fat_value") /\
  out_files (step_analytics sample_without_fat) = sample_files_without_fat /\
  lookup_file "q09_fat_gt20" (out_files (step_analytics sample_without_fat))
  = None /\
  (forall nq, In nq (skipn 9 queries) ->
     lookup_file (fst nq) (out_files (step_analytics sample_without_fat))
     = None).
Proof.
  apply (step_analytics_stops_at_failure sample_without_fat
           (fst (prepare sample_without_fat))
           (firstn 8 queries) (skipn 9 queries) "q09_fat_gt20" q09).
  - vm_compute. reflexivity.
  - reflexivity.
  - unfold outputs_of, sample_files_without_fat. simpl firstn.
    repeat (constructor; [split; [reflexivity | vm_compute; reflexivity] | ]).
    constructor.
  - vm_compute. reflexivity.
Defined.

(** C1, as stated, fails: on the sample table without [fat_value] the
    ninth query raises; the tenth and the last would succeed on that table,
    but the step has raised: only the first eight files exist, and nothing
    records the failure. *)
Lemma query_failure_aborts_batch :
  q09 (df_after (step_analytics sample_without_fat))
  = Raise (KeyError "fat_value") /\
  is_ok (q10 (df_after (step_analytics sample_without_fat))) = true /\
  is_ok (q27 (df_after (step_analytics sample_without_fat))) = true /\
  outcome (step_analytics sample_without_fat) = Raise (KeyError "fat_value") /\
  map fst (out_files (step_analytics sample_without_fat))
  = map fst (firstn 8 queries) /\
  lookup_file "q10_avg_carbs_per_product"
    (out_files (step_analytics sample_without_fat)) = None /\
  lookup_file "q27_top5_by_ratio"
    (out_files (step_analytics sample_without_fat)) = None.
Proof. vm_compute. repeat split. Qed.

(** ** The report of a table without rows *)









(** ** The files of the cleaning step *)













(** ** Reading a file back *)





(** ** The left join *)



(** ** The derived columns *)

Lemma assigned_refl (touched : list string) (df : DataFrame) :
  wf_frame df -> assigned touched df df.
Proof. intros W. repeat split; auto. Qed.

Lemma assigned_trans (touched : list string) (a b c : DataFrame) :
  assigned touched a b -> assigned touched b c -> assigned touched a c.
Proof.
  intros (W1 & L1 & K1 & H1) (W2 & L2 & K2 & H2).
  repeat split; auto; try congruence.
  intros n N. rewrite K2, K1; auto.
Qed.






(** ** The names that reach the report *)




Lemma is_na_text_Unknown : is_na_text "Unknown" = false.
Proof. reflexivity. Qed.




(** ** Deduplication and the files in between *)

(** C4 at two records whose codes are "000123" and "123".  The codes are
    distinct, so the deduplication keeps both rows in the identity and the
    nutrient table.  Read back from the files, both codes are the integer
    123; the left join then pairs each of the two identity rows with both
    nutrient rows, and the merged table has four rows for one code. *)
Lemma leading_zero_codes_collide :
  (files <- step_clean_transform leading_zero_raw ;;
   getcol (PRODUCT_CSV files) "product_code")
  = Ok [PStr "000123"; PStr "123"] /\
  (files <- step_clean_transform leading_zero_raw ;;
   getcol (NUTRIENT_CSV files) "product_code")
  = Ok [PStr "000123"; PStr "123"] /\
  (files <- step_clean_transform leading_zero_raw ;;
   dfp <- read_csv (PRODUCT_CSV files) ;;
   getcol dfp "product_code")
  = Ok [PInt 123; PInt 123] /\
  (files <- step_clean_transform leading_zero_raw ;;
   df <- step_feature_engineer files ;;
   select df ["product_code"; "product_name"; "brand"; "energy-kcal_value"])
  = Ok (mkDataFrame
          ["product_code"; "product_name"; "brand"; "energy-kcal_value"]
          [ [PInt 123; PStr "Dark"; PStr "Lindt"; PFloat (float_of_Z 310)];
            [PInt 123; PStr "Dark"; PStr "Lindt"; PFloat (float_of_Z 550)];
            [PInt 123; PStr "Milk"; PStr "Other"; PFloat (float_of_Z 310)];
            [PInt 123; PStr "Milk"; PStr "Other"; PFloat (float_of_Z 550)] ]).
Proof. vm_compute. repeat split. Qed.

(** ** The round trip of [to_float] *)

(** *** Correct rounding *)
Lemma scale2_pos (n d e a b : Z) :
  0 < n -> 0 < d -> scale2 n d e = (a, b) -> 0 < a /\ 0 < b.
Proof.
  intros N D. unfold scale2.
  destruct (0 <=? e) eqn:E; intros [= <- <-].
  - apply Z.leb_le in E. pose proof (Z.pow_pos_nonneg 2 e). nia.
  - apply Z.leb_gt in E. pose proof (Z.pow_pos_nonneg 2 (- e)). nia.
Qed.

(** The fractions at two exponents differ by the power of two between
    them. *)
Lemma scale2_rel (n d e e' a b a' b' : Z) :
  e' <= e ->
  scale2 n d e = (a, b) -> scale2 n d e' = (a', b') ->
  a' * b = a * b' * 2 ^ (e - e').
Proof.
  intros L. unfold scale2.
  destruct (0 <=? e) eqn:E; destruct (0 <=? e') eqn:E';
    intros [= <- <-] [= <- <-];
    rewrite ?Z.leb_le, ?Z.leb_gt in *.
  - replace e with (e' + (e - e')) at 1 by lia.
    rewrite Z.pow_add_r by lia. ring.
  - replace (e - e') with (e + - e') by lia.
    rewrite Z.pow_add_r by lia. ring.
  - lia.
  - replace (- e') with (- e + (e - e')) by lia.
    rewrite Z.pow_add_r by lia. ring.
Qed.

Lemma log2_fraction_spec (n d a b : Z) :
  0 < n -> 0 < d ->
  scale2 n d (log2_fraction n d) = (a, b) -> b <= a < 2 * b.
Proof.
  intros N D. unfold log2_fraction.
  pose proof (Z.log2_spec n N) as [Pn1 Pn2].
  pose proof (Z.log2_spec d D) as [Pd1 Pd2].
  pose proof (Z.log2_nonneg n) as Ln. pose proof (Z.log2_nonneg d) as Ld.
  set (ln := Z.log2 n) in *. set (ld := Z.log2 d) in *.
  rewrite Z.pow_succ_r in Pn2, Pd2 by assumption.
  set (P := 2 ^ ln) in *. set (Q := 2 ^ ld) in *.
  destruct (scale2 n d (ln - ld)) as [a0 b0] eqn:S0.
  assert (R : a0 < 2 * b0 /\ b0 < 2 * a0).
  { revert S0. unfold scale2. destruct (0 <=? ln - ld) eqn:E;
      intros [= <- <-]; rewrite ?Z.leb_le, ?Z.leb_gt in *.
    - assert (EP : P = Q * 2 ^ (ln - ld)).
      { unfold P, Q. rewrite <- Z.pow_add_r by lia. f_equal. lia. }
      pose proof (Z.pow_pos_nonneg 2 (ln - ld)). nia.
    - assert (EQ : Q = P * 2 ^ (- (ln - ld))).
      { unfold P, Q. rewrite <- Z.pow_add_r by lia. f_equal. lia. }
      pose proof (Z.pow_pos_nonneg 2 (- (ln - ld))). nia. }
  destruct (b0 <=? a0) eqn:C; rewrite ?Z.leb_le, ?Z.leb_gt in *.
  - intros S1. rewrite S0 in S1. injection S1 as <- <-. lia.
  - intros S1.
    pose proof (scale2_rel n d (ln - ld) (ln - ld - 1) a0 b0 a b
                  ltac:(lia) S0 S1) as REL.
    replace (ln - ld - (ln - ld - 1)) with 1 in REL by lia.
    change (2 ^ 1) with 2 in REL.
    destruct (scale2_pos n d _ _ _ N D S0) as [A0 B0].
    destruct (scale2_pos n d _ _ _ N D S1) as [A1 B1].
    nia.
Qed.

(** The exponent is determined by the bounds. *)
Lemma log2_fraction_unique (n d g a b : Z) :
  0 < n -> 0 < d ->
  scale2 n d g = (a, b) -> b <= a < 2 * b -> log2_fraction n d = g.
Proof.
  intros N D S B.
  destruct (scale2 n d (log2_fraction n d)) as [a0 b0] eqn:S0.
  pose proof (log2_fraction_spec n d a0 b0 N D S0) as B0.
  destruct (scale2_pos n d _ _ _ N D S0) as [A0 B0'].
  destruct (scale2_pos n d _ _ _ N D S) as [A1 B1'].
  destruct (Z.lt_trichotomy (log2_fraction n d) g) as [L | [E | G]];
    [ | exact E | ].
  - pose proof (scale2_rel n d g (log2_fraction n d) a b a0 b0
                  ltac:(lia) S S0) as REL.
    assert (K : 2 <= 2 ^ (g - log2_fraction n d)).
    { change 2 with (2 ^ 1) at 1. apply Z.pow_le_mono_r; lia. }
    set (k := 2 ^ (g - log2_fraction n d)) in *.
    assert (b * b0 * 2 <= a * b0 * k).
    { apply Z.mul_le_mono_nonneg; nia. }
    nia.
  - pose proof (scale2_rel n d (log2_fraction n d) g a0 b0 a b
                  ltac:(lia) S0 S) as REL.
    assert (K : 2 <= 2 ^ (log2_fraction n d - g)).
    { change 2 with (2 ^ 1) at 1. apply Z.pow_le_mono_r; lia. }
    set (k := 2 ^ (log2_fraction n d - g)) in *.
    assert (b0 * b * 2 <= a0 * b * k).
    { apply Z.mul_le_mono_nonneg; nia. }
    nia.
Qed.

(** ** Canonical mantissas *)

Lemma digits2_pos_log2 (m : positive) :
  Zpos (digits2_pos m) = Z.log2 (Zpos m) + 1.
Proof.
  assert (S : forall p, digits2_pos p = Pos.size p).
  { induction p; simpl; congruence. }
  rewrite S. destruct m; simpl; lia.
Qed.

Lemma bounded_spec (m : positive) (e : Z) :
  bounded 53 1024 m e = true <->
  Z.max (Z.log2 (Zpos m) + e - 52) (-1074) = e /\ e <= 971.
Proof.
  unfold bounded, canonical_mantissa, fexp, emin.
  rewrite digits2_pos_log2, andb_true_iff, Z.eqb_eq, Z.leb_le.
  replace (Z.log2 (Z.pos m) + 1 + e - 53) with (Z.log2 (Z.pos m) + e - 52)
    by lia.
  change (3 - 1024 - 53) with (-1074). change (1024 - 53) with 971.
  tauto.
Qed.

(** A number that a float holds exactly rounds to that float. *)
Lemma round_fraction_exact (neg : bool) (n d b : Z) (m : positive) (e : Z) :
  0 < n -> 0 < d ->
  bounded 53 1024 m e = true ->
  scale2 n d e = (Zpos m * b, b) ->
  round_fraction neg n d = S754_finite neg m e.
Proof.
  intros N D B S. apply bounded_spec in B. destruct B as [C E].
  destruct (scale2_pos n d _ _ _ N D S) as [_ Bp].
  pose proof (Z.log2_spec (Zpos m) ltac:(lia)) as [M1 M2].
  pose proof (Z.log2_nonneg (Zpos m)) as Lm.
  set (lm := Z.log2 (Zpos m)) in *.
  rewrite Z.pow_succ_r in M2 by assumption.
  assert (G : log2_fraction n d = lm + e).
  { destruct (scale2 n d (lm + e)) as [a1 b1] eqn:S1.
    apply (log2_fraction_unique n d (lm + e) a1 b1 N D S1).
    pose proof (scale2_rel n d (lm + e) e a1 b1 _ _ ltac:(lia) S1 S) as REL.
    replace (lm + e - e) with lm in REL by lia.
    destruct (scale2_pos n d _ _ _ N D S1) as [A1 B1].
    set (P := 2 ^ lm) in *.
    assert (C1 : a1 * P = Z.pos m * b1).
    { apply (Z.mul_reg_r _ _ b); [lia | ].
      replace (a1 * P * b) with (a1 * b * P) by ring.
      rewrite <- REL. ring. }
    nia. }
  unfold round_fraction. rewrite G.
  replace (lm + e - 52) with (lm + e - 52) by lia. rewrite C, S.
  rewrite Z.div_mul by lia. rewrite Z_mod_mult.
  replace (2 * 0 <? b) with true by (symmetry; apply Z.ltb_lt; lia).
  assert (M53 : Zpos m < 2 ^ 53).
  { assert (lm <= 52) by lia.
    assert (2 ^ lm <= 2 ^ 52) by (apply Z.pow_le_mono_r; lia).
    change (2 ^ 53) with (2 * 2 ^ 52). lia. }
  replace (Z.pos m =? 2 ^ 53) with false by (symmetry; apply Z.eqb_neq; lia).
  replace (e <=? 971) with true by (symmetry; apply Z.leb_le; lia).
  reflexivity.
Qed.

(** Rounding returns a float of the format. *)
Lemma round_fraction_valid (neg : bool) (n d : Z) :
  0 < n -> 0 < d -> valid_binary 53 1024 (round_fraction neg n d) = true.
Proof.
  intros N D. unfold round_fraction.
  set (g := log2_fraction n d).
  set (e := Z.max (g - 52) (-1074)).
  destruct (scale2 n d e) as [a b] eqn:S.
  destruct (scale2 n d g) as [ag bg] eqn:Sg.
  pose proof (log2_fraction_spec n d ag bg N D Sg) as Bg.
  destruct (scale2_pos n d _ _ _ N D S) as [Ap Bp].
  destruct (scale2_pos n d _ _ _ N D Sg) as [Agp Bgp].
  pose proof (Z.div_mod a b ltac:(lia)) as DM.
  pose proof (Z.mod_pos_bound a b Bp) as MB.
  set (q := a / b) in *. set (r := a mod b) in *.
  set (m := if 2 * r <? b then q
            else if b <? 2 * r then q + 1
            else if Z.even q then q else q + 1).
  assert (Q0 : 0 <= q) by (apply Z.div_pos; lia).
  assert (Mq : q <= m <= q + 1).
  { unfold m. destruct (2 * r <? b); [lia | ].
    destruct (b <? 2 * r); [lia | ]. destruct (Z.even q); lia. }
  assert (QB : (e = g - 52 /\ 2 ^ 52 <= q < 2 ^ 53) \/
               (e = -1074 /\ q < 2 ^ 52)).
  { destruct (Z.max_spec (g - 52) (-1074)) as [[L E] | [L E]]; fold e in E.
    - right. split; [exact E | ].
      destruct (Z.le_gt_cases e g) as [LE | GT].
      + pose proof (scale2_rel n d g e ag bg a b LE Sg S) as REL.
        assert (2 ^ (g - e) <= 2 ^ 51) by (apply Z.pow_le_mono_r; lia).
        pose proof (Z.pow_pos_nonneg 2 (g - e) ltac:(lia) ltac:(lia)).
        set (k := 2 ^ (g - e)) in *.
        assert (a < b * 2 ^ 52).
        { change (2 ^ 52) with (2 * 2 ^ 51).
          assert (a * bg < bg * (b * (2 * 2 ^ 51))); [ | nia].
          rewrite REL.
          assert (ag * b * k < 2 * bg * b * k) by nia.
          assert (2 * bg * b * k <= 2 * bg * b * 2 ^ 51) by nia.
          nia. }
        apply Z.div_lt_upper_bound; lia.
      + pose proof (scale2_rel n d e g a b ag bg ltac:(lia) S Sg) as REL.
        assert (2 <= 2 ^ (e - g)).
        { change 2 with (2 ^ 1) at 1. apply Z.pow_le_mono_r; lia. }
        set (k := 2 ^ (e - g)) in *.
        assert (a < b).
        { assert (a * bg * 2 <= a * bg * k) by nia.
          assert (ag * b < 2 * bg * b) by nia. nia. }
        assert (q = 0) by (apply Z.div_small; lia).
        change (2 ^ 52) with 4503599627370496. lia.
    - left. split; [exact E | ].
      pose proof (scale2_rel n d g e ag bg a b ltac:(lia) Sg S) as REL.
      replace (g - e) with 52 in REL by lia.
      split.
      + apply Z.div_le_lower_bound; [lia | ]. nia.
      + apply Z.div_lt_upper_bound; [lia | ].
        change (2 ^ 53) with (2 * 2 ^ 52). nia. }
  assert (E1074 : -1074 <= e) by (unfold e; lia).
  destruct (m =? 2 ^ 53) eqn:M53; rewrite ?Z.eqb_eq, ?Z.eqb_neq in M53.
  - destruct (e + 1 <=? 971) eqn:EE; [ | reflexivity].
    apply Z.leb_le in EE. simpl. apply bounded_spec.
    change (Z.log2 4503599627370496) with 52. lia.
  - destruct m as [ | p | p] eqn:Em; try reflexivity.
    destruct (e <=? 971) eqn:EE; [ | reflexivity].
    apply Z.leb_le in EE. simpl. apply bounded_spec. split; [ | exact EE].
    change (2 ^ 52) with 4503599627370496 in *.
    change (2 ^ 53) with 9007199254740992 in *.
    destruct QB as [[E' [Q1 Q2]] | [E' Q1]].
    + assert (LG : Z.log2 (Z.pos p) = 52).
      { apply Z.log2_unique; [lia | ].
        change (2 ^ 52) with 4503599627370496.
        change (2 ^ (52 + 1)) with 9007199254740992. lia. }
      rewrite LG. lia.
    + assert (LG : Z.log2 (Z.pos p) <= 52).
      { destruct (Z.le_gt_cases (Z.log2 (Z.pos p)) 52) as [ | GT]; [assumption | ].
        pose proof (Z.log2_spec (Z.pos p) ltac:(lia)) as [L1 _].
        assert (2 ^ 53 <= 2 ^ Z.log2 (Z.pos p))
          by (apply Z.pow_le_mono_r; lia).
        change (2 ^ 53) with 9007199254740992 in *. lia. }
      lia.
Qed.

(** ** Decimal mantissas without trailing zeros *)

Lemma strip_zeros_spec (fuel : nat) : forall d x d' x' : Z,
  0 < d -> strip_zeros fuel d x = (d', x') ->
  0 < d' /\ x <= x' /\ d = d' * 10 ^ (x' - x).
Proof.
  induction fuel as [| fuel IH]; intros d x d' x' Hd E; simpl in E.
  - injection E as <- <-. rewrite Z.sub_diag. simpl. lia.
  - destruct ((d mod 10 =? 0) && (0 <? d)) eqn:C.
    + apply andb_prop in C. destruct C as [C _].
      apply Z.eqb_eq in C.
      assert (D : d = 10 * (d / 10)).
      { pose proof (Z.div_mod d 10). lia. }
      assert (Hq : 0 < d / 10) by lia.
      destruct (IH _ _ _ _ Hq E) as (P1 & P2 & P3).
      split; [exact P1 |]. split; [lia |].
      replace (x' - x) with (Z.succ (x' - (x + 1))) by lia.
      rewrite Z.pow_succ_r by lia. lia.
    + injection E as <- <-. rewrite Z.sub_diag. simpl. lia.
Qed.

Lemma strip_zeros_last (fuel : nat) : forall d x d' x' : Z,
  0 < d -> d < 10 ^ Z.of_nat fuel -> strip_zeros fuel d x = (d', x') ->
  d' mod 10 <> 0.
Proof.
  induction fuel as [| fuel IH]; intros d x d' x' Hd Hb E.
  - simpl in Hb. lia.
  - simpl in E.
    destruct ((d mod 10 =? 0) && (0 <? d)) eqn:C.
    + apply andb_prop in C. destruct C as [C _].
      apply Z.eqb_eq in C.
      assert (D : d = 10 * (d / 10)).
      { pose proof (Z.div_mod d 10). lia. }
      apply (IH (d / 10) (x + 1) d' x'); [lia | | exact E].
      rewrite Nat2Z.inj_succ, Z.pow_succ_r in Hb by lia. lia.
    + injection E as <- <-.
      apply andb_false_iff in C. destruct C as [C | C].
      * apply Z.eqb_neq in C. exact C.
      * apply Z.ltb_ge in C. lia.
Qed.

Lemma pow10_above (d : Z) : 0 < d -> d < 10 ^ Z.of_nat (S (Z.to_nat (Z.log2 d))).
Proof.
  intros Hd.
  pose proof (Z.log2_nonneg d) as L0.
  rewrite Nat2Z.inj_succ, Z2Nat.id by exact L0.
  destruct (Z.log2_spec d Hd) as [_ U].
  apply Z.lt_le_trans with (1 := U).
  apply Z.pow_le_mono_l. lia.
Qed.

Lemma canonical_decimal_spec (d x d' x' : Z) :
  0 < d -> canonical_decimal d x = (d', x') ->
  0 < d' /\ x <= x' /\ d = d' * 10 ^ (x' - x) /\ d' mod 10 <> 0.
Proof.
  intros Hd E. unfold canonical_decimal in E.
  destruct (strip_zeros_spec _ _ _ _ _ Hd E) as (P1 & P2 & P3).
  repeat split; try assumption.
  exact (strip_zeros_last _ _ _ _ _ Hd (pow10_above d Hd) E).
Qed.

(** Two decimals without trailing zeros that denote the same number are
    the same. *)
Lemma no_trailing_zero_unique (d1 d2 a b : Z) :
  0 <= a -> 0 <= b -> d1 mod 10 <> 0 -> d2 mod 10 <> 0 ->
  d1 * 10 ^ a = d2 * 10 ^ b -> d1 = d2 /\ a = b.
Proof.
  assert (W : forall d1 d2 a b, 0 <= a -> a <= b -> d1 mod 10 <> 0 ->
                d1 * 10 ^ a = d2 * 10 ^ b -> a = b).
  { clear. intros d1 d2 a b Ha Hab N1 E.
    destruct (Z.eq_dec a b) as [-> | Ne]; [reflexivity | exfalso].
    replace b with (a + Z.succ (b - a - 1)) in E by lia.
    rewrite Z.pow_add_r, Z.pow_succ_r in E by lia.
    assert (P : 0 < 10 ^ a) by (apply Z.pow_pos_nonneg; lia).
    assert (E' : d1 = d2 * (10 * 10 ^ (b - a - 1))).
    { apply Z.mul_reg_r with (p := 10 ^ a); [lia |].
      rewrite E. ring. }
    apply N1. rewrite E'.
    replace (d2 * (10 * 10 ^ (b - a - 1))) with (d2 * 10 ^ (b - a - 1) * 10)
      by ring.
    apply Z.mod_mul. lia. }
  intros Ha Hb N1 N2 E.
  assert (Eab : a = b).
  { destruct (Z.le_gt_cases a b) as [L | L].
    - exact (W d1 d2 a b Ha L N1 E).
    - symmetry. apply (W d2 d1 b a Hb); [lia | exact N2 | symmetry; exact E]. }
  split; [| exact Eab].
  subst b.
  assert (P : 0 < 10 ^ a) by (apply Z.pow_pos_nonneg; lia).
  apply Z.mul_reg_r with (p := 10 ^ a); [lia | exact E].
Qed.

(** Trailing zeros written in the mantissa do not change the canonical
    form. *)
Lemma canonical_decimal_zeros (d x d' x' j : Z) :
  0 < d -> 0 <= j -> canonical_decimal d x = (d', x') ->
  canonical_decimal (d' * 10 ^ j) (x' - j) = (d', x').
Proof.
  intros Hd Hj E.
  destruct (canonical_decimal_spec _ _ _ _ Hd E) as (P1 & P2 & P3 & P4).
  assert (Pj : 0 < 10 ^ j) by (apply Z.pow_pos_nonneg; lia).
  assert (HM : 0 < d' * 10 ^ j) by (apply Z.mul_pos_pos; assumption).
  destruct (canonical_decimal (d' * 10 ^ j) (x' - j)) as [d2 x2] eqn:E2.
  destruct (canonical_decimal_spec _ _ _ _ HM E2) as (Q1 & Q2 & Q3 & Q4).
  destruct (Z.le_gt_cases x' x2) as [L | L].
  - assert (U : d' = d2 /\ 0 = x2 - x').
    { apply no_trailing_zero_unique; try assumption; try lia.
      rewrite Z.pow_0_r, Z.mul_1_r.
      apply Z.mul_reg_r with (p := 10 ^ j); [lia |].
      rewrite Q3 at 1. rewrite <- Z.mul_assoc, <- Z.pow_add_r by lia.
      f_equal. f_equal. lia. }
    destruct U as [-> U]. f_equal. lia.
  - assert (U : d' = d2 /\ x' - x2 = 0).
    { apply no_trailing_zero_unique; try assumption; try lia.
      rewrite Z.pow_0_r, Z.mul_1_r.
      apply Z.mul_reg_r with (p := 10 ^ (x2 - (x' - j))); [
        assert (0 < 10 ^ (x2 - (x' - j))) by (apply Z.pow_pos_nonneg; lia);
        lia |].
      rewrite <- Q3.
      rewrite <- Z.mul_assoc, <- Z.pow_add_r by lia.
      f_equal. f_equal. lia. }
    destruct U as [-> U]. f_equal. lia.
Qed.

Lemma canonical_decimal_idem (d x d' x' : Z) :
  0 < d -> canonical_decimal d x = (d', x') ->
  canonical_decimal d' x' = (d', x').
Proof.
  intros Hd E.
  pose proof (canonical_decimal_zeros d x d' x' 0 Hd (Z.le_refl 0) E) as Z0.
  rewrite Z.pow_0_r, Z.mul_1_r, Z.sub_0_r in Z0. exact Z0.
Qed.

(** ** Decimals that are binary64 numbers *)

Lemma round_fraction_sign (neg : bool) (n d : Z) :
  round_fraction neg n d = with_sign neg (round_fraction false n d).
Proof.
  unfold round_fraction.
  destruct (scale2 n d _) as [a b].
  match goal with |- context [?m =? 2 ^ 53] => generalize m end.
  intros m.
  destruct (m =? 2 ^ 53).
  - destruct (_ <=? 971); reflexivity.
  - destruct m; try reflexivity; destruct (_ <=? 971); reflexivity.
Qed.

Lemma float_of_decimal_sign (neg : bool) (d x : Z) :
  float_of_decimal neg d x = with_sign neg (float_of_decimal false d x).
Proof.
  unfold float_of_decimal.
  destruct d as [| p | p]; try reflexivity.
  destruct (canonical_decimal (Z.pos p) x) as [d' x'].
  destruct (0 <=? x'); apply round_fraction_sign.
Qed.

Lemma float_of_decimal_valid (neg : bool) (d x : Z) :
  valid_binary 53 1024 (float_of_decimal neg d x) = true.
Proof.
  unfold float_of_decimal.
  destruct d as [| p | p]; try reflexivity.
  destruct (canonical_decimal (Z.pos p) x) as [d' x'] eqn:E.
  destruct (canonical_decimal_spec _ _ _ _ (Pos2Z.is_pos p) E) as (P1 & _).
  destruct (0 <=? x') eqn:C.
  - apply Z.leb_le in C. apply round_fraction_valid; [| lia].
    apply Z.mul_pos_pos; [exact P1 | apply Z.pow_pos_nonneg; lia].
  - apply Z.leb_gt in C. apply round_fraction_valid; [exact P1 |].
    apply Z.pow_pos_nonneg; lia.
Qed.

Lemma same_number_shift (d' x x' : Z) (m : positive) (e : Z) :
  x <= x' ->
  same_number (d' * 10 ^ (x' - x)) x m e -> same_number d' x' m e.
Proof.
  unfold same_number. intros L E.
  set (A := 2 ^ Z.max (- e) 0) in *.
  set (B := Z.pos m * 2 ^ Z.max e 0) in *.
  destruct (Z.le_gt_cases 0 x) as [X | X].
  - rewrite (Z.max_l x 0), (Z.max_r (- x) 0) in E by lia.
    rewrite (Z.max_l x' 0), (Z.max_r (- x') 0) by lia.
    rewrite <- E.
    replace x' with ((x' - x) + x) at 1 by lia.
    rewrite Z.pow_add_r by lia. ring.
  - rewrite (Z.max_r x 0), (Z.max_l (- x) 0) in E by lia.
    rewrite Z.pow_0_r, Z.mul_1_r in E.
    destruct (Z.le_gt_cases 0 x') as [X' | X'].
    + rewrite (Z.max_l x' 0), (Z.max_r (- x') 0) by lia.
      rewrite Z.pow_0_r, Z.mul_1_r.
      assert (P : 0 < 10 ^ (- x)) by (apply Z.pow_pos_nonneg; lia).
      apply Z.mul_reg_r with (p := 10 ^ (- x)); [lia |].
      rewrite <- E.
      replace (x' - x) with (x' + - x) by lia.
      rewrite Z.pow_add_r by lia. ring.
    + rewrite (Z.max_r x' 0), (Z.max_l (- x') 0) by lia.
      rewrite Z.pow_0_r, Z.mul_1_r.
      assert (P : 0 < 10 ^ (x' - x)) by (apply Z.pow_pos_nonneg; lia).
      apply Z.mul_reg_r with (p := 10 ^ (x' - x)); [lia |].
      replace (B * 10 ^ (- x') * 10 ^ (x' - x)) with (B * 10 ^ (- x)).
      * rewrite <- E. ring.
      * replace (- x) with (- x' + (x' - x)) at 1 by lia.
        rewrite Z.pow_add_r by lia. ring.
Qed.

(** A decimal that denotes a binary64 number reads as that number. *)
Lemma float_of_decimal_exact (neg : bool) (d x : Z) (m : positive) (e : Z) :
  0 < d -> bounded 53 1024 m e = true -> same_number d x m e ->
  float_of_decimal neg d x = S754_finite neg m e.
Proof.
  intros Hd B V.
  unfold float_of_decimal.
  destruct d as [| p | p]; try lia.
  destruct (canonical_decimal (Z.pos p) x) as [d' x'] eqn:E.
  destruct (canonical_decimal_spec _ _ _ _ Hd E) as (P1 & P2 & P3 & _).
  rewrite P3 in V. apply same_number_shift in V; [| exact P2].
  unfold same_number in V.
  destruct (0 <=? x') eqn:C.
  - apply Z.leb_le in C.
    rewrite (Z.max_l x' 0), (Z.max_r (- x') 0) in V by lia.
    rewrite Z.pow_0_r, Z.mul_1_r in V.
    assert (N : 0 < d' * 10 ^ x').
    { apply Z.mul_pos_pos; [exact P1 | apply Z.pow_pos_nonneg; lia]. }
    destruct (Z.le_gt_cases 0 e) as [X | X].
    + rewrite (Z.max_r (- e) 0), (Z.max_l e 0) in V by lia.
      rewrite Z.pow_0_r, Z.mul_1_r in V.
      apply round_fraction_exact with (b := 2 ^ e); try lia; try assumption.
      unfold scale2. destruct (0 <=? e) eqn:Ce; [| apply Z.leb_gt in Ce; lia].
      rewrite V. f_equal. ring.
    + rewrite (Z.max_l (- e) 0), (Z.max_r e 0) in V by lia.
      rewrite Z.pow_0_r, Z.mul_1_r in V.
      apply round_fraction_exact with (b := 1); try lia; try assumption.
      unfold scale2. destruct (0 <=? e) eqn:Ce; [apply Z.leb_le in Ce; lia |].
      rewrite V. f_equal. ring.
  - apply Z.leb_gt in C.
    rewrite (Z.max_r x' 0), (Z.max_l (- x') 0) in V by lia.
    rewrite Z.pow_0_r, Z.mul_1_r in V.
    assert (D : 0 < 10 ^ (- x')) by (apply Z.pow_pos_nonneg; lia).
    destruct (Z.le_gt_cases 0 e) as [X | X].
    + rewrite (Z.max_r (- e) 0), (Z.max_l e 0) in V by lia.
      rewrite Z.pow_0_r, Z.mul_1_r in V.
      apply round_fraction_exact with (b := 10 ^ (- x') * 2 ^ e);
        try lia; try assumption.
      unfold scale2. destruct (0 <=? e) eqn:Ce; [| apply Z.leb_gt in Ce; lia].
      rewrite V. f_equal. ring.
    + rewrite (Z.max_l (- e) 0), (Z.max_r e 0) in V by lia.
      rewrite Z.mul_1_r in V.
      apply round_fraction_exact with (b := 10 ^ (- x'));
        try lia; try assumption.
      unfold scale2. destruct (0 <=? e) eqn:Ce; [apply Z.leb_le in Ce; lia |].
      rewrite V. f_equal.
Qed.

Lemma float_same_eq (a b : float) : float_same a b = true -> a = b.
Proof.
  unfold float_same.
  destruct a as [s | s | | s m e]; destruct b as [s' | s' | | s' m' e'];
    try discriminate; try reflexivity.
  - intros H. apply Bool.eqb_prop in H. congruence.
  - intros H. apply Bool.eqb_prop in H. congruence.
  - intros H. apply andb_prop in H. destruct H as [H He].
    apply andb_prop in H. destruct H as [Hs Hm].
    apply Bool.eqb_prop in Hs. apply Pos.eqb_eq in Hm. apply Z.eqb_eq in He.
    congruence.
Qed.

(** ** The digits of [repr] read back as the float *)

Lemma pow10_split (a : Z) : 10 ^ a = 5 ^ a * 2 ^ a.
Proof. change 10 with (5 * 2). apply Z.pow_mul_l. Qed.

(** With enough digits the decimal expansion of a binary64 number is
    exact. *)
Lemma exact_expansion (m : positive) (e x num den : Z) :
  fraction_of m e = (num, den) ->
  x <= 0 -> x <= e ->
  let n' := if 0 <=? x then num else num * 10 ^ (- x) in
  let d' := if 0 <=? x then den * 10 ^ x else den in
  0 < d' /\ n' mod d' = 0 /\ 0 < n' / d' /\ same_number (n' / d') x m e.
Proof.
  intros F X0 Xe. unfold fraction_of in F.
  destruct (e <? 0) eqn:Ce; injection F as <- <-.
  - apply Z.ltb_lt in Ce.
    destruct (0 <=? x) eqn:Cx; [apply Z.leb_le in Cx; lia |].
    cbv zeta.
    assert (P2 : 0 < 2 ^ (- e)) by (apply Z.pow_pos_nonneg; lia).
    assert (P5 : 0 < 5 ^ (- x)) by (apply Z.pow_pos_nonneg; lia).
    assert (P2' : 0 < 2 ^ (e - x)) by (apply Z.pow_pos_nonneg; lia).
    assert (Q : Z.pos m * 10 ^ (- x)
                = Z.pos m * 5 ^ (- x) * 2 ^ (e - x) * 2 ^ (- e)).
    { rewrite pow10_split.
      replace (- x) with ((e - x) + - e) at 2 by lia.
      rewrite Z.pow_add_r by lia. ring. }
    rewrite Q. rewrite Z.mod_mul, Z.div_mul by lia.
    split; [exact P2 |]. split; [reflexivity |].
    split.
    + apply Z.mul_pos_pos; [apply Z.mul_pos_pos |]; try assumption.
      apply Pos2Z.is_pos.
    + unfold same_number.
      rewrite (Z.max_r x 0), (Z.max_l (- e) 0), (Z.max_r e 0),
        (Z.max_l (- x) 0) by lia.
      rewrite !Z.pow_0_r, !Z.mul_1_r. symmetry. exact Q.
  - apply Z.ltb_ge in Ce.
    assert (P2 : 0 < 2 ^ e) by (apply Z.pow_pos_nonneg; lia).
    assert (Pm : 0 < Z.pos m * 2 ^ e).
    { apply Z.mul_pos_pos; [apply Pos2Z.is_pos | exact P2]. }
    unfold same_number.
    rewrite (Z.max_r x 0), (Z.max_r (- e) 0), (Z.max_l e 0),
      (Z.max_l (- x) 0) by lia.
    rewrite !Z.pow_0_r, !Z.mul_1_r.
    destruct (0 <=? x) eqn:Cx; cbv zeta.
    + apply Z.leb_le in Cx. assert (x = 0) by lia. subst x.
      change (1 * 10 ^ 0) with 1. change (10 ^ (- 0)) with 1.
      rewrite Z.mod_1_r, Z.div_1_r, Z.mul_1_r.
      split; [lia |]. split; [reflexivity |]. split; [exact Pm | reflexivity].
    + apply Z.leb_gt in Cx.
      assert (P10 : 0 < 10 ^ (- x)) by (apply Z.pow_pos_nonneg; lia).
      rewrite Z.mod_1_r, Z.div_1_r.
      split; [lia |]. split; [reflexivity |]. split; [| reflexivity].
      apply Z.mul_pos_pos; assumption.
Qed.

Lemma float_of_decimal_finite_pos (neg s : bool) (d x : Z) (m : positive)
      (e : Z) :
  float_of_decimal neg d x = S754_finite s m e -> 0 < d.
Proof.
  unfold float_of_decimal. destruct d; try discriminate. intros _.
  apply Pos2Z.is_pos.
Qed.

Lemma shortest_digits_reads (m : positive) (e num den k : Z) :
  bounded 53 1024 m e = true ->
  fraction_of m e = (num, den) ->
  forall (fuel : nat) (p d x : Z),
    k - (p + Z.of_nat fuel) <= 0 -> k - (p + Z.of_nat fuel) <= e ->
    shortest_digits fuel p (S754_finite false m e) num den k = (d, x) ->
    0 < d /\ float_of_decimal false d x = S754_finite false m e.
Proof.
  intros B F.
  induction fuel as [| fuel IH]; intros p d x L0 Le E.
  - cbn [shortest_digits] in E.
    rewrite Nat2Z.inj_0, Z.add_0_r in L0, Le.
    destruct (exact_expansion m e (k - p) num den F L0 Le)
      as (D & R & Q & V).
    cbv zeta in D, R, Q, V.
    rewrite R in E. change (2 * 0) with 0 in E.
    apply Z.ltb_lt in D. rewrite D in E.
    injection E as <- <-.
    split; [exact Q |].
    apply float_of_decimal_exact; assumption.
  - cbn [shortest_digits] in E.
    set (x0 := k - p) in *.
    set (n' := if 0 <=? x0 then num else num * 10 ^ (- x0)) in *.
    set (d' := if 0 <=? x0 then den * 10 ^ x0 else den) in *.
    set (lo := n' / d') in *.
    assert (R : forall d1, float_same (float_of_decimal false d1 x0)
                             (S754_finite false m e) = true ->
                0 < d1 /\ float_of_decimal false d1 x0 = S754_finite false m e).
    { intros d1 H. apply float_same_eq in H. split; [| exact H].
      exact (float_of_decimal_finite_pos _ _ _ _ _ _ H). }
    destruct (float_same (float_of_decimal false lo x0) _) eqn:Olo;
      destruct (float_same (float_of_decimal false (lo + 1) x0) _) eqn:Ohi;
      cbn [andb] in E.
    + destruct (2 * (n' mod d') <? d').
      * injection E as <- <-. apply R. exact Olo.
      * destruct (d' <? 2 * (n' mod d')).
        -- injection E as <- <-. apply R. exact Ohi.
        -- destruct (Z.even lo); injection E as <- <-; apply R; assumption.
    + injection E as <- <-. apply R. exact Olo.
    + injection E as <- <-. apply R. exact Ohi.
    + apply (IH (p + 1)); [| | exact E];
        rewrite Nat2Z.inj_succ in L0, Le; lia.
Qed.

(** The digits produced for a finite float read back as its magnitude,
    also in canonical form and with trailing zeros added. *)
Lemma repr_digits_read (m : positive) (e : Z) (d x d' x' j : Z) :
  bounded 53 1024 m e = true ->
  shortest_digits (Z.to_nat (exact_digits e (decimal_point (fst (fraction_of m e)) (snd (fraction_of m e))) - 1)) 1
    (S754_finite false m e) (fst (fraction_of m e)) (snd (fraction_of m e))
    (decimal_point (fst (fraction_of m e)) (snd (fraction_of m e))) = (d, x) ->
  canonical_decimal d x = (d', x') ->
  0 <= j ->
  0 < d' /\ d' mod 10 <> 0 /\
  forall neg, float_of_decimal neg (d' * 10 ^ j) (x' - j) = S754_finite neg m e.
Proof.
  intros B E C J.
  set (k := decimal_point _ _) in *.
  assert (F : fraction_of m e = (fst (fraction_of m e), snd (fraction_of m e)))
    by (destruct (fraction_of m e); reflexivity).
  assert (X : 1 <= exact_digits e k /\ k - exact_digits e k <= 0
              /\ k - exact_digits e k <= e).
  { unfold exact_digits. destruct (e <? 0) eqn:Ce.
    - apply Z.ltb_lt in Ce. lia.
    - apply Z.ltb_ge in Ce. lia. }
  destruct X as (X1 & X2 & X3).
  destruct (shortest_digits_reads m e _ _ k B F
              (Z.to_nat (exact_digits e k - 1)) 1 d x) as (Hd & R).
  { rewrite Z2Nat.id by lia. replace (1 + (exact_digits e k - 1))
      with (exact_digits e k) by lia. exact X2. }
  { rewrite Z2Nat.id by lia. replace (1 + (exact_digits e k - 1))
      with (exact_digits e k) by lia. exact X3. }
  { exact E. }
  destruct (canonical_decimal_spec _ _ _ _ Hd C) as (P1 & P2 & P3 & P4).
  split; [exact P1 |]. split; [exact P4 |].
  intros neg.
  assert (Pj : 0 < 10 ^ j) by (apply Z.pow_pos_nonneg; lia).
  assert (HM : 0 < d' * 10 ^ j) by (apply Z.mul_pos_pos; assumption).
  pose proof (canonical_decimal_zeros d x d' x' j Hd J C) as CZ.
  rewrite float_of_decimal_sign.
  replace (float_of_decimal false (d' * 10 ^ j) (x' - j))
    with (float_of_decimal false d x); [rewrite R; reflexivity |].
  unfold float_of_decimal.
  destruct d as [| pd | pd]; try lia.
  destruct (d' * 10 ^ j) as [| pm | pm] eqn:EM; try lia.
  rewrite C, CZ. reflexivity.
Qed.

(** ** Digit strings *)

Lemma digit_char_digit (d : Z) :
  0 <= d <= 9 -> is_digit (digit_char d) = true /\ digit_val (digit_char d) = d.
Proof.
  intros H.
  assert (C : d = 0 \/ d = 1 \/ d = 2 \/ d = 3 \/ d = 4 \/ d = 5 \/ d = 6
              \/ d = 7 \/ d = 8 \/ d = 9) by lia.
  repeat (destruct C as [-> | C]; [split; reflexivity |]).
  subst d. split; reflexivity.
Qed.

Lemma strlen_cons (c : ascii) (s : string) :
  strlen (String c s) = 1 + strlen s.
Proof. unfold strlen. cbn [String.length]. lia. Qed.

Lemma strlen_nonneg (s : string) : 0 <= strlen s.
Proof. unfold strlen. lia. Qed.

Lemma strlen_app (a b : string) : strlen (a ++ b) = strlen a + strlen b.
Proof.
  induction a as [| c a IH]; [reflexivity |].
  cbn [append]. rewrite !strlen_cons, IH. lia.
Qed.

Lemma all_digits_app (a b : string) :
  all_digits (a ++ b) = all_digits a && all_digits b.
Proof.
  induction a as [| c a IH]; [reflexivity |].
  cbn [append all_digits]. rewrite IH. apply andb_assoc.
Qed.

Lemma digits_value_app (a b : string) : forall acc,
  digits_value acc (a ++ b) = digits_value (digits_value acc a) b.
Proof.
  induction a as [| c a IH]; intros acc; [reflexivity |].
  cbn [append digits_value]. apply IH.
Qed.

Lemma digits_value_acc (s : string) : forall acc,
  digits_value acc s = acc * 10 ^ strlen s + digits_value 0 s.
Proof.
  induction s as [| c s IH]; intros acc.
  - cbn [digits_value]. change (strlen "") with 0. rewrite Z.pow_0_r. lia.
  - cbn [digits_value]. rewrite IH, (IH (0 * 10 + digit_val c)).
    rewrite strlen_cons, Z.pow_add_r by (try lia; apply strlen_nonneg).
    ring.
Qed.

Lemma digits_fuel_spec (fuel : nat) : forall (n : Z) (acc : string),
  0 <= n < 10 ^ Z.of_nat (S fuel) ->
  exists ds, digits_fuel (S fuel) n acc = ds ++ acc
             /\ all_digits ds = true /\ ds <> "" /\ digits_value 0 ds = n.
Proof.
  induction fuel as [| fuel IH]; intros n acc H.
  - assert (H9 : 0 <= n <= 9) by (change (10 ^ Z.of_nat 1) with 10 in H; lia).
    cbn [digits_fuel].
    assert (T : (n <? 10) = true) by (apply Z.ltb_lt; lia).
    rewrite Z.mod_small by lia.
    destruct (digit_char_digit n H9) as [D V].
    exists (String (digit_char n) "").
    split; [destruct (n <? 10); reflexivity |].
    split; [cbn [all_digits]; rewrite D; reflexivity |].
    split; [discriminate |].
    cbn [digits_value]. rewrite V. lia.
  - remember (S fuel) as f eqn:Ef.
    cbn [digits_fuel].
    assert (M : 0 <= n mod 10 <= 9) by (pose proof (Z.mod_pos_bound n 10); lia).
    destruct (digit_char_digit (n mod 10) M) as [D V].
    destruct (n <? 10) eqn:T.
    + exists (String (digit_char (n mod 10)) "").
      split; [reflexivity |].
      split; [cbn [all_digits]; rewrite D; reflexivity |].
      split; [discriminate |].
      apply Z.ltb_lt in T.
      cbn [digits_value]. rewrite V, Z.mod_small by lia. lia.
    + apply Z.ltb_ge in T.
      assert (Q : 0 <= n / 10 < 10 ^ Z.of_nat f).
      { rewrite Nat2Z.inj_succ, Z.pow_succ_r in H by lia.
        split; [apply Z.div_pos; lia |].
        apply Z.div_lt_upper_bound; lia. }
      destruct (IH (n / 10) (String (digit_char (n mod 10)) acc) Q)
        as (ds & E1 & E2 & E3 & E4).
      exists (ds ++ String (digit_char (n mod 10)) "").
      split.
      { rewrite E1, string_append_assoc. reflexivity. }
      split.
      { rewrite all_digits_app, E2. cbn [all_digits]. rewrite D. reflexivity. }
      split.
      { destruct ds; [congruence | discriminate]. }
      rewrite digits_value_app, E4. cbn [digits_value]. rewrite V.
      pose proof (Z.div_mod n 10). lia.
Qed.

Lemma str_of_nonneg_spec (n : Z) :
  0 <= n ->
  all_digits (str_of_nonneg n) = true /\ str_of_nonneg n <> ""
  /\ digits_value 0 (str_of_nonneg n) = n.
Proof.
  intros H. unfold str_of_nonneg.
  assert (B : 0 <= n < 10 ^ Z.of_nat (S (Z.to_nat (Z.log2 n)))).
  { split; [exact H |].
    destruct (Z.eq_dec n 0) as [-> | Ne]; [reflexivity |].
    apply pow10_above. lia. }
  destruct (digits_fuel_spec _ n "" B) as (ds & E1 & E2 & E3 & E4).
  rewrite E1, string_append_nil_r. auto.
Qed.

Lemma all_digits_zeros (n : nat) : all_digits (zeros n) = true.
Proof. induction n as [| n IH]; [reflexivity |]. cbn. exact IH. Qed.

Lemma strlen_zeros (n : nat) : strlen (zeros n) = Z.of_nat n.
Proof.
  induction n as [| n IH]; [reflexivity |].
  cbn [zeros]. rewrite strlen_cons, IH. lia.
Qed.

Lemma digits_value_zeros (n : nat) : forall acc,
  digits_value acc (zeros n) = acc * 10 ^ Z.of_nat n.
Proof.
  induction n as [| n IH]; intros acc.
  - cbn [zeros digits_value]. change (Z.of_nat 0) with 0.
    rewrite Z.pow_0_r. lia.
  - cbn [zeros digits_value]. rewrite IH.
    change (digit_val "0") with 0.
    rewrite Nat2Z.inj_succ, Z.pow_succ_r by lia. ring.
Qed.

(** ** Reading a digit string *)

Lemma digits_rest_app (ds rest : string) : forall acc n,
  all_digits ds = true -> stops rest = true ->
  digits_rest (ds ++ rest) acc n = (digits_value acc ds, n + strlen ds, rest).
Proof.
  induction ds as [| c ds IH]; intros acc n A S.
  - cbn [append digits_value]. change (strlen "") with 0. rewrite Z.add_0_r.
    destruct rest as [| c r]; [reflexivity |].
    cbn [stops] in S. apply andb_prop in S. destruct S as [S1 S2].
    apply negb_true_iff in S1, S2.
    cbn [digits_rest]. rewrite S1, S2. reflexivity.
  - cbn [all_digits] in A. apply andb_prop in A. destruct A as [A1 A2].
    cbn [append digits_rest digits_value]. rewrite A1.
    rewrite (IH _ _ A2 S), strlen_cons. f_equal. f_equal. lia.
Qed.

Lemma digitpart_app (ds rest : string) :
  ds <> "" -> all_digits ds = true -> stops rest = true ->
  digitpart (ds ++ rest) = Some (digits_value 0 ds, strlen ds, rest).
Proof.
  intros NE A S.
  destruct ds as [| c ds]; [congruence |].
  cbn [all_digits] in A. apply andb_prop in A. destruct A as [A1 A2].
  cbn [append digitpart digits_value]. rewrite A1.
  rewrite (digits_rest_app _ _ _ _ A2 S), strlen_cons.
  reflexivity.
Qed.

(** ** Substrings *)

Lemma substring_0_0 (s : string) : String.substring 0 0 s = "".
Proof. destruct s; reflexivity. Qed.

Lemma substring_all (s : string) :
  String.substring 0 (String.length s) s = s.
Proof.
  induction s as [| c s IH]; [reflexivity |].
  cbn [String.length String.substring]. rewrite IH. reflexivity.
Qed.

Lemma substring_split (i : nat) : forall s : string,
  (i <= String.length s)%nat ->
  s = String.substring 0 i s ++ String.substring i (String.length s - i) s
  /\ String.length (String.substring 0 i s) = i.
Proof.
  induction i as [| i IH]; intros s L.
  - rewrite substring_0_0, Nat.sub_0_r, substring_all. auto.
  - destruct s as [| c s]; [cbn in L; lia |].
    cbn [String.length] in L.
    destruct (IH s) as [E1 E2]; [lia |].
    cbn [String.length String.substring Nat.sub append].
    rewrite <- E1, E2. auto.
Qed.

(** ** Characters of a number *)

Lemma digit_not_space (c : ascii) : is_digit c = true -> is_space c = false.
Proof.
  unfold is_digit, is_space. cbv zeta. intros H.
  apply andb_prop in H. destruct H as [H1 H2].
  apply Z.leb_le in H1, H2.
  apply orb_false_iff. split; apply andb_false_iff; right; apply Z.leb_gt; lia.
Qed.

Lemma digit_not_upper (c : ascii) : is_digit c = true -> is_upper c = false.
Proof.
  unfold is_digit, is_upper. cbv zeta. intros H.
  apply andb_prop in H. destruct H as [H1 H2].
  apply Z.leb_le in H1, H2.
  apply andb_false_iff. left. apply Z.leb_gt. lia.
Qed.

Lemma digit_neq (c k : ascii) :
  is_digit c = true -> is_digit k = false -> Ascii.eqb c k = false.
Proof.
  intros Hc Hk. destruct (Ascii.eqb_spec c k) as [-> | N]; [| reflexivity].
  congruence.
Qed.

Lemma all_digits_no_space (s : string) :
  all_digits s = true -> no_space s = true.
Proof.
  induction s as [| c s IH]; [reflexivity |].
  cbn [all_digits no_space]. intros H.
  apply andb_prop in H. destruct H as [H1 H2].
  rewrite (digit_not_space c H1), (IH H2). reflexivity.
Qed.

Lemma no_space_app (a b : string) :
  no_space (a ++ b) = no_space a && no_space b.
Proof.
  induction a as [| c a IH]; [reflexivity |].
  cbn [append no_space]. rewrite IH. apply andb_assoc.
Qed.

Lemma rstrip_no_space (s : string) : no_space s = true -> rstrip s = s.
Proof.
  induction s as [| c s IH]; [reflexivity |].
  cbn [no_space rstrip]. intros H.
  apply andb_prop in H. destruct H as [H1 H2].
  apply negb_true_iff in H1.
  rewrite (IH H2), H1. destruct s; reflexivity.
Qed.

Lemma strip_no_space (s : string) : no_space s = true -> strip s = s.
Proof.
  intros H. unfold strip.
  assert (L : lstrip s = s).
  { destruct s as [| c s]; [reflexivity |].
    cbn [no_space] in H. apply andb_prop in H. destruct H as [H1 _].
    apply negb_true_iff in H1. cbn [lstrip]. rewrite H1. reflexivity. }
  rewrite L. apply rstrip_no_space. exact H.
Qed.

Lemma strlen_pos (s : string) : s <> "" -> 1 <= strlen s.
Proof.
  destruct s as [| c s]; [congruence |]. intros _.
  rewrite strlen_cons. pose proof (strlen_nonneg s). lia.
Qed.

Lemma strlen_0 (s : string) : strlen s = 0 -> s = "".
Proof.
  destruct s as [| c s]; [reflexivity |].
  rewrite strlen_cons. pose proof (strlen_nonneg s). lia.
Qed.

Lemma substring_Z_split (ds : string) (i : Z) :
  0 <= i <= strlen ds ->
  ds = substring_Z 0 i ds ++ substring_Z i (strlen ds - i) ds
  /\ strlen (substring_Z 0 i ds) = i.
Proof.
  intros H. unfold substring_Z, strlen in *.
  change (Z.to_nat 0) with 0%nat.
  replace (Z.to_nat (Z.of_nat (String.length ds) - i))
    with (String.length ds - Z.to_nat i)%nat by lia.
  destruct (substring_split (Z.to_nat i) ds) as [E1 E2]; [lia |].
  split; [exact E1 |]. rewrite E2. lia.
Qed.

(** ** Reading a number of each written form *)

Lemma parse_number_int_frac (a b rest : string) :
  a <> "" -> all_digits a = true ->
  b <> "" -> all_digits b = true -> stops rest = true ->
  parse_number (a ++ "." ++ b ++ rest)
  = match exponent_part rest with
    | Some (ev, EmptyString) =>
        Some (digits_value 0 a * 10 ^ strlen b + digits_value 0 b,
              ev - strlen b)
    | _ => None
    end.
Proof.
  intros Na Aa Nb Ab S. unfold parse_number.
  rewrite (digitpart_app a ("." ++ b ++ rest) Na Aa eq_refl).
  cbv beta iota zeta.
  change (after_point ("." ++ b ++ rest)) with (Some (b ++ rest)).
  cbv beta iota.
  rewrite (digitpart_app b rest Nb Ab S).
  reflexivity.
Qed.

Lemma parse_number_int (a rest : string) :
  a <> "" -> all_digits a = true -> stops rest = true ->
  after_point rest = None ->
  parse_number (a ++ rest)
  = match exponent_part rest with
    | Some (ev, EmptyString) => Some (digits_value 0 a, ev - 0)
    | _ => None
    end.
Proof.
  intros Na Aa S P. unfold parse_number.
  rewrite (digitpart_app a rest Na Aa S).
  cbv beta iota zeta. rewrite P.
  reflexivity.
Qed.

Lemma exponent_part_e (neg : bool) (es : string) :
  es <> "" -> all_digits es = true ->
  exponent_part ("e" ++ (if neg then "-" else "+") ++ es)
  = Some ((if neg then - digits_value 0 es else digits_value 0 es), "").
Proof.
  intros N A.
  pose proof (digitpart_app es "" N A eq_refl) as D.
  rewrite string_append_nil_r in D.
  destruct neg.
  - change (exponent_part ("e" ++ "-" ++ es))
      with (match digitpart es with
            | Some (v, _, r) => Some (- v, r)
            | None => None
            end).
    rewrite D. reflexivity.
  - change (exponent_part ("e" ++ "+" ++ es))
      with (match digitpart es with
            | Some (v, _, r) => Some (v, r)
            | None => None
            end).
    rewrite D. reflexivity.
Qed.

(** ** Reading what [repr] writes *)

Lemma append_nonempty_r (a b : string) : b <> "" -> a ++ b <> "".
Proof. destruct a; [exact (fun H => H) | discriminate]. Qed.

Lemma append_nonempty_l (a b : string) : a <> "" -> a ++ b <> "".
Proof. destruct a; [congruence | discriminate]. Qed.

Lemma zero_digit_nonempty : "0" <> "".
Proof. discriminate. Qed.

(** 0.000ddd *)
Lemma parse_small (ds : string) (z : nat) :
  ds <> "" -> all_digits ds = true ->
  parse_number ("0" ++ "." ++ zeros z ++ ds)
  = Some (digits_value 0 ds, - (Z.of_nat z + strlen ds)).
Proof.
  intros N A.
  assert (A' : all_digits (zeros z ++ ds) = true).
  { rewrite all_digits_app, all_digits_zeros, A. reflexivity. }
  pose proof (parse_number_int_frac "0" (zeros z ++ ds) ""
                zero_digit_nonempty eq_refl
                (append_nonempty_r _ _ N) A' eq_refl) as P.
  rewrite string_append_nil_r in P. rewrite P.
  change (exponent_part "") with (Some (0, "")). cbv beta iota.
  assert (E1 : digits_value 0 (zeros z ++ ds) = digits_value 0 ds).
  { rewrite digits_value_app, digits_value_zeros. reflexivity. }
  rewrite E1, strlen_app, strlen_zeros.
  change (digits_value 0 "0") with 0.
  f_equal; f_equal; ring.
Qed.

(** ddd000.0 *)
Lemma parse_integral (ds : string) (z : nat) :
  ds <> "" -> all_digits ds = true ->
  parse_number ((ds ++ zeros z) ++ "." ++ "0")
  = Some (digits_value 0 ds * 10 ^ (Z.of_nat z + 1), - 1).
Proof.
  intros N A.
  assert (A' : all_digits (ds ++ zeros z) = true).
  { rewrite all_digits_app, all_digits_zeros, A. reflexivity. }
  pose proof (parse_number_int_frac (ds ++ zeros z) "0" ""
                (append_nonempty_l _ _ N) A'
                zero_digit_nonempty eq_refl eq_refl) as P.
  change ("0" ++ "") with "0" in P. rewrite P.
  change (exponent_part "") with (Some (0, "")). cbv beta iota.
  change (digits_value 0 "0") with 0. change (strlen "0") with 1.
  rewrite digits_value_app, digits_value_zeros.
  rewrite Z.pow_add_r by lia.
  replace (digits_value 0 ds * 10 ^ Z.of_nat z * 10 ^ 1 + 0)
    with (digits_value 0 ds * (10 ^ Z.of_nat z * 10 ^ 1)) by ring.
  reflexivity.
Qed.

(** dd.ddd *)
Lemma parse_fixed (a b : string) :
  a <> "" -> all_digits a = true -> b <> "" -> all_digits b = true ->
  parse_number (a ++ "." ++ b)
  = Some (digits_value 0 (a ++ b), - strlen b).
Proof.
  intros Na Aa Nb Ab.
  pose proof (parse_number_int_frac a b "" Na Aa Nb Ab eq_refl) as P.
  rewrite string_append_nil_r in P. rewrite P.
  change (exponent_part "") with (Some (0, "")). cbv beta iota.
  rewrite digits_value_app, (digits_value_acc b (digits_value 0 a)).
  reflexivity.
Qed.

(** The exponent of the scientific form: at least two digits. *)
Lemma exponent_digits (v : Z) :
  0 <= v ->
  let es := str_of_nonneg v in
  let es2 := if strlen es <? 2 then "0" ++ es else es in
  es2 <> "" /\ all_digits es2 = true /\ digits_value 0 es2 = v.
Proof.
  intros H. cbv zeta.
  destruct (str_of_nonneg_spec v H) as (A & N & V).
  destruct (strlen (str_of_nonneg v) <? 2).
  - split; [discriminate |]. split.
    + rewrite all_digits_app, A. reflexivity.
    + rewrite digits_value_app. exact V.
  - auto.
Qed.

(** d.ddde+XX *)
Lemma parse_sci_frac (a b es : string) (neg : bool) :
  a <> "" -> all_digits a = true -> b <> "" -> all_digits b = true ->
  es <> "" -> all_digits es = true ->
  parse_number (a ++ "." ++ b ++ "e" ++ (if neg then "-" else "+") ++ es)
  = Some (digits_value 0 (a ++ b),
          (if neg then - digits_value 0 es else digits_value 0 es)
          - strlen b).
Proof.
  intros Na Aa Nb Ab Ne Ae.
  rewrite (parse_number_int_frac a b
             ("e" ++ (if neg then "-" else "+") ++ es) Na Aa Nb Ab eq_refl).
  rewrite (exponent_part_e neg es Ne Ae).
  rewrite digits_value_app, (digits_value_acc b (digits_value 0 a)).
  reflexivity.
Qed.

(** de+XX *)
Lemma parse_sci_int (a es : string) (neg : bool) :
  a <> "" -> all_digits a = true ->
  es <> "" -> all_digits es = true ->
  parse_number (a ++ "e" ++ (if neg then "-" else "+") ++ es)
  = Some (digits_value 0 a,
          (if neg then - digits_value 0 es else digits_value 0 es) - 0).
Proof.
  intros Na Aa Ne Ae.
  rewrite (parse_number_int a ("e" ++ (if neg then "-" else "+") ++ es)
             Na Aa eq_refl eq_refl).
  rewrite (exponent_part_e neg es Ne Ae).
  reflexivity.
Qed.

Lemma first_digit (a r : string) :
  a <> "" -> all_digits a = true ->
  exists c t, a ++ r = String c t /\ is_digit c = true.
Proof.
  destruct a as [| c a]; [congruence |]. intros _ A.
  cbn [all_digits] in A. apply andb_prop in A. destruct A as [A _].
  exists c, (a ++ r). split; [reflexivity | exact A].
Qed.

(** What [repr] writes for the digits [d] and the exponent [x] starts with
    a digit, holds no whitespace, and reads as [d * 10^x], written with
    [j] more zeros. *)
Lemma format_repr_cases (d x : Z) :
  0 < d ->
  exists a r j, format_repr d x = a ++ r /\ a <> "" /\ all_digits a = true
    /\ no_space r = true /\ 0 <= j
    /\ parse_number (a ++ r) = Some (d * 10 ^ j, x - j).
Proof.
  intros Hd.
  destruct (str_of_nonneg_spec d) as (A & NE & V); [lia |].
  unfold format_repr. cbv zeta.
  remember (str_of_nonneg d) as ds eqn:Eds.
  pose proof (strlen_pos ds NE) as Ln.
  remember (strlen ds) as n eqn:En.
  pose proof (all_digits_no_space ds A) as NS.
  destruct ((-4 <? n + x) && (n + x <=? 16)).
  - destruct (n + x <=? 0) eqn:C0.
    + apply Z.leb_le in C0.
      exists "0", ("." ++ zeros (Z.to_nat (- (n + x))) ++ ds), 0.
      split; [reflexivity |]. split; [discriminate |].
      split; [reflexivity |].
      split.
      { rewrite !no_space_app, NS,
          (all_digits_no_space _ (all_digits_zeros _)). reflexivity. }
      split; [lia |].
      rewrite (parse_small ds _ NE A), V, <- En, Z2Nat.id by lia.
      rewrite Z.pow_0_r. f_equal. f_equal; lia.
    + apply Z.leb_gt in C0.
      destruct (n <=? n + x) eqn:C1.
      * apply Z.leb_le in C1.
        exists (ds ++ zeros (Z.to_nat (n + x - n))), ".0", (x + 1).
        split; [symmetry; apply string_append_assoc |].
        split; [apply append_nonempty_l; exact NE |].
        split.
        { rewrite all_digits_app, A, all_digits_zeros. reflexivity. }
        split; [reflexivity |]. split; [lia |].
        etransitivity; [exact (parse_integral ds _ NE A) |].
        rewrite V, Z2Nat.id by lia.
        f_equal. f_equal; [f_equal; f_equal; lia | lia].
      * apply Z.leb_gt in C1.
        destruct (substring_Z_split ds (n + x)) as [E1 E2]; [lia |].
        rewrite <- En in E1.
        remember (substring_Z 0 (n + x) ds) as a eqn:Ea.
        remember (substring_Z (n + x) (n - (n + x)) ds) as b eqn:Eb.
        assert (Lb : strlen b = - x).
        { pose proof (strlen_app a b) as L. rewrite <- E1, <- En in L. lia. }
        assert (Na : a <> "").
        { intros ->. change (strlen "") with 0 in E2. lia. }
        assert (Nb : b <> "").
        { intros ->. change (strlen "") with 0 in Lb. lia. }
        assert (Aab : all_digits a = true /\ all_digits b = true).
        { apply andb_prop. rewrite <- all_digits_app, <- E1. exact A. }
        destruct Aab as [Aa Ab].
        exists a, ("." ++ b), 0.
        split; [reflexivity |]. split; [exact Na |]. split; [exact Aa |].
        split.
        { rewrite no_space_app, (all_digits_no_space _ Ab). reflexivity. }
        split; [lia |].
        rewrite (parse_fixed a b Na Aa Nb Ab), <- E1, V, Lb, Z.pow_0_r.
        f_equal. f_equal; lia.
  - destruct (exponent_digits (Z.abs (n + x - 1))) as (Ne & Ae & Ve);
      [lia |].
    cbv zeta in Ne, Ae, Ve.
    remember (if strlen (str_of_nonneg (Z.abs (n + x - 1))) <? 2
              then "0" ++ str_of_nonneg (Z.abs (n + x - 1))
              else str_of_nonneg (Z.abs (n + x - 1))) as es eqn:Ees.
    assert (Se : (if n + x - 1 <? 0 then - digits_value 0 es
                  else digits_value 0 es) = n + x - 1).
    { rewrite Ve. destruct (n + x - 1 <? 0) eqn:C.
      - apply Z.ltb_lt in C. lia.
      - apply Z.ltb_ge in C. lia. }
    assert (Sns : no_space (if n + x - 1 <? 0 then "-" else "+") = true).
    { destruct (n + x - 1 <? 0); reflexivity. }
    destruct (substring_Z_split ds 1) as [E1 E2]; [lia |].
    rewrite <- En in E1.
    remember (substring_Z 0 1 ds) as a eqn:Ea.
    remember (substring_Z 1 (n - 1) ds) as b eqn:Eb.
    assert (Lb : strlen b = n - 1).
    { pose proof (strlen_app a b) as L. rewrite <- E1, <- En in L. lia. }
    assert (Na : a <> "").
    { intros ->. change (strlen "") with 0 in E2. lia. }
    assert (Aab : all_digits a = true /\ all_digits b = true).
    { apply andb_prop. rewrite <- all_digits_app, <- E1. exact A. }
    destruct Aab as [Aa Ab].
    destruct (1 <? n) eqn:C1.
    + apply Z.ltb_lt in C1.
      assert (Nb : b <> "").
      { intros ->. change (strlen "") with 0 in Lb. lia. }
      exists a, (("." ++ b) ++ "e" ++ (if n + x - 1 <? 0 then "-" else "+")
                 ++ es), 0.
      split; [reflexivity |]. split; [exact Na |]. split; [exact Aa |].
      split.
      { rewrite !no_space_app, Sns, (all_digits_no_space _ Ab),
          (all_digits_no_space _ Ae). reflexivity. }
      split; [lia |].
      etransitivity;
        [exact (parse_sci_frac a b es (n + x - 1 <? 0) Na Aa Nb Ab Ne Ae) |].
      rewrite Se, <- E1, V, Lb, Z.pow_0_r.
      f_equal. f_equal; lia.
    + apply Z.ltb_ge in C1.
      assert (Eb0 : b = "") by (apply strlen_0; lia).
      rewrite Eb0, string_append_nil_r in E1.
      exists a, ("e" ++ (if n + x - 1 <? 0 then "-" else "+") ++ es), 0.
      split; [reflexivity |]. split; [exact Na |]. split; [exact Aa |].
      split.
      { rewrite !no_space_app, Sns, (all_digits_no_space _ Ae). reflexivity. }
      split; [lia |].
      rewrite (parse_sci_int a es (n + x - 1 <? 0) Na Aa Ne Ae).
      rewrite Se, <- E1, V, Z.pow_0_r.
      f_equal. f_equal; lia.
Qed.

(** ** [float] of what [repr] writes *)

Lemma lower_digit (c : ascii) : is_digit c = true -> to_lower c = c.
Proof. intros H. unfold to_lower. rewrite (digit_not_upper c H). reflexivity. Qed.

Lemma py_float_number (neg : bool) (a r : string) (m e : Z) :
  a <> "" -> all_digits a = true -> no_space r = true ->
  parse_number (a ++ r) = Some (m, e) ->
  py_float ((if neg then "-" else "") ++ a ++ r)
  = Ok (float_of_decimal neg m e).
Proof.
  intros Na Aa Nr P.
  destruct (first_digit a r Na Aa) as (c & t & E & D).
  assert (NS : no_space (a ++ r) = true).
  { rewrite no_space_app, (all_digits_no_space a Aa), Nr. reflexivity. }
  assert (S : split_sign (strip ((if neg then "-" else "") ++ a ++ r))
              = (neg, a ++ r)).
  { rewrite strip_no_space.
    - destruct neg; [reflexivity |].
      change ("" ++ a ++ r) with (a ++ r). rewrite E.
      cbn [split_sign].
      rewrite (digit_neq c "-" D eq_refl), (digit_neq c "+" D eq_refl).
      reflexivity.
    - rewrite no_space_app, NS. destruct neg; reflexivity. }
  unfold py_float. rewrite S.
  assert (L : (String.eqb (lower (a ++ r)) "inf"
               || String.eqb (lower (a ++ r)) "infinity") = false
              /\ String.eqb (lower (a ++ r)) "nan" = false).
  { rewrite E. cbn [lower]. rewrite (lower_digit c D).
    cbn [String.eqb].
    rewrite (digit_neq c "i" D eq_refl), (digit_neq c "n" D eq_refl).
    split; reflexivity. }
  destruct L as [L1 L2]. rewrite L1, L2, P. reflexivity.
Qed.

Lemma py_float_valid (s : string) (v : float) :
  py_float s = Ok v -> valid_binary 53 1024 v = true.
Proof.
  unfold py_float.
  destruct (split_sign (strip s)) as [neg body].
  destruct (String.eqb (lower body) "inf" || String.eqb (lower body) "infinity").
  - intros [= <-]. destruct neg; reflexivity.
  - destruct (String.eqb (lower body) "nan").
    + intros [= <-]. reflexivity.
    + destruct (parse_number body) as [[m e] |]; [| discriminate].
      intros [= <-]. apply float_of_decimal_valid.
Qed.

Lemma to_float_valid (x : scalar) (v : float) :
  to_float x = Ok v -> valid_binary 53 1024 v = true.
Proof.
  unfold to_float.
  destruct (split_ws (py_str x)) as [| tok rest]; cbn [index0 bind try_except].
  - intros [= <-]. reflexivity.
  - destruct (py_float tok) as [w | e] eqn:P; cbn [try_except].
    + intros [= <-]. exact (py_float_valid tok w P).
    + intros [= <-]. reflexivity.
Qed.

Lemma to_float_token (tok : string) (v : float) :
  tok <> "" -> no_space tok = true -> py_float tok = Ok v ->
  to_float (PStr tok) = Ok v.
Proof.
  intros N S P.
  destruct (split_ws_first_token "" tok "" eq_refl S N (or_introl eq_refl))
    as [more M].
  change ("" ++ tok ++ "") with (tok ++ "") in M.
  rewrite string_append_nil_r in M.
  unfold to_float. cbn [py_str]. rewrite M.
  cbn [index0 bind]. rewrite P. reflexivity.
Qed.

(** The text of a float reads back as the float. *)
Lemma to_float_repr (v : float) :
  valid_binary 53 1024 v = true -> to_float (PStr (float_repr v)) = Ok v.
Proof.
  destruct v as [s | s | | s m e]; intros B.
  - destruct s; vm_compute; reflexivity.
  - destruct s; vm_compute; reflexivity.
  - vm_compute. reflexivity.
  - cbn [valid_binary] in B.
    unfold float_repr.
    pose proof (repr_digits_read m e) as R.
    destruct (fraction_of m e) as [num den].
    cbn [fst snd] in R.
    destruct (shortest_digits _ 1 _ num den _) as [d x] eqn:Sd.
    destruct (canonical_decimal d x) as [d' x'] eqn:Cd.
    destruct (format_repr_cases d' x') as (a & r & j & F & Na & Aa & Nr & J & P).
    { destruct (R d x d' x' 0 B eq_refl Cd (Z.le_refl 0)) as [H _]. exact H. }
    destruct (R d x d' x' j B eq_refl Cd J) as (_ & _ & Rj).
    rewrite F.
    apply to_float_token.
    + destruct s.
      * discriminate.
      * change ("" ++ a ++ r) with (a ++ r). apply append_nonempty_l. exact Na.
    + rewrite !no_space_app, (all_digits_no_space a Aa), Nr.
      destruct s; reflexivity.
    + rewrite (py_float_number s a r _ _ Na Aa Nr P). rewrite Rj. reflexivity.
Qed.

Lemma to_float_fixpoint (x : scalar) (v : float) :
  to_float x = Ok v ->
  to_float (PStr (float_repr v)) = Ok v /\ to_float (PFloat v) = Ok v.
Proof.
  intros H. pose proof (to_float_repr v (to_float_valid x v H)) as R.
  split; exact R.
Qed.

(** [round_fraction] and the division of the Standard Library round alike:
    on exact quotients, on ties, next to a power of two, on subnormal
    numbers and at the overflow threshold. *)
Lemma round_fraction_agrees :
  forallb (fun nd : positive * positive =>
             float_same (round_fraction false (Zpos (fst nd)) (Zpos (snd nd)))
                        (float_of_ratio false (fst nd) (snd nd)))
    [ (1, 10); (1, 3); (2, 3); (120, 1); (4, 5); (35, 100); (7, 10);
      (9007199254740993, 1); (9007199254740995, 1); (18014398509481983, 1);
      (9007199254740991, 2); (1, 9007199254740992); (123456789, 1000);
      (1, Pos.pow 10 323); (5, Pos.pow 10 324); (2, Pos.pow 10 324);
      (3, Pos.pow 10 324); (22250738585072011, Pos.pow 10 324);
      (Pos.pow 10 308, 1); (17976931348623157 * Pos.pow 10 292, 1);
      (18 * Pos.pow 10 307, 1); (179769313486231580793 * Pos.pow 10 288, 1);
      (Pos.pow 2 1024 - Pos.pow 2 970, 1); (Pos.pow 2 1024, 1);
      (1, Pos.pow 2 1074); (1, Pos.pow 2 1075); (3, Pos.pow 2 1075);
      (Pos.pow 10 22, 1); (Pos.pow 10 23, 1); (15, Pos.pow 10 8) ]%positive
  = true.
Proof. vm_compute. reflexivity. Qed.

(** C8 (X6).  Parsing is idempotent on its successes.  For every text,
    [to_float] returns a float and raises nothing; when that float is not
    null, its text ([str], the shortest decimal that reads back as it)
    parses to the same float again, and so does the float itself given to
    [to_float]; when the text has no token, or its first token is not a
    number, the float is null. *)
Theorem to_float_round_trip (s : string) :
  exists v,
    to_float (PStr s) = Ok v /\
    (isnan v = false ->
     to_float (PStr (float_repr v)) = Ok v /\ to_float (PFloat v) = Ok v) /\
    ((forall tok rest, split_ws s = tok :: rest -> is_ok (py_float tok) = false)
     -> v = nan).
Proof.
  destruct (to_float_ok (PStr s)) as [v E].
  exists v. split; [exact E |]. split.
  - intros _. exact (to_float_fixpoint _ _ E).
  - intros M. unfold to_float in E. cbn [py_str] in E.
    destruct (split_ws s) as [| tok rest].
    + cbn in E. congruence.
    + specialize (M tok rest eq_refl). cbn [index0 bind] in E.
      destruct (py_float tok) as [w | e]; [discriminate M |].
      cbn in E. congruence.
Qed.

(** The text "120 kcal" parses to 120.0, whose text "120.0" parses to
    120.0 again. *)
Lemma to_float_round_trip_sample :
  to_float (PStr "120 kcal") = Ok (S754_finite false 8444249301319680 (-46)) /\
  float_repr (S754_finite false 8444249301319680 (-46)) = "120.0" /\
  to_float (PStr "120.0") = Ok (S754_finite false 8444249301319680 (-46)).
Proof.
  destruct (to_float_round_trip "120 kcal") as (v & E & R & _).
  assert (V : S754_finite false 8444249301319680 (-46) = v).
  { vm_compute in E. injection E as E. exact E. }
  destruct V.
  destruct (R eq_refl) as [R1 _].
  split; [exact E |].
  assert (T : float_repr (S754_finite false 8444249301319680 (-46)) = "120.0")
    by (vm_compute; reflexivity).
  split; [exact T |].
  rewrite <- T. exact R1.
Defined.

(** ** Sugar category and processing flag *)

Lemma float_of_Z_4 : float_of_Z 4 = S754_finite false 4503599627370496 (-50).
Proof. vm_compute. reflexivity. Qed.

Lemma float_of_Z_5 : float_of_Z 5 = S754_finite false 5629499534213120 (-50).
Proof. vm_compute. reflexivity. Qed.

Lemma float_of_Z_15 : float_of_Z 15 = S754_finite false 8444249301319680 (-49).
Proof. vm_compute. reflexivity. Qed.

(** Two numbers, neither of them NaN, are ordered one way or the other. *)
Lemma not_flt_fle (a b : float) :
  isnan a = false -> isnan b = false -> flt a b = false -> fle b a = true.
Proof.
  intros Na Nb H. destruct (fle b a) eqn:L; [reflexivity |].
  rewrite (not_fle_flt b a Nb Na L) in H. discriminate.
Qed.

Lemma flt_5_15 (s : float) :
  flt s (float_of_Z 5) = true -> fle s (float_of_Z 15) = true.
Proof.
  intros H. apply flt_fle. apply (flt_fle_trans s (float_of_Z 5)); [exact H |].
  vm_compute. reflexivity.
Qed.

(** X1.  [cat_sug] sends every sugar value to exactly one of four buckets:
    "Unknown" exactly when the value is null (NaN), "Low" exactly when it
    is below 5, "Moderate" exactly when it is at least 5 and at most 15,
    "High" exactly when it is above 15.  The lower boundary 5 is not
    "Low", the upper boundary 15 is "Moderate". *)
Theorem cat_sug_buckets (s : float) :
  (cat_sug s = "Unknown" <-> isnan s = true) /\
  (cat_sug s = "Low" <-> flt s (float_of_Z 5) = true) /\
  (cat_sug s = "Moderate" <->
     fle (float_of_Z 5) s = true /\ fle s (float_of_Z 15) = true) /\
  (cat_sug s = "High" <-> flt (float_of_Z 15) s = true) /\
  cat_sug (float_of_Z 5) = "Moderate" /\
  cat_sug (float_of_Z 15) = "Moderate".
Proof.
  assert (B5 : cat_sug (float_of_Z 5) = "Moderate") by (vm_compute; reflexivity).
  assert (B15 : cat_sug (float_of_Z 15) = "Moderate")
    by (vm_compute; reflexivity).
  unfold cat_sug in *.
  destruct (isnan s) eqn:N.
  - destruct s; try discriminate.
    repeat split; intros; try discriminate; try reflexivity; try tauto.
    destruct H; discriminate.
  - assert (N5 : isnan (float_of_Z 5) = false)
      by (rewrite float_of_Z_5; reflexivity).
    assert (N15 : isnan (float_of_Z 15) = false)
      by (rewrite float_of_Z_15; reflexivity).
    destruct (flt s (float_of_Z 5)) eqn:L.
    + pose proof (flt_not_fle _ _ L) as L'.
      pose proof (flt_5_15 s L) as M.
      pose proof (fle_not_flt _ _ M) as M'.
      repeat split; intros; try discriminate; try reflexivity; try tauto;
        try congruence.
      destruct H; congruence.
    + pose proof (not_flt_fle _ _ N N5 L) as L'.
      destruct (fle s (float_of_Z 15)) eqn:M.
      * pose proof (fle_not_flt _ _ M) as M'.
        repeat split; intros; try discriminate; try reflexivity; try tauto;
          try congruence.
      * pose proof (not_fle_flt _ _ N N15 M) as M'.
        repeat split; intros; try discriminate; try reflexivity; try tauto;
          try congruence.
        destruct H; congruence.
Qed.

Lemma feq_4 (n : float) : feq n (float_of_Z 4) = true <-> n = float_of_Z 4.
Proof.
  rewrite float_of_Z_4. unfold feq, SFeqb.
  split.
  - destruct n as [s | s | | s m e]; cbv beta iota delta [SFcompare];
      try discriminate; try (destruct s; discriminate).
    destruct s; try discriminate.
    destruct (Z.compare_spec e (-50)); try discriminate. subst e.
    rewrite Pos.compare_cont_spec. cbn [Pos.switch_Eq].
    destruct (Pos.compare_spec m 4503599627370496); try discriminate.
    subst m. reflexivity.
  - intros ->. vm_compute. reflexivity.
Qed.

(** X2.  The processing flag of a row is "Yes" exactly when its NOVA group
    is the number 4, "Unknown" exactly when the group is null (NaN), and
    "No" exactly when the group is a number other than 4. *)
Theorem is_ultra_processed_cases (n : float) :
  (is_ultra_processed n = "Yes" <-> n = float_of_Z 4) /\
  (is_ultra_processed n = "Unknown" <-> isnan n = true) /\
  (is_ultra_processed n = "No" <-> isnan n = false /\ n <> float_of_Z 4).
Proof.
  unfold is_ultra_processed.
  destruct (feq n (float_of_Z 4)) eqn:E.
  - apply feq_4 in E. subst n.
    repeat split; intros; try discriminate; try reflexivity.
    + destruct H as [_ H]. congruence.
  - assert (NE : n <> float_of_Z 4).
    { intros H. apply feq_4 in H. congruence. }
    destruct (isnan n) eqn:N; cbn [negb];
      repeat split; intros; try discriminate; try reflexivity;
        try congruence; try tauto.
    destruct H; congruence.
Qed.

(** ** Normalised brands are stable *)

Lemma to_upper_cases (c : ascii) :
  to_upper (to_upper c) = to_upper c /\ to_lower (to_lower c) = to_lower c /\
  to_upper (to_lower c) = to_upper c /\ to_lower (to_upper c) = to_lower c /\
  is_cased (to_upper c) = is_cased c /\ is_cased (to_lower c) = is_cased c /\
  is_space (to_upper c) = is_space c /\ is_space (to_lower c) = is_space c /\
  Ascii.eqb (to_upper c) "," = Ascii.eqb c "," /\
  Ascii.eqb (to_lower c) "," = Ascii.eqb c ",".
Proof.
  destruct c as [[] [] [] [] [] [] [] []]; vm_compute; repeat split.
Qed.

Lemma title_aux_idem (s : string) : forall p,
  title_aux p (title_aux p s) = title_aux p s.
Proof.
  induction s as [| c s IH]; intros p; [reflexivity |].
  destruct (to_upper_cases c) as (U1 & L1 & _ & _ & CU & CL & _).
  cbn [title_aux]. destruct p.
  - rewrite L1, CL, IH. reflexivity.
  - rewrite U1, CU, IH. reflexivity.
Qed.

Lemma title_aux_no_comma (s : string) : forall p,
  no_comma (title_aux p s) = no_comma s.
Proof.
  induction s as [| c s IH]; intros p; [reflexivity |].
  destruct (to_upper_cases c) as (_ & _ & _ & _ & _ & _ & _ & _ & KU & KL).
  cbn [title_aux no_comma]. rewrite IH. destruct p; rewrite ?KU, ?KL; reflexivity.
Qed.

Lemma title_aux_rstrip (s : string) : forall p,
  rstrip (title_aux p s) = title_aux p (rstrip s).
Proof.
  induction s as [| c s IH]; intros p; [reflexivity |].
  destruct (to_upper_cases c) as (_ & _ & _ & _ & _ & _ & SU & SL & _).
  cbn [title_aux rstrip]. rewrite IH.
  destruct (rstrip s) as [| d r] eqn:R.
  - cbn [title_aux].
    destruct p; rewrite ?SU, ?SL; destruct (is_space c); reflexivity.
  - cbn [title_aux]. reflexivity.
Qed.

Lemma rstrip_idem (s : string) : rstrip (rstrip s) = rstrip s.
Proof.
  induction s as [| c s IH]; [reflexivity |].
  cbn [rstrip]. destruct (rstrip s) as [| d r] eqn:R.
  - destruct (is_space c) eqn:S; [reflexivity |].
    cbn [rstrip]. rewrite S. reflexivity.
  - cbn [rstrip]. cbn [rstrip] in IH. rewrite IH. reflexivity.
Qed.

(** A stripped text is empty or starts with something other than
    whitespace. *)
Lemma lstrip_head (s : string) :
  lstrip s = "" \/ exists c r, lstrip s = String c r /\ is_space c = false.
Proof.
  induction s as [| c s IH]; [left; reflexivity |].
  cbn [lstrip]. destruct (is_space c) eqn:S; [exact IH |].
  right. exists c, s. auto.
Qed.

Lemma rstrip_head (c : ascii) (s : string) :
  is_space c = false -> exists r, rstrip (String c s) = String c r.
Proof.
  intros S. cbn [rstrip]. destruct (rstrip s); rewrite ?S; eauto.
Qed.

Lemma strip_shape (s : string) :
  strip s = "" \/
  exists c r, strip s = String c r /\ is_space c = false
              /\ rstrip (String c r) = String c r.
Proof.
  unfold strip. destruct (lstrip_head s) as [-> | (c & r & -> & S)].
  - left. reflexivity.
  - right. destruct (rstrip_head c r S) as [r' E].
    exists c, r'. split; [exact E |]. split; [exact S |].
    rewrite <- E. apply rstrip_idem.
Qed.

Lemma first_segment_no_comma (s : string) : no_comma (first_segment s) = true.
Proof.
  induction s as [| c s IH]; [reflexivity |].
  cbn [first_segment]. destruct (Ascii.eqb c ",") eqn:E; [reflexivity |].
  cbn [no_comma]. rewrite E, IH. reflexivity.
Qed.

Lemma first_segment_whole (s : string) :
  no_comma s = true -> first_segment s = s.
Proof.
  induction s as [| c s IH]; [reflexivity |].
  cbn [no_comma first_segment]. intros H.
  apply andb_prop in H. destruct H as [H1 H2].
  apply negb_true_iff in H1. rewrite H1, (IH H2). reflexivity.
Qed.

Lemma lstrip_no_comma (s : string) :
  no_comma s = true -> no_comma (lstrip s) = true.
Proof.
  induction s as [| c s IH]; [reflexivity |].
  cbn [no_comma lstrip]. intros H.
  destruct (is_space c).
  - apply andb_prop in H. apply IH. tauto.
  - exact H.
Qed.

Lemma rstrip_no_comma (s : string) :
  no_comma s = true -> no_comma (rstrip s) = true.
Proof.
  induction s as [| c s IH]; [reflexivity |].
  cbn [no_comma rstrip]. intros H.
  apply andb_prop in H. destruct H as [H1 H2].
  specialize (IH H2).
  destruct (rstrip s) as [| d r].
  - destruct (is_space c); [reflexivity |].
    cbn [no_comma]. rewrite H1. reflexivity.
  - cbn [no_comma] in *. rewrite H1, IH. reflexivity.
Qed.

(** The result of [normalize_brand] on a value that is not "Unknown". *)
Lemma normalized_text (t : string) :
  t <> "" -> no_comma t = true ->
  (exists c r, t = String c r /\ is_space c = false) ->
  rstrip t = t -> title t = t ->
  normalize_brand (PStr t) = Ok t.
Proof.
  intros NE NC (c & r & E & S) R T.
  unfold normalize_brand.
  assert (Tr : truthy (PStr t) = true) by (subst t; reflexivity).
  rewrite Tr. cbn [negb py_str].
  destruct (split_on_first_segment t) as [more ->].
  cbn [index0 bind]. rewrite (first_segment_whole t NC).
  assert (St : strip t = t).
  { unfold strip. subst t. cbn [lstrip]. rewrite S. exact R. }
  rewrite St, Tr, T. reflexivity.
Qed.

(** X3.  Normalising a brand twice changes nothing: on ASCII text, the
    result of [normalize_brand] is never empty, holds no comma, has no
    whitespace around it, and is returned as it is when it is normalised
    again. *)
Theorem normalize_brand_idempotent (b : scalar) (t : string) :
  is_ascii (py_str b) = true ->
  normalize_brand b = Ok t ->
  t <> "" /\ no_comma t = true /\ strip t = t /\
  normalize_brand (PStr t) = Ok t.
Proof.
  intros _ H.
  assert (U : "Unknown" <> "" /\ no_comma "Unknown" = true
              /\ strip "Unknown" = "Unknown"
              /\ normalize_brand (PStr "Unknown") = Ok "Unknown").
  { split; [discriminate |]. vm_compute. repeat split. }
  unfold normalize_brand in H.
  destruct (truthy b); cbn [negb] in H; [| injection H as <-; exact U].
  destruct (split_on_first_segment (py_str b)) as [more E].
  rewrite E in H. cbn [index0 bind] in H.
  pose proof (rstrip_no_comma _ (lstrip_no_comma _
                (first_segment_no_comma (py_str b)))) as NC.
  fold (strip (first_segment (py_str b))) in NC.
  destruct (strip_shape (first_segment (py_str b)))
    as [Z | (c & r & Z & S & R)]; rewrite Z in H, NC.
  - cbn in H. injection H as <-. exact U.
  - assert (Tr : truthy (PStr (String c r)) = true) by reflexivity.
    rewrite Tr in H. injection H as <-.
    destruct (to_upper_cases c) as (_ & _ & _ & _ & _ & _ & SU & _).
    assert (T1 : title (String c r) <> "") by discriminate.
    assert (T2 : no_comma (title (String c r)) = true).
    { unfold title. rewrite title_aux_no_comma. exact NC. }
    assert (T3 : exists c' r', title (String c r) = String c' r'
                               /\ is_space c' = false).
    { exists (to_upper c), (title_aux (is_cased c) r).
      split; [reflexivity |]. rewrite SU. exact S. }
    assert (T4 : rstrip (title (String c r)) = title (String c r)).
    { unfold title. rewrite title_aux_rstrip, R. reflexivity. }
    assert (T5 : title (title (String c r)) = title (String c r)).
    { unfold title. apply title_aux_idem. }
    split; [exact T1 |]. split; [exact T2 |].
    split.
    + unfold strip. destruct T3 as (c' & r' & E3 & S3).
      rewrite E3 in *. cbn [lstrip]. rewrite S3. exact T4.
    + apply normalized_text; assumption.
Qed.

Lemma normalize_brand_idempotent_sample :
  normalize_brand (PStr "  ferrero rocher ,IT") = Ok "Ferrero Rocher" /\
  normalize_brand (PStr "Ferrero Rocher") = Ok "Ferrero Rocher".
Proof.
  assert (H : normalize_brand (PStr "  ferrero rocher ,IT")
              = Ok "Ferrero Rocher") by (vm_compute; reflexivity).
  split; [exact H |].
  exact (proj2 (proj2 (proj2
    (normalize_brand_idempotent (PStr "  ferrero rocher ,IT")
       "Ferrero Rocher" eq_refl H)))).
Defined.

(** ** The tables of the cleaning step hold one row per code *)









Lemma Forall2_map_l {A B C : Type} (R : C -> B -> Prop) (f : A -> C)
    (l : list A) (m : list B) :
  Forall2 (fun a b => R (f a) b) l m -> Forall2 R (map f l) m.
Proof. induction 1; constructor; assumption. Qed.




(** ** The text of a number in a file *)


















(** ** The derived columns, row by row *)

Lemma setcol_step (df : DataFrame) (name : string) (vals : list scalar) :
  wf_frame df -> List.length vals = List.length (rows df) ->
  wf_frame (setcol df name vals) /\
  List.length (rows (setcol df name vals)) = List.length (rows df) /\
  getcol (setcol df name vals) name = Ok vals /\
  (forall other, other <> name ->
     getcol (setcol df name vals) other = getcol df other).
Proof.
  intros W L. split; [apply wf_setcol; exact W |].
  split; [apply length_rows_setcol; exact L |].
  split; [apply getcol_setcol_same; assumption |].
  intros other NE. apply getcol_setcol_other; assumption.
Qed.

Lemma zip_with_map {A B A' B' C : Type} (f : A' -> B' -> C) (g : A -> A')
    (h : B -> B') (l : list A) (m : list B) :
  zip_with f (map g l) (map h m) = zip_with (fun a b => f (g a) (h b)) l m.
Proof.
  revert m. induction l as [| a l IH]; intros [| b m]; cbn; try reflexivity.
  rewrite IH. reflexivity.
Qed.

Lemma length_zip_with_same {A B C : Type} (f : A -> B -> C) (l : list A)
    (m : list B) (k : nat) :
  List.length l = k -> List.length m = k -> List.length (zip_with f l m) = k.
Proof.
  intros <-. revert m. induction l as [| a l IH]; intros [| b m] H;
    cbn in *; try reflexivity; try discriminate.
  f_equal. apply IH. congruence.
Qed.

(** Feature engineering, column by column. *)
Lemma derive_features_columns (df : DataFrame) (s c e n : list scalar) :
  wf_frame df ->
  getcol df "sugars_value" = Ok s ->
  getcol df "carbohydrates_value" = Ok c ->
  getcol df "energy-kcal_value" = Ok e ->
  getcol df "nova-group" = Ok n ->
  exists df',
    derive_features df = Ok df' /\
    wf_frame df' /\
    List.length (rows df') = List.length (rows df) /\
    getcol df' "sugars_value" = Ok (map (fun x => PFloat (num_of x)) s) /\
    getcol df' "carbohydrates_value" = Ok (map (fun x => PFloat (num_of x)) c) /\
    getcol df' "energy-kcal_value" = Ok (map (fun x => PFloat (num_of x)) e) /\
    getcol df' "nova-group" = Ok (map (fun x => PFloat (num_of x)) n) /\
    getcol df' "sugar_to_carb_ratio"
    = Ok (zip_with (fun x y => PFloat (sugar_to_carb_ratio (num_of x) (num_of y)))
                   s c) /\
    getcol df' "calorie_category" = Ok (map (fun x => PStr (cat_cal (num_of x))) e) /\
    getcol df' "sugar_category" = Ok (map (fun x => PStr (cat_sug (num_of x))) s) /\
    getcol df' "is_ultra_processed"
    = Ok (map (fun x => PStr (is_ultra_processed (num_of x))) n) /\
    (forall name, ~ In name derived_names -> getcol df' name = getcol df name).
Proof.
  intros W Hs Hc He Hn.
  pose proof (getcol_length _ _ _ Hs) as Ls.
  pose proof (getcol_length _ _ _ Hc) as Lc.
  pose proof (getcol_length _ _ _ He) as Le.
  pose proof (getcol_length _ _ _ Hn) as Ln.
  unfold derive_features, update_col, apply_col, safe_num.
  (* sugars_value *)
  rewrite Hs. cbn [bind].
  destruct (setcol_step df "sugars_value" (map (fun x => PFloat (num_of x)) s) W)
    as (W1 & L1 & S1 & O1); [rewrite length_map; exact Ls |].
  set (d1 := setcol df "sugars_value" _) in *.
  (* carbohydrates_value *)
  rewrite (O1 "carbohydrates_value"), Hc by discriminate. cbn [bind].
  destruct (setcol_step d1 "carbohydrates_value"
              (map (fun x => PFloat (num_of x)) c) W1)
    as (W2 & L2 & S2 & O2); [rewrite length_map; congruence |].
  set (d2 := setcol d1 "carbohydrates_value" _) in *.
  (* energy-kcal_value *)
  rewrite (O2 "energy-kcal_value"), (O1 "energy-kcal_value"), He
    by discriminate. cbn [bind].
  destruct (setcol_step d2 "energy-kcal_value"
              (map (fun x => PFloat (num_of x)) e) W2)
    as (W3 & L3 & S3 & O3); [rewrite length_map; congruence |].
  set (d3 := setcol d2 "energy-kcal_value" _) in *.
  (* nova-group *)
  rewrite (O3 "nova-group"), (O2 "nova-group"), (O1 "nova-group"), Hn
    by discriminate. cbn [bind].
  destruct (setcol_step d3 "nova-group"
              (map (fun x => PFloat (num_of x)) n) W3)
    as (W4 & L4 & S4 & O4); [rewrite length_map; congruence |].
  set (d4 := setcol d3 "nova-group" _) in *.
  (* sugar_to_carb_ratio *)
  rewrite (O4 "carbohydrates_value"), (O3 "carbohydrates_value"), S2
    by discriminate. cbn [bind].
  rewrite (O4 "sugars_value"), (O3 "sugars_value"), (O2 "sugars_value"), S1
    by discriminate. cbn [bind].
  rewrite zip_with_map. cbn [num_of].
  set (ratio := zip_with _ s c).
  destruct (setcol_step d4 "sugar_to_carb_ratio" ratio W4)
    as (W5 & L5 & S5 & O5).
  { apply length_zip_with_same; congruence. }
  set (d5 := setcol d4 "sugar_to_carb_ratio" _) in *.
  (* calorie_category *)
  rewrite (O5 "energy-kcal_value"), (O4 "energy-kcal_value"), S3
    by discriminate. cbn [bind].
  rewrite map_map. cbn [num_of].
  destruct (setcol_step d5 "calorie_category"
              (map (fun x => PStr (cat_cal (num_of x))) e) W5)
    as (W6 & L6 & S6 & O6); [rewrite length_map; congruence |].
  set (d6 := setcol d5 "calorie_category" _) in *.
  (* sugar_category *)
  rewrite (O6 "sugars_value"), (O5 "sugars_value"), (O4 "sugars_value"),
    (O3 "sugars_value"), (O2 "sugars_value"), S1 by discriminate.
  cbn [bind]. rewrite map_map. cbn [num_of].
  destruct (setcol_step d6 "sugar_category"
              (map (fun x => PStr (cat_sug (num_of x))) s) W6)
    as (W7 & L7 & S7 & O7); [rewrite length_map; congruence |].
  set (d7 := setcol d6 "sugar_category" _) in *.
  (* is_ultra_processed *)
  rewrite (O7 "nova-group"), (O6 "nova-group"), (O5 "nova-group"), S4
    by discriminate.
  cbn [bind]. rewrite map_map. cbn [num_of].
  destruct (setcol_step d7 "is_ultra_processed"
              (map (fun x => PStr (is_ultra_processed (num_of x))) n) W7)
    as (W8 & L8 & S8 & O8); [rewrite length_map; congruence |].
  set (d8 := setcol d7 "is_ultra_processed" _) in *.
  exists d8. split; [reflexivity |]. split; [exact W8 |].
  split; [congruence |].
  split.
  { rewrite (O8 "sugars_value"), (O7 "sugars_value"), (O6 "sugars_value"),
      (O5 "sugars_value"), (O4 "sugars_value"), (O3 "sugars_value"),
      (O2 "sugars_value") by discriminate. exact S1. }
  split.
  { rewrite (O8 "carbohydrates_value"), (O7 "carbohydrates_value"),
      (O6 "carbohydrates_value"), (O5 "carbohydrates_value"),
      (O4 "carbohydrates_value"), (O3 "carbohydrates_value") by discriminate.
    exact S2. }
  split.
  { rewrite (O8 "energy-kcal_value"), (O7 "energy-kcal_value"),
      (O6 "energy-kcal_value"), (O5 "energy-kcal_value"),
      (O4 "energy-kcal_value") by discriminate. exact S3. }
  split.
  { rewrite (O8 "nova-group"), (O7 "nova-group"), (O6 "nova-group"),
      (O5 "nova-group") by discriminate. exact S4. }
  split.
  { rewrite (O8 "sugar_to_carb_ratio"), (O7 "sugar_to_carb_ratio"),
      (O6 "sugar_to_carb_ratio") by discriminate. exact S5. }
  split.
  { rewrite (O8 "calorie_category"), (O7 "calorie_category") by discriminate.
    exact S6. }
  split.
  { rewrite (O8 "sugar_category") by discriminate. exact S7. }
  split; [exact S8 |].
  intros name N. cbn [derived_names In] in N.
  rewrite O8, O7, O6, O5, O4, O3, O2, O1 by (intros ->; tauto).
  reflexivity.
Qed.

(** X7.  Each derived field of a row is a function of that row's own
    sugars, carbohydrates, energy and NOVA group: on a table that has the
    four columns, feature engineering succeeds, keeps the rows and every
    other column, makes the four columns numeric, and fills the ratio,
    the two categories and the processing flag row by row. *)
Theorem derive_features_rowwise (df : DataFrame) (s c e n : list scalar) :
  wf_frame df ->
  getcol df "sugars_value" = Ok s ->
  getcol df "carbohydrates_value" = Ok c ->
  getcol df "energy-kcal_value" = Ok e ->
  getcol df "nova-group" = Ok n ->
  exists df',
    derive_features df = Ok df' /\
    wf_frame df' /\
    List.length (rows df') = List.length (rows df) /\
    getcol df' "sugars_value" = Ok (map (fun x => PFloat (num_of x)) s) /\
    getcol df' "carbohydrates_value" = Ok (map (fun x => PFloat (num_of x)) c) /\
    getcol df' "energy-kcal_value" = Ok (map (fun x => PFloat (num_of x)) e) /\
    getcol df' "nova-group" = Ok (map (fun x => PFloat (num_of x)) n) /\
    getcol df' "sugar_to_carb_ratio"
    = Ok (zip_with (fun x y => PFloat (sugar_to_carb_ratio (num_of x) (num_of y)))
                   s c) /\
    getcol df' "calorie_category" = Ok (map (fun x => PStr (cat_cal (num_of x))) e) /\
    getcol df' "sugar_category" = Ok (map (fun x => PStr (cat_sug (num_of x))) s) /\
    getcol df' "is_ultra_processed"
    = Ok (map (fun x => PStr (is_ultra_processed (num_of x))) n) /\
    (forall name, ~ In name derived_names -> getcol df' name = getcol df name).
Proof. exact (derive_features_columns df s c e n). Qed.


Lemma derive_features_rowwise_sample :
  exists df',
    derive_features sample_engineered = Ok df' /\
    getcol df' "calorie_category" = Ok [PStr "High"; PStr "Low"].
Proof.
  destruct (getcol sample_engineered "sugars_value") as [s |] eqn:Hs;
    [| vm_compute in Hs; discriminate].
  destruct (getcol sample_engineered "carbohydrates_value") as [c |] eqn:Hc;
    [| vm_compute in Hc; discriminate].
  destruct (getcol sample_engineered "energy-kcal_value") as [e |] eqn:He;
    [| vm_compute in He; discriminate].
  destruct (getcol sample_engineered "nova-group") as [n |] eqn:Hn;
    [| vm_compute in Hn; discriminate].
  destruct (derive_features_rowwise sample_engineered s c e n
              wf_sample_engineered Hs Hc He Hn)
    as (df' & E & _ & _ & _ & _ & _ & _ & _ & C & _).
  exists df'. split; [exact E |].
  rewrite C. vm_compute in He. injection He as <-.
  vm_compute. reflexivity.
Defined.

Lemma getcol_present (df : DataFrame) (name : string) :
  (exists i, index_of name (columns df) = Some i) ->
  exists c, getcol df name = Ok c /\ List.length c = List.length (rows df).
Proof.
  intros [i E]. exists (map (cell_at i) (rows df)).
  split; [apply getcol_index; exact E | apply length_map].
Qed.

(** X8.  Feature engineering needs its four numeric columns: when one is
    missing, it raises the [KeyError] of the first missing one, in the
    order sugars, carbohydrates, energy, NOVA group, and returns no
    table. *)
Theorem derive_features_missing_column (df : DataFrame) (name : string) :
  wf_frame df ->
  first_missing df ["sugars_value"; "carbohydrates_value";
                    "energy-kcal_value"; "nova-group"] = Some name ->
  derive_features df = Raise (KeyError name).
Proof.
  intros W. unfold first_missing. cbn [find].
  unfold derive_features, update_col, safe_num.
  destruct (index_of "sugars_value" (columns df)) as [i1 |] eqn:E1.
  2:{ intros [= <-]. rewrite (getcol_absent _ _ E1). reflexivity. }
  destruct (getcol_present df "sugars_value" (ex_intro _ _ E1)) as (s & Hs & Ls).
  rewrite Hs. cbn [bind].
  destruct (setcol_step df "sugars_value" (map (fun x => PFloat (num_of x)) s) W)
    as (W1 & L1 & S1 & O1); [rewrite length_map; exact Ls |].
  set (d1 := setcol df "sugars_value" _) in *.
  rewrite (O1 "carbohydrates_value") by discriminate.
  destruct (index_of "carbohydrates_value" (columns df)) as [i2 |] eqn:E2.
  2:{ intros [= <-]. rewrite (getcol_absent _ _ E2). reflexivity. }
  destruct (getcol_present df "carbohydrates_value" (ex_intro _ _ E2))
    as (c & Hc & Lc).
  rewrite Hc. cbn [bind].
  destruct (setcol_step d1 "carbohydrates_value"
              (map (fun x => PFloat (num_of x)) c) W1)
    as (W2 & L2 & S2 & O2); [rewrite length_map; congruence |].
  set (d2 := setcol d1 "carbohydrates_value" _) in *.
  rewrite (O2 "energy-kcal_value"), (O1 "energy-kcal_value") by discriminate.
  destruct (index_of "energy-kcal_value" (columns df)) as [i3 |] eqn:E3.
  2:{ intros [= <-]. rewrite (getcol_absent _ _ E3). reflexivity. }
  destruct (getcol_present df "energy-kcal_value" (ex_intro _ _ E3))
    as (e & He & Le).
  rewrite He. cbn [bind].
  destruct (setcol_step d2 "energy-kcal_value"
              (map (fun x => PFloat (num_of x)) e) W2)
    as (W3 & L3 & S3 & O3); [rewrite length_map; congruence |].
  set (d3 := setcol d2 "energy-kcal_value" _) in *.
  rewrite (O3 "nova-group"), (O2 "nova-group"), (O1 "nova-group")
    by discriminate.
  destruct (index_of "nova-group" (columns df)) as [i4 |] eqn:E4.
  2:{ intros [= <-]. rewrite (getcol_absent _ _ E4). reflexivity. }
  discriminate.
Qed.

Lemma derive_features_missing_column_sample :
  derive_features (drop_column "energy-kcal_value" sample_engineered)
  = Raise (KeyError "energy-kcal_value").
Proof.
  apply derive_features_missing_column.
  - apply Forall_forall. intros r I. vm_compute in I.
    repeat (destruct I as [<- | I]; [reflexivity |]). destruct I.
  - vm_compute. reflexivity.
Defined.

(** ** Fetching *)

(** X9.  [_get_products] asks at most four times and never raises: it
    returns the products of the first attempt that succeeds (an absent,
    null or empty list as the empty list) after sleeping 1, 2, ... seconds
    for the failures before it, and the empty list, after sleeping 1, 2, 3
    and 4 seconds, when the four attempts fail.  What a fifth attempt
    would bring does not matter. *)
Theorem get_products_retries {A : Type} (net : nat -> reply A) :
  (forall k ps,
     (k < 4)%nat -> (forall j, (j < k)%nat -> net j = Failed) ->
     net k = Body ps ->
     _get_products net
     = (or_empty ps, map (fun j => 1 + Z.of_nat j) (seq 0 k))) /\
  ((forall j, (j < 4)%nat -> net j = Failed) ->
   _get_products net = ([], [1; 2; 3; 4])) /\
  (forall net' : nat -> reply A,
     (forall j, (j < 4)%nat -> net' j = net j) ->
     _get_products net' = _get_products net) /\
  (List.length (snd (_get_products net)) <= 4)%nat /\
  fold_right Z.add 0 (snd (_get_products net)) <= 10.
Proof.
  unfold _get_products.
  split; [| split; [| split]].
  - intros k ps K F B.
    destruct k as [| [| [| [| k]]]]; try lia; cbn [get_attempts].
    + rewrite B. reflexivity.
    + rewrite (F 0%nat) by lia. rewrite B. reflexivity.
    + rewrite (F 0%nat), (F 1%nat) by lia. rewrite B. reflexivity.
    + rewrite (F 0%nat), (F 1%nat), (F 2%nat) by lia. rewrite B. reflexivity.
  - intros F. cbn [get_attempts].
    rewrite (F 0%nat), (F 1%nat), (F 2%nat), (F 3%nat) by lia. reflexivity.
  - intros net' E. cbn [get_attempts].
    rewrite (E 0%nat), (E 1%nat), (E 2%nat), (E 3%nat) by lia. reflexivity.
  - cbn [get_attempts].
    destruct (net 0%nat); [| cbn; lia].
    destruct (net 1%nat); [| cbn; lia].
    destruct (net 2%nat); [| cbn; lia].
    destruct (net 3%nat); cbn; lia.
Qed.

Lemma get_products_retries_sample :
  _get_products (fun j => match j with
                          | O => Failed
                          | 1%nat => Failed
                          | _ => Body (Some [7; 8])
                          end)
  = ([7; 8], [1; 2]).
Proof.
  apply (proj1 (get_products_retries
                  (fun j => match j with
                            | O => Failed
                            | 1%nat => Failed
                            | _ => Body (Some [7; 8])
                            end)) 2%nat (Some [7; 8])).
  - lia.
  - intros [| [| j]] H; [reflexivity | reflexivity | lia].
  - reflexivity.
Defined.

Lemma page_list_cons {A : Type} (get : Z -> list A) (page : Z) (k : nat) :
  page_list get page (S k) = (get page ++ page_list get (page + 1) k)%list.
Proof.
  unfold page_list. cbn [seq flat_map].
  rewrite Z.add_0_r. f_equal.
  rewrite <- seq_shift, flat_map_concat_map, map_map, <- flat_map_concat_map.
  apply flat_map_ext. intros i. f_equal. lia.
Qed.

Lemma page_calls_cons (src : source) (page : Z) (k : nat) :
  page_calls src page (S k) = (src, page) :: page_calls src (page + 1) k.
Proof.
  unfold page_calls. cbn [seq map].
  rewrite Z.add_0_r. f_equal.
  rewrite <- seq_shift, map_map.
  apply map_ext. intros i. f_equal. lia.
Qed.

(** The loop over the pages of a source ends, with enough fuel: it takes
    [k] pages, none of them empty, each asked for while fewer than
    [max_records] were held, and stops either because [max_records] is
    reached or because the next page, asked for as well, is empty. *)
Lemma fetch_source_spec {A : Type} (net : source -> Z -> nat -> reply A)
    (max_records : Z) (src : source) :
  forall (fuel : nat) (page : Z) (st : FetchState A),
    total st = Z.of_nat (List.length (all_prods st)) ->
    max_records - total st <= Z.of_nat fuel ->
    exists (k asked : nat),
      let get := fun p => fst (_get_products (net src p)) in
      let all' := (all_prods st ++ page_list get page k)%list in
      fetch_source fuel net max_records src page st
      = Some (mkFetch all' (Z.of_nat (List.length all'))
                      (requested st ++ page_calls src page asked)%list) /\
      (forall i, (i < k)%nat -> get (page + Z.of_nat i) <> []) /\
      (forall i, (i < k)%nat ->
         Z.of_nat (List.length (all_prods st ++ page_list get page i)%list)
         < max_records) /\
      ((asked = k /\ max_records <= Z.of_nat (List.length all')) \/
       (asked = S k /\ get (page + Z.of_nat k) = [] /\
        Z.of_nat (List.length all') < max_records)).
Proof.
  induction fuel as [| fuel IH]; intros page st T F; cbv zeta.
  - exists 0%nat, 0%nat.
    assert (C : (total st <? max_records) = false) by (apply Z.ltb_ge; lia).
    cbn [fetch_source]. rewrite C.
    unfold page_list, page_calls. cbn [seq flat_map map].
    rewrite !app_nil_r, <- T.
    split; [destruct st; reflexivity |].
    split; [intros i Hi; lia |]. split; [intros i Hi; lia |].
    left. split; [reflexivity | lia].
  - cbn [fetch_source].
    destruct (total st <? max_records) eqn:C.
    2:{ apply Z.ltb_ge in C. exists 0%nat, 0%nat.
        unfold page_list, page_calls. cbn [seq flat_map map].
        rewrite !app_nil_r, <- T.
        split; [destruct st; reflexivity |].
        split; [intros i Hi; lia |]. split; [intros i Hi; lia |].
        left. split; [reflexivity | lia]. }
    apply Z.ltb_lt in C.
    destruct (fst (_get_products (net src page))) as [| a prods] eqn:G.
    + exists 0%nat, 1%nat.
      unfold page_list, page_calls. cbn [seq flat_map map].
      rewrite !app_nil_r, Z.add_0_r, <- T.
      split; [reflexivity |].
      split; [intros i Hi; lia |]. split; [intros i Hi; lia |].
      right. split; [reflexivity |]. split; [exact G | lia].
    + set (all1 := (all_prods st ++ a :: prods)%list).
      cbn [total].
      assert (L1 : Z.of_nat (List.length all1)
                   = total st + 1 + Z.of_nat (List.length prods)).
      { unfold all1. rewrite length_app. cbn [List.length]. lia. }
      destruct (max_records <=? Z.of_nat (List.length all1)) eqn:M.
      * apply Z.leb_le in M. exists 1%nat, 1%nat.
        rewrite page_list_cons, page_calls_cons.
        unfold page_list, page_calls. cbn [seq flat_map map].
        rewrite app_nil_r, G. fold all1.
        split; [reflexivity |].
        split.
        { intros i Hi. assert (i = 0%nat) by lia. subst i.
          rewrite Z.add_0_r, G. discriminate. }
        split.
        { intros i Hi. assert (i = 0%nat) by lia. subst i.
          cbn [seq flat_map]. rewrite app_nil_r. lia. }
        left. split; [reflexivity | exact M].
      * apply Z.leb_gt in M.
        destruct (IH (page + 1)
                     (mkFetch all1 (Z.of_nat (List.length all1))
                              (requested st ++ [(src, page)])%list))
          as (k & asked & E & N & B & D); [reflexivity | cbn [total]; lia |].
        cbv zeta in E, N, B, D. cbn [all_prods requested] in E, N, B, D.
        exists (S k), (S asked).
        rewrite page_list_cons, page_calls_cons, G.
        assert (EA : forall l, (all_prods st ++ (a :: prods) ++ l)%list
                               = (all1 ++ l)%list).
        { intros l. unfold all1. rewrite <- app_assoc. reflexivity. }
        rewrite EA.
        assert (ER : forall l, (requested st ++ (src, page) :: l)%list
                               = ((requested st ++ [(src, page)]) ++ l)%list).
        { intros l. rewrite <- app_assoc. reflexivity. }
        rewrite (ER (page_calls src (page + 1) asked)).
        split; [exact E |].
        split.
        { intros [| i] Hi.
          - rewrite Z.add_0_r, G. discriminate.
          - replace (page + Z.of_nat (S i)) with (page + 1 + Z.of_nat i) by lia.
            apply N. lia. }
        split.
        { intros [| i] Hi.
          - unfold page_list. cbn [seq flat_map]. rewrite app_nil_r. lia.
          - rewrite page_list_cons, G, EA. apply B. lia. }
        replace (page + Z.of_nat (S k)) with (page + 1 + Z.of_nat k) by lia.
        destruct D as [[S1 S2] | (S1 & S2 & S3)].
        -- left. split; [congruence | exact S2].
        -- right. split; [congruence |]. split; [exact S2 | exact S3].
Qed.

(** What a run of the fetch step does, in full. *)
Lemma step_fetch_combined_spec {A : Type}
    (net : source -> Z -> nat -> reply A) (max_records : Z) :
  exists (k1 a1 k2 a2 : nat) (out : Fetched A),
    let get := fun src p => fst (_get_products (net src p)) in
    let p1 := page_list (get Categories) 1 k1 in
    let p2 := page_list (get SearchTerms) 1 k2 in
    step_fetch_combined net max_records = Some out /\
    RAW_JSONL out = slice_to max_records (p1 ++ p2)%list /\
    returned out = Z.of_nat (List.length (RAW_JSONL out)) /\
    asked_pages out
    = (page_calls Categories 1 a1 ++ page_calls SearchTerms 1 a2)%list /\
    (forall i, (i < k1)%nat -> get Categories (1 + Z.of_nat i) <> []) /\
    (forall i, (i < k2)%nat -> get SearchTerms (1 + Z.of_nat i) <> []) /\
    (forall i, (i < k1)%nat ->
       Z.of_nat (List.length (page_list (get Categories) 1 i)) < max_records) /\
    (forall i, (i < k2)%nat ->
       Z.of_nat (List.length (p1 ++ page_list (get SearchTerms) 1 i)%list)
       < max_records) /\
    ((a1 = k1 /\ k2 = 0%nat /\ a2 = 0%nat /\
      max_records <= Z.of_nat (List.length p1)) \/
     (a1 = S k1 /\ get Categories (1 + Z.of_nat k1) = [] /\
      Z.of_nat (List.length p1) < max_records /\
      ((a2 = k2 /\ max_records <= Z.of_nat (List.length (p1 ++ p2)%list)) \/
       (a2 = S k2 /\ get SearchTerms (1 + Z.of_nat k2) = [] /\
        Z.of_nat (List.length (p1 ++ p2)%list) < max_records)))).
Proof.
  unfold step_fetch_combined.
  destruct (fetch_source_spec net max_records Categories
              (Z.to_nat max_records) 1 (mkFetch [] 0 []))
    as (k1 & a1 & E1 & N1 & B1 & D1); [reflexivity | cbn [total]; lia |].
  cbv zeta in E1, N1, B1, D1. cbn [all_prods requested app] in E1, N1, B1, D1.
  rewrite E1.
  set (get := fun src p => fst (_get_products (net src p))) in *.
  set (p1 := page_list (fun p => fst (_get_products (net Categories p))) 1 k1)
    in *.
  destruct (fetch_source_spec net max_records SearchTerms
              (Z.to_nat max_records) 1
              (mkFetch p1 (Z.of_nat (List.length p1))
                       (page_calls Categories 1 a1)))
    as (k2 & a2 & E2 & N2 & B2 & D2); [reflexivity | cbn [total]; lia |].
  cbv zeta in E2, N2, B2, D2. cbn [all_prods requested] in E2, N2, B2, D2.
  rewrite E2.
  exists k1, a1, k2, a2. eexists. cbv zeta.
  split; [reflexivity |]. cbn [RAW_JSONL returned asked_pages all_prods requested].
  split; [reflexivity |]. split; [reflexivity |]. split; [reflexivity |].
  split; [exact N1 |]. split; [exact N2 |]. split; [exact B1 |].
  split; [exact B2 |].
  destruct D1 as [[S1 S2] | (S1 & S2 & S3)].
  - left. split; [exact S1 |].
    assert (K : k2 = 0%nat).
    { destruct k2 as [| k2]; [reflexivity |]. exfalso.
      specialize (B2 0%nat ltac:(lia)).
      unfold page_list in B2. cbn [seq flat_map] in B2.
      rewrite app_nil_r in B2. lia. }
    subst k2. split; [reflexivity |]. split; [| exact S2].
    destruct D2 as [[T1 _] | (_ & _ & T3)]; [exact T1 |].
    exfalso. unfold page_list in T3. cbn [seq flat_map] in T3.
    rewrite app_nil_r in T3. lia.
  - right. split; [exact S1 |]. split; [exact S2 |]. split; [exact S3 |].
    exact D2.
Qed.







Lemma get_products_all_failed {A : Type} (net : nat -> reply A) :
  (forall j, (j < 4)%nat -> net j = Failed) -> fst (_get_products net) = [].
Proof.
  intros F. unfold _get_products. cbn [get_attempts].
  rewrite (F 0%nat), (F 1%nat), (F 2%nat), (F 3%nat) by lia. reflexivity.
Qed.

Lemma in_page_calls (src s : source) (page q : Z) (k : nat) :
  In (s, q) (page_calls src page k) ->
  s = src /\ exists i, (i < k)%nat /\ q = page + Z.of_nat i.
Proof.
  unfold page_calls. intros I. apply in_map_iff in I.
  destruct I as (i & E & I). apply in_seq in I.
  injection E as <- <-. split; [reflexivity |]. exists i. split; [lia | reflexivity].
Qed.

(** X12.  A page that fails four times ends its source: the failure is
    taken for an empty page, so no later page of that source is asked for,
    whatever it holds, and nothing is raised. *)
Theorem failed_page_ends_source {A : Type}
    (net : source -> Z -> nat -> reply A) (max_records : Z) (src : source)
    (p : Z) :
  1 <= p ->
  (forall j, (j < 4)%nat -> net src p j = Failed) ->
  exists out,
    step_fetch_combined net max_records = Some out /\
    forall q, p < q -> ~ In (src, q) (asked_pages out).
Proof.
  intros P F.
  pose proof (get_products_all_failed (net src p) F) as G.
  destruct (step_fetch_combined_spec net max_records)
    as (k1 & a1 & k2 & a2 & out & E & _ & _ & Q & N1 & N2 & _ & _ & D).
  cbv zeta in *.
  exists out. split; [exact E |].
  intros q Hq I. rewrite Q in I. apply in_app_or in I.
  destruct I as [I | I]; apply in_page_calls in I;
    destruct I as (-> & i & Hi & ->).
  - assert (Li : (Z.to_nat (p - 1) < k1)%nat).
    { destruct D as [(D1 & _) | (D1 & _)]; lia. }
    apply (N1 _ Li). rewrite Z2Nat.id by lia.
    replace (1 + (p - 1)) with p by lia. exact G.
  - assert (Li : (Z.to_nat (p - 1) < k2)%nat).
    { destruct D as [(_ & D1 & D2 & _) | (_ & _ & _ & [[D1 _] | (D1 & _)])];
        lia. }
    apply (N2 _ Li). rewrite Z2Nat.id by lia.
    replace (1 + (p - 1)) with p by lia. exact G.
Qed.

Lemma failed_page_ends_source_sample :
  exists out,
    step_fetch_combined
      (fun src p (_ : nat) =>
         match src with
         | Categories => if p =? 2 then Failed else Body (Some [p])
         | SearchTerms => Body None
         end) 10 = Some out /\
    ~ In (Categories, 3) (asked_pages out) /\
    RAW_JSONL out = [1].
Proof.
  destruct (failed_page_ends_source
              (fun src p (_ : nat) =>
                 match src with
                 | Categories => if p =? 2 then Failed else Body (Some [p])
                 | SearchTerms => Body None
                 end) 10 Categories 2 ltac:(lia) (fun _ _ => eq_refl))
    as (out & E & N).
  exists out. split; [exact E |]. split; [apply N; lia |].
  vm_compute in E. injection E as <-. reflexivity.
Defined.

(** ** The lines of the raw file *)

Lemma read_jsonl_app {A : Type} (loads : string -> result A)
    (l1 l2 : list string) :
  read_jsonl loads (l1 ++ l2) = (read_jsonl loads l1 ++ read_jsonl loads l2)%list.
Proof. unfold read_jsonl. apply flat_map_app. Qed.

Lemma lstrip_all_space (s : string) : all_space s = true -> lstrip s = "".
Proof.
  induction s as [| c s IH]; [reflexivity |].
  cbn [all_space lstrip]. intros H. apply andb_prop in H.
  destruct H as [H1 H2]. rewrite H1. exact (IH H2).
Qed.

Lemma strip_all_space (s : string) : all_space s = true -> strip s = "".
Proof. intros H. unfold strip. rewrite (lstrip_all_space s H). reflexivity. Qed.

Lemma mapM_app {A B : Type} (f : A -> result B) (l1 l2 : list A) :
  mapM f (l1 ++ l2)
  = (a <- mapM f l1 ;; b <- mapM f l2 ;; Ok (a ++ b)%list).
Proof.
  induction l1 as [| x l1 IH]; cbn [app mapM bind].
  - destruct (mapM f l2); reflexivity.
  - destruct (f x) as [y | e]; cbn [bind]; [| reflexivity].
    rewrite IH. destruct (mapM f l1) as [a | e]; cbn [bind]; [| reflexivity].
    destruct (mapM f l2); reflexivity.
Qed.

Lemma mapM_as_object_raises (vs : list json) :
  In JOther vs -> mapM as_object vs = Raise AttributeError.
Proof.
  induction vs as [| v vs IH]; intros I; [destruct I |].
  cbn [mapM]. destruct v as [p |]; cbn [as_object bind].
  - destruct I as [I | I]; [discriminate |]. rewrite (IH I). reflexivity.
  - reflexivity.
Qed.

(** X13.  The lines of the raw file: a blank line, or one that is not
    JSON, is skipped without a trace, the tables being those of the other
    lines; a line that is JSON but not an object (a list, a number, null)
    makes the cleaning step raise [AttributeError], and no table is
    written. *)
Theorem raw_lines_skipped_or_fatal (loads : string -> result json)
    (l1 l2 : list string) (line : string) :
  (all_space line = true \/ is_ok (loads (strip line)) = false ->
   read_jsonl loads (l1 ++ line :: l2) = read_jsonl loads (l1 ++ l2) /\
   step_clean_transform_file loads (l1 ++ line :: l2)
   = step_clean_transform_file loads (l1 ++ l2)) /\
  (strip line <> "" -> loads (strip line) = Ok JOther ->
   step_clean_transform_file loads (l1 ++ line :: l2) = Raise AttributeError).
Proof.
  split.
  - intros H.
    assert (E : read_jsonl loads (l1 ++ line :: l2) = read_jsonl loads (l1 ++ l2)).
    { rewrite !read_jsonl_app. f_equal.
      unfold read_jsonl. cbn [flat_map].
      destruct H as [H | H].
      - rewrite (strip_all_space line H). reflexivity.
      - destruct (truthy (PStr (strip line))); [| reflexivity].
        destruct (loads (strip line)); [discriminate H | reflexivity]. }
    split; [exact E |]. unfold step_clean_transform_file. rewrite E. reflexivity.
  - intros NE L. unfold step_clean_transform_file.
    rewrite mapM_as_object_raises; [reflexivity |].
    rewrite read_jsonl_app. apply in_or_app. right.
    unfold read_jsonl. cbn [flat_map].
    assert (T : truthy (PStr (strip line)) = true).
    { destruct (strip line); [congruence | reflexivity]. }
    rewrite T, L. left. reflexivity.
Qed.

Lemma raw_lines_skipped_or_fatal_sample :
  step_clean_transform_file
    (fun s => if String.eqb s "[]" then Ok JOther
              else if String.eqb s "{}"
                   then Ok (JObject (mkRaw None None None None))
                   else Raise ValueError)
    ["{}"; "  [] "; "{}"] = Raise AttributeError /\
  read_jsonl
    (fun s => if String.eqb s "[]" then Ok JOther
              else if String.eqb s "{}"
                   then Ok (JObject (mkRaw None None None None))
                   else Raise ValueError)
    ["{}"; "   "; "{}"]
  = [JObject (mkRaw None None None None); JObject (mkRaw None None None None)].
Proof.
  split.
  - apply (proj2 (raw_lines_skipped_or_fatal
                    (fun s => if String.eqb s "[]" then Ok JOther
                              else if String.eqb s "{}"
                                   then Ok (JObject (mkRaw None None None None))
                                   else Raise ValueError)
                    ["{}"] ["{}"] "  [] ")).
    + vm_compute. discriminate.
    + vm_compute. reflexivity.
  - vm_compute. reflexivity.
Defined.

(** ** Cells as keys *)

Lemma feq_spec (a b : float) :
  feq a b = true <->
  match a, b with
  | S754_zero _, S754_zero _ => True
  | S754_infinity s, S754_infinity t => s = t
  | S754_finite s m e, S754_finite t n f => s = t /\ m = n /\ e = f
  | _, _ => False
  end.
Proof.
  unfold feq, SFeqb.
  destruct a as [s | s | | s m e], b as [t | t | | t n f];
    cbv beta iota delta [SFcompare];
    try tauto;
    try (solve [split; [discriminate | tauto]]);
    try (solve [destruct s; (split; [discriminate | tauto])]);
    try (solve [destruct t; (split; [discriminate | tauto])]);
    try (solve [destruct s, t; split; try discriminate; try reflexivity; tauto]).
  destruct s, t; try (split; [discriminate | intros (H & _); discriminate H]).
  - destruct (Z.compare_spec e f) as [E | E | E]; cbn [CompOpp].
    + subst f. rewrite Pos.compare_cont_spec. cbn [Pos.switch_Eq].
      destruct (Pos.compare_spec m n) as [M | M | M]; cbn [CompOpp].
      * subst n. tauto.
      * split; [discriminate | intros (_ & H & _); lia].
      * split; [discriminate | intros (_ & H & _); lia].
    + split; [discriminate | intros (_ & _ & H); lia].
    + split; [discriminate | intros (_ & _ & H); lia].
  - destruct (Z.compare_spec e f) as [E | E | E].
    + subst f. rewrite Pos.compare_cont_spec. cbn [Pos.switch_Eq].
      destruct (Pos.compare_spec m n) as [M | M | M].
      * subst n. tauto.
      * split; [discriminate | intros (_ & H & _); lia].
      * split; [discriminate | intros (_ & H & _); lia].
    + split; [discriminate | intros (_ & _ & H); lia].
    + split; [discriminate | intros (_ & _ & H); lia].
Qed.

Lemma feq_refl (a : float) : isnan a = false -> feq a a = true.
Proof. intros N. apply feq_spec. destruct a; try discriminate; auto. Qed.

Lemma feq_sym (a b : float) : feq a b = feq b a.
Proof.
  apply eq_true_iff_eq. rewrite !feq_spec.
  destruct a, b; try tauto; split; intros; intuition congruence.
Qed.

Lemma feq_trans (a b c : float) :
  feq a b = true -> feq b c = true -> feq a c = true.
Proof.
  rewrite !feq_spec.
  destruct a, b, c; try tauto; intros; intuition congruence.
Qed.

(** The conversion of an integer never gives NaN. *)
Lemma shr_1_nonneg (mrs : shr_record) : 0 <= shr_m mrs -> 0 <= shr_m (shr_1 mrs).
Proof.
  destruct mrs as [m r s]. cbn [shr_m]. intros H. unfold shr_1.
  destruct m as [| [p | p |] | p]; cbn [shr_m]; lia.
Qed.

Lemma iter_pos_shr_1_nonneg (p : positive) : forall mrs,
  0 <= shr_m mrs -> 0 <= shr_m (iter_pos shr_1 p mrs).
Proof.
  induction p as [p IH | p IH |]; intros mrs H; cbn [iter_pos].
  - apply IH. apply IH. apply shr_1_nonneg. exact H.
  - apply IH. apply IH. exact H.
  - apply shr_1_nonneg. exact H.
Qed.

Lemma shr_fexp_nonneg (m e : Z) (l : location) :
  0 <= m -> 0 <= shr_m (fst (shr_fexp 53 1024 m e l)).
Proof.
  intros H. unfold shr_fexp, shr.
  assert (R : 0 <= shr_m (shr_record_of_loc m l)).
  { destruct l as [| [| |]]; exact H. }
  destruct (fexp 53 1024 (Zdigits2 m + e) - e); cbn [fst]; try exact R.
  apply iter_pos_shr_1_nonneg. exact R.
Qed.

Lemma binary_round_aux_not_nan (sx : bool) (m e : Z) (l : location) :
  0 <= m -> isnan (binary_round_aux 53 1024 sx m e l) = false.
Proof.
  intros H. unfold binary_round_aux.
  pose proof (shr_fexp_nonneg m e l H) as H1.
  destruct (shr_fexp 53 1024 m e l) as [mrs' e']. cbn [fst] in H1.
  assert (H2 : 0 <= round_nearest_even (shr_m mrs') (loc_of_shr_record mrs')).
  { unfold round_nearest_even.
    destruct (loc_of_shr_record mrs') as [| [| |]];
      try destruct (Z.even (shr_m mrs')); lia. }
  pose proof (shr_fexp_nonneg _ e' loc_Exact H2) as H3.
  destruct (shr_fexp 53 1024 _ e' loc_Exact) as [mrs'' e'']. cbn [fst] in H3.
  destruct (shr_m mrs'') as [| p | p]; [reflexivity | | lia].
  destruct (e'' <=? 1024 - 53); reflexivity.
Qed.

Lemma float_of_Z_not_nan (z : Z) : isnan (float_of_Z z) = false.
Proof.
  unfold float_of_Z, binary_normalize.
  destruct z as [| p | p]; [reflexivity | |]; unfold binary_round;
    destruct (shl_align _ 0 _) as [mz ez];
    apply binary_round_aux_not_nan; lia.
Qed.

Lemma isna_num_of (a : scalar) :
  (forall s, a <> PStr s) -> isna a = isnan (num_of a).
Proof.
  intros N. destruct a as [| b | z | f | s]; cbn [isna num_of].
  - reflexivity.
  - symmetry. apply float_of_Z_not_nan.
  - symmetry. apply float_of_Z_not_nan.
  - reflexivity.
  - exfalso. exact (N s eq_refl).
Qed.

Lemma cell_eqb_numbers (a b : scalar) :
  (forall s, a <> PStr s) -> (forall s, b <> PStr s) ->
  cell_eqb a b
  = (if isnan (num_of a) then isnan (num_of b)
     else if isnan (num_of b) then false
          else feq (num_of a) (num_of b)).
Proof.
  intros Na Nb.
  rewrite <- (isna_num_of a Na), <- (isna_num_of b Nb).
  destruct a; try (exfalso; eapply Na; reflexivity);
    destruct b; try (exfalso; eapply Nb; reflexivity); reflexivity.
Qed.

Lemma text_or_number (a : scalar) :
  (exists s, a = PStr s) \/ (forall s, a <> PStr s).
Proof. destruct a; try (right; discriminate). left. eauto. Qed.

Lemma cell_eqb_refl (a : scalar) : isna a = false -> cell_eqb a a = true.
Proof.
  intros N. destruct (text_or_number a) as [[s ->] | T].
  - cbn. apply String.eqb_refl.
  - rewrite (cell_eqb_numbers a a T T).
    rewrite (isna_num_of a T) in N. rewrite N. apply feq_refl. exact N.
Qed.

Lemma cell_eqb_sym (a b : scalar) : cell_eqb a b = cell_eqb b a.
Proof.
  destruct (text_or_number a) as [[s ->] | Ta];
    destruct (text_or_number b) as [[t ->] | Tb].
  - cbn. apply String.eqb_sym.
  - destruct b; try reflexivity. exfalso. eapply Tb. reflexivity.
  - destruct a; try reflexivity. exfalso. eapply Ta. reflexivity.
  - rewrite (cell_eqb_numbers a b Ta Tb), (cell_eqb_numbers b a Tb Ta).
    rewrite (feq_sym (num_of a) (num_of b)).
    destruct (isnan (num_of a)), (isnan (num_of b)); reflexivity.
Qed.

(** Equality as keys is transitive, apart from nulls. *)
Lemma cell_eqb_trans (a b c : scalar) :
  isna b = false ->
  cell_eqb a b = true -> cell_eqb b c = true -> cell_eqb a c = true.
Proof.
  intros N.
  destruct (text_or_number a) as [[s ->] | Ta];
    destruct (text_or_number b) as [[t ->] | Tb];
    destruct (text_or_number c) as [[u ->] | Tc].
  - cbn. rewrite !String.eqb_eq. congruence.
  - intros _ H. destruct c; try discriminate H. exfalso. eapply Tc. reflexivity.
  - intros H. destruct b; try discriminate H. exfalso. eapply Tb. reflexivity.
  - intros H. destruct b; try discriminate H. exfalso. eapply Tb. reflexivity.
  - intros H. destruct a; try discriminate H. exfalso. eapply Ta. reflexivity.
  - intros H. destruct a; try discriminate H. exfalso. eapply Ta. reflexivity.
  - intros _ H. destruct b; try discriminate H. exfalso. eapply Tb. reflexivity.
  - rewrite (cell_eqb_numbers a b Ta Tb), (cell_eqb_numbers b c Tb Tc),
      (cell_eqb_numbers a c Ta Tc).
    rewrite (isna_num_of b Tb) in N. rewrite N.
    destruct (isnan (num_of a)); [discriminate |].
    destruct (isnan (num_of c)); [discriminate |].
    apply feq_trans.
Qed.

Lemma cell_eqb_notna (a b : scalar) :
  isna a = false -> cell_eqb a b = true -> isna b = false.
Proof.
  intros N H.
  destruct (text_or_number a) as [[s ->] | Ta];
    destruct (text_or_number b) as [[t ->] | Tb]; try reflexivity.
  - destruct b; try discriminate H. exfalso. eapply Tb. reflexivity.
  - rewrite (cell_eqb_numbers a b Ta Tb) in H.
    rewrite (isna_num_of a Ta) in N. rewrite (isna_num_of b Tb).
    rewrite N in H. destruct (isnan (num_of b)); [discriminate | reflexivity].
Qed.

(** ** Counting the rows of each key *)

Lemma filter_mask_map {A : Type} (f : A -> bool) (l : list A) :
  filter_mask l (map f l) = filter f l.
Proof.
  induction l as [| a l IH]; [reflexivity |].
  cbn [map filter_mask filter]. rewrite IH. reflexivity.
Qed.

Lemma mem_cell_trans (k x : scalar) (seen : list scalar) :
  isna x = false -> cell_eqb k x = true -> mem_cell x seen = true ->
  mem_cell k seen = true.
Proof.
  intros N E M. unfold mem_cell in *.
  apply existsb_exists in M. destruct M as (s & I & Es).
  apply existsb_exists. exists s. split; [exact I |].
  exact (cell_eqb_trans k x s N E Es).
Qed.

Lemma mem_cell_cons (y x : scalar) (seen : list scalar) :
  mem_cell y (x :: seen) = cell_eqb y x || mem_cell y seen.
Proof. reflexivity. Qed.

Lemma distinct_unseen (l : list scalar) : forall seen k,
  In k (distinct seen l) -> mem_cell k seen = false /\ In k l.
Proof.
  induction l as [| x l IH]; intros seen k I; [destruct I |].
  cbn [distinct] in I. destruct (mem_cell x seen) eqn:M.
  - destruct (IH _ _ I) as [H1 H2]. split; [exact H1 | right; exact H2].
  - destruct I as [<- | I]; [split; [exact M | left; reflexivity] |].
    destruct (IH _ _ I) as [H1 H2].
    rewrite mem_cell_cons in H1.
    apply orb_false_iff in H1. split; [apply H1 | right; exact H2].
Qed.

Lemma list_sum_cons (x : nat) (l : list nat) :
  list_sum (x :: l) = (x + list_sum l)%nat.
Proof. reflexivity. Qed.

Lemma list_sum_map_ext {A : Type} (f g : A -> nat) (l : list A) :
  (forall a, In a l -> f a = g a) ->
  list_sum (map f l) = list_sum (map g l).
Proof.
  induction l as [| a l IH]; intros H; [reflexivity |].
  cbn [map]. rewrite !list_sum_cons, (H a (or_introl eq_refl)), IH;
    [reflexivity |].
  intros b I. apply H. right. exact I.
Qed.

(** The rows not seen before: those equal to [x], and the others. *)
Lemma unseen_split (x : scalar) (seen m : list scalar) :
  isna x = false -> mem_cell x seen = false ->
  Forall (fun y => isna y = false) m ->
  List.length (filter (fun y => negb (mem_cell y seen)) m)
  = (List.length (filter (cell_eqb x) m)
     + List.length (filter (fun y => negb (mem_cell y (x :: seen))) m))%nat.
Proof.
  intros Nx Mx F. induction F as [| y m Ny F IH]; [reflexivity |].
  cbn [filter]. rewrite mem_cell_cons.
  destruct (cell_eqb x y) eqn:E.
  - assert (My : mem_cell y seen = false).
    { destruct (mem_cell y seen) eqn:My; [| reflexivity].
      rewrite (mem_cell_trans x y seen Ny E My) in Mx. discriminate. }
    rewrite My, (cell_eqb_sym y x), E. cbn [negb orb List.length].
    rewrite IH. reflexivity.
  - rewrite (cell_eqb_sym y x), E. cbn [orb].
    destruct (mem_cell y seen); cbn [negb List.length]; rewrite IH; lia.
Qed.

(** Every row that is not null is counted under exactly one key. *)
Lemma distinct_counts (l : list scalar) :
  Forall (fun y => isna y = false) l ->
  forall seen,
    list_sum (map (fun k => List.length (filter (cell_eqb k) l))
                  (distinct seen l))
    = List.length (filter (fun y => negb (mem_cell y seen)) l).
Proof.
  intros F. induction F as [| x l Nx F IH]; intros seen; [reflexivity |].
  cbn [distinct]. destruct (mem_cell x seen) eqn:M.
  - cbn [filter]. rewrite M. cbn [negb]. rewrite <- IH.
    apply list_sum_map_ext. intros k I.
    destruct (distinct_unseen _ _ _ I) as [Hk _].
    destruct (cell_eqb k x) eqn:E; [| reflexivity].
    rewrite (mem_cell_trans k x seen Nx E M) in Hk. discriminate.
  - cbn [map filter]. rewrite list_sum_cons, M, (cell_eqb_refl x Nx).
    cbn [negb List.length].
    rewrite (unseen_split x seen l Nx M F), <- (IH (x :: seen)).
    rewrite Nat.add_succ_l. f_equal. f_equal.
    apply list_sum_map_ext. intros k I.
    destruct (distinct_unseen _ _ _ I) as [Hk _].
    rewrite mem_cell_cons in Hk.
    apply orb_false_iff in Hk. destruct Hk as [Hk _]. rewrite Hk. reflexivity.
Qed.

Lemma filter_notna_count (k : scalar) (b : list scalar) :
  isna k = false ->
  filter (cell_eqb k) (filter notna b) = filter (cell_eqb k) b.
Proof.
  intros N. induction b as [| y b IH]; [reflexivity |].
  cbn [filter]. unfold notna at 1.
  destruct (isna y) eqn:Y; cbn [negb].
  - destruct (cell_eqb k y) eqn:E; [| exact IH].
    rewrite (cell_eqb_notna k y N E) in Y. discriminate.
  - cbn [filter]. rewrite IH. reflexivity.
Qed.

Lemma list_sum_insert_by {A : Type} (before : A -> A -> bool) (f : A -> nat)
    (x : A) (l : list A) :
  list_sum (map f (insert_by before x l)) = (f x + list_sum (map f l))%nat.
Proof.
  induction l as [| y l IH]; [reflexivity |].
  cbn [insert_by]. destruct (before x y); cbn [map]; rewrite ?list_sum_cons;
    [reflexivity |].
  rewrite IH. lia.
Qed.

Lemma list_sum_sort_by {A : Type} (before : A -> A -> bool) (f : A -> nat)
    (l : list A) :
  list_sum (map f (sort_by before l)) = list_sum (map f l).
Proof.
  unfold sort_by. induction l as [| x l IH]; [reflexivity |].
  cbn [fold_right map]. rewrite list_sum_insert_by, list_sum_cons, IH.
  reflexivity.
Qed.

Lemma length_insert_by {A : Type} (before : A -> A -> bool) (x : A)
    (l : list A) :
  List.length (insert_by before x l) = S (List.length l).
Proof.
  induction l as [| y l IH]; [reflexivity |].
  cbn [insert_by]. destruct (before x y); cbn [List.length]; [reflexivity |].
  rewrite IH. reflexivity.
Qed.

Lemma length_sort_by {A : Type} (before : A -> A -> bool) (l : list A) :
  List.length (sort_by before l) = List.length l.
Proof.
  unfold sort_by. induction l as [| x l IH]; [reflexivity |].
  cbn [fold_right]. rewrite length_insert_by, IH. reflexivity.
Qed.

Lemma in_insert_by {A : Type} (before : A -> A -> bool) (x a : A)
    (l : list A) :
  In a (insert_by before x l) <-> a = x \/ In a l.
Proof.
  induction l as [| y l IH]; cbn [insert_by].
  - cbn. intuition.
  - destruct (before x y); cbn [In]; [intuition |].
    rewrite IH. intuition.
Qed.

Lemma in_sort_by {A : Type} (before : A -> A -> bool) (a : A) (l : list A) :
  In a (sort_by before l) <-> In a l.
Proof.
  unfold sort_by. induction l as [| x l IH]; [reflexivity |].
  cbn [fold_right In]. rewrite in_insert_by, IH. intuition.
Qed.

Lemma uniques_notna (b : list scalar) (k : scalar) :
  In k (uniques b) -> isna k = false.
Proof.
  unfold uniques. intros I. apply distinct_unseen in I.
  destruct I as [_ I]. apply filter_In in I. destruct I as [_ N].
  unfold notna in N. apply negb_true_iff in N. exact N.
Qed.

Lemma filter_all {A : Type} (l : list A) : filter (fun _ => true) l = l.
Proof. induction l as [| a l IH]; [reflexivity |]. cbn. rewrite IH. reflexivity. Qed.

(** The sizes of the groups of a column add up to its rows that are not
    null. *)
Lemma group_sizes_add_up (b : list scalar) :
  list_sum (map (fun k => List.length (in_group k b b)) (uniques b))
  = List.length (filter notna b).
Proof.
  unfold in_group.
  rewrite (list_sum_map_ext _
             (fun k => List.length (filter (cell_eqb k) (filter notna b)))).
  - unfold uniques. rewrite distinct_counts.
    + change (fun y : scalar => negb (mem_cell y [])) with (fun _ : scalar => true).
      rewrite filter_all. reflexivity.
    + apply Forall_forall. intros y I. apply filter_In in I.
      destruct I as [_ N]. unfold notna in N. apply negb_true_iff in N. exact N.
  - intros k I. rewrite filter_mask_map, filter_notna_count; [reflexivity |].
    exact (uniques_notna b k I).
Qed.

Lemma sum_of_nats (l : list nat) :
  fold_right Z.add 0 (map Z.of_nat l) = Z.of_nat (list_sum l).
Proof.
  induction l as [| n l IH]; [reflexivity |].
  cbn [map fold_right]. rewrite list_sum_cons, IH. lia.
Qed.

Lemma zsum_insert_by {A : Type} (before : A -> A -> bool) (f : A -> Z)
    (x : A) (l : list A) :
  fold_right Z.add 0 (map f (insert_by before x l))
  = f x + fold_right Z.add 0 (map f l).
Proof.
  induction l as [| y l IH]; [reflexivity |].
  cbn [insert_by]. destruct (before x y); cbn [map fold_right]; [reflexivity |].
  rewrite IH. lia.
Qed.

Lemma zsum_sort_by {A : Type} (before : A -> A -> bool) (f : A -> Z)
    (l : list A) :
  fold_right Z.add 0 (map f (sort_by before l)) = fold_right Z.add 0 (map f l).
Proof.
  unfold sort_by. induction l as [| x l IH]; [reflexivity |].
  cbn [fold_right map]. rewrite zsum_insert_by. cbn [fold_right] in IH.
  rewrite IH. reflexivity.
Qed.

Lemma getcol_two_cols_snd (c1 c2 : string) (l : list (scalar * scalar)) :
  c1 <> c2 -> getcol (two_cols c1 c2 l) c2 = Ok (map snd l).
Proof.
  intros NE. unfold two_cols.
  rewrite (getcol_index _ c2 1%nat).
  - cbn [rows]. rewrite map_map. reflexivity.
  - cbn [columns index_of].
    destruct (String.eqb_spec c1 c2) as [E | _]; [congruence |].
    rewrite String.eqb_refl. reflexivity.
Qed.

(** X14.  The per-brand totals of q01 add up to the rows whose brand is
    not null, and so do the per-category counts of q14 for the calorie
    category: no row is counted twice and none is left out.  In the table
    that the report step prepares, where a missing brand has become
    "Unknown", the totals of q01 add up to the number of rows. *)
Theorem report_counts_add_up (df : DataFrame) (b c : list scalar) :
  getcol df "brand" = Ok b ->
  getcol df "calorie_category" = Ok c ->
  exists t1 t14 totals counts,
    q01 df = Ok t1 /\
    getcol t1 "total" = Ok (map PInt totals) /\
    fold_right Z.add 0 totals = Z.of_nat (List.length (filter notna b)) /\
    q14 df = Ok t14 /\
    getcol t14 "count" = Ok (map PInt counts) /\
    fold_right Z.add 0 counts = Z.of_nat (List.length (filter notna c)) /\
    (Forall (fun x => isna x = false) b ->
     fold_right Z.add 0 totals = Z.of_nat (List.length (rows df))).
Proof.
  intros Hb Hc. unfold q01, q14. rewrite Hb, Hc. cbn [bind].
  eexists. eexists.
  exists (map (fun k => Z.of_nat (List.length (in_group k b b))) (group_keys b)).
  exists (map snd (sort_by (fun x y => snd y <? snd x)
                     (map (fun k => (k, Z.of_nat (List.length (in_group k c c))))
                          (uniques c)))).
  assert (S1 : fold_right Z.add 0
                 (map (fun k => Z.of_nat (List.length (in_group k b b)))
                      (group_keys b))
               = Z.of_nat (List.length (filter notna b))).
  { rewrite <- (map_map (fun k => List.length (in_group k b b)) Z.of_nat).
    rewrite sum_of_nats. f_equal. unfold group_keys.
    rewrite list_sum_sort_by. apply group_sizes_add_up. }
  split; [reflexivity |]. split.
  { rewrite getcol_two_cols_snd by discriminate.
    rewrite !map_map. reflexivity. }
  split; [exact S1 |].
  split; [reflexivity |]. split.
  { rewrite getcol_two_cols_snd by discriminate. unfold value_counts.
    rewrite !map_map. reflexivity. }
  split.
  { rewrite zsum_sort_by, map_map. cbn [snd].
    rewrite <- (map_map (fun k => List.length (in_group k c c)) Z.of_nat).
    rewrite sum_of_nats. f_equal. apply group_sizes_add_up. }
  intros F. rewrite S1. f_equal.
  rewrite <- (getcol_length df "brand" b Hb).
  f_equal. rewrite (filter_ext_in notna (fun _ => true)).
  - apply filter_all.
  - intros x I. rewrite Forall_forall in F. unfold notna.
    rewrite (F x I). reflexivity.
Qed.

Lemma report_counts_add_up_sample :
  exists t1 totals,
    q01 (fst (prepare sample_engineered)) = Ok t1 /\
    getcol t1 "total" = Ok (map PInt totals) /\
    fold_right Z.add 0 totals = 2.
Proof.
  destruct (getcol (fst (prepare sample_engineered)) "brand") as [b |] eqn:Hb;
    [| vm_compute in Hb; discriminate].
  destruct (getcol (fst (prepare sample_engineered)) "calorie_category")
    as [c |] eqn:Hc; [| vm_compute in Hc; discriminate].
  destruct (report_counts_add_up _ b c Hb Hc)
    as (t1 & _ & totals & _ & E & G & _ & _ & _ & _ & R).
  exists t1, totals. split; [exact E |]. split; [exact G |].
  rewrite R; [reflexivity |].
  vm_compute in Hb. injection Hb as <-.
  repeat constructor.
Defined.

(** ** Reports that agree with each other *)

Lemma zip_with_andb_comm (m1 m2 : list bool) :
  zip_with andb m1 m2 = zip_with andb m2 m1.
Proof.
  revert m2. induction m1 as [| a m1 IH]; intros [| b m2]; cbn [zip_with];
    try reflexivity.
  rewrite IH, andb_comm. reflexivity.
Qed.

Lemma in_firstn {A : Type} (n : nat) (x : A) (l : list A) :
  In x (firstn n l) -> In x l.
Proof.
  revert l. induction n as [| n IH]; intros [| a l] I; cbn in *; try tauto.
  destruct I as [I | I]; [left; exact I | right; apply IH; exact I].
Qed.

(** X15.  The brand reports agree: the number of q05 is the number of
    rows of q01 and of q02, which list the same brands in the same order,
    and every row of q03, a brand with its count, is a row of q01. *)
Theorem brand_reports_agree (df : DataFrame) (b c : list scalar) :
  getcol df "brand" = Ok b ->
  getcol df "product_code" = Ok c ->
  exists t1 t2 t3 t5,
    q01 df = Ok t1 /\ q02 df = Ok t2 /\ q03 df = Ok t3 /\ q05 df = Ok t5 /\
    rows t5 = [[PInt (Z.of_nat (List.length (rows t1)))]] /\
    List.length (rows t2) = List.length (rows t1) /\
    getcol t2 "brand" = getcol t1 "brand" /\
    (List.length (rows t3) <= 5)%nat /\
    (forall r, In r (rows t3) -> In r (rows t1)).
Proof.
  intros Hb Hc. unfold q01, q02, q03, q05. rewrite Hb, Hc. cbn [bind].
  do 4 eexists.
  split; [reflexivity |]. split; [reflexivity |]. split; [reflexivity |].
  split; [reflexivity |].
  unfold two_cols, pd_DataFrame. cbn [rows map snd fst].
  split.
  { rewrite !length_map. unfold nunique, group_keys.
    rewrite length_sort_by. reflexivity. }
  split; [rewrite !length_map; reflexivity |].
  split.
  { rewrite !(getcol_index _ "brand" 0%nat) by reflexivity. cbn [rows].
    rewrite !map_map. reflexivity. }
  split.
  { rewrite length_map. apply firstn_le_length. }
  intros r I. apply in_map_iff in I. destruct I as ([k n] & <- & I).
  apply in_firstn in I. unfold value_counts in I.
  apply in_map_iff in I. destruct I as ([k' n'] & E & I).
  cbn [fst snd] in E. injection E as <- <-.
  apply in_sort_by in I. apply in_map_iff in I.
  destruct I as (k0 & E & I). injection E as <- <-.
  apply in_map_iff. exists (k0, PInt (Z.of_nat (List.length (in_group k0 b b)))).
  split; [reflexivity |].
  apply in_map_iff. exists k0. split; [reflexivity |].
  unfold group_keys. apply in_sort_by. exact I.
Qed.

Lemma brand_reports_agree_sample :
  exists t1 t5,
    q01 sample_engineered = Ok t1 /\ q05 sample_engineered = Ok t5 /\
    rows t5 = [[PInt (Z.of_nat (List.length (rows t1)))]].
Proof.
  destruct (getcol sample_engineered "brand") as [b |] eqn:Hb;
    [| vm_compute in Hb; discriminate].
  destruct (getcol sample_engineered "product_code") as [c |] eqn:Hc;
    [| vm_compute in Hc; discriminate].
  destruct (brand_reports_agree _ b c Hb Hc)
    as (t1 & _ & _ & t5 & E1 & _ & _ & E5 & R & _).
  exists t1, t5. auto.
Defined.

(** X16.  The report q24 is q17 restricted to three columns: both keep
    the rows whose calorie and sugar category are "High", whichever mask
    is written first. *)
Theorem q24_is_q17_projected (df t17 : DataFrame) :
  q17 df = Ok t17 ->
  q24 df = select t17 ["brand"; "sugars_value"; "energy-kcal_value"].
Proof.
  unfold q17, q24.
  destruct (eq_mask df "calorie_category" "High") as [m1 | e1];
    [| discriminate].
  cbn [bind].
  destruct (eq_mask df "sugar_category" "High") as [m2 | e2];
    [| discriminate].
  cbn [bind]. intros [= <-].
  rewrite (zip_with_andb_comm m2 m1). reflexivity.
Qed.

Lemma q24_is_q17_projected_sample :
  exists t17,
    q17 sample_engineered = Ok t17 /\
    q24 sample_engineered
    = select t17 ["brand"; "sugars_value"; "energy-kcal_value"].
Proof.
  destruct (q17 sample_engineered) as [t17 |] eqn:E;
    [| vm_compute in E; discriminate].
  exists t17. split; [reflexivity |].
  exact (q24_is_q17_projected sample_engineered t17 E).
Defined.

(** X17.  In q12 the replacement of missing values by 0 changes nothing:
    the report is the rows whose estimate is above 0, and a row without
    an estimate is left out either way. *)
Theorem q12_fillna_is_redundant (df : DataFrame) :
  q12 df = where_gt df fvn (float_of_Z 0).
Proof.
  unfold q12, where_gt.
  destruct (col_floats df fvn) as [vals | e]; [| reflexivity].
  cbn [bind]. f_equal. f_equal. rewrite map_map.
  apply map_ext. intros x.
  destruct (isnan x) eqn:N; [| reflexivity].
  destruct x; try discriminate. vm_compute. reflexivity.
Qed.

(** ** A table that the report step accepts *)



















(** ** From the records to the report *)













